(** * agent-orch: the MCP tool gateway and the agent orchestrator

    A shallow embedding of the TypeScript sources
    - [mcp-server/src/server.ts] (the [/mcp/call] handler of [createMcpServer]),
    - [mcp-server/src/tools/index.ts] (the tool registry),
    - [mcp-server/src/tools/definitions/*.ts] and [executors/*.ts],
    - [mcp-server/src/middleware/audit-logger.ts],
    - [agent-workflows/src/agents/base.ts] and
    - [agent-workflows/src/orchestration/orchestrator.ts],
    followed by the properties established about them.

    A string of the program is modelled by its UTF-8 encoding, held in
    a [string] (a sequence of bytes; a lone surrogate takes the three
    bytes of its generalised encoding).  Its [length], counted by
    JavaScript in UTF-16 code units, is [Str.length16]; its length in
    bytes is [String.length].  Searching, splitting and comparing for
    ASCII characters agree byte by byte with the same operations on
    code units.  Times and sizes are modelled by [Z], JSON numbers by
    [Q], and the results of floating-point arithmetic by binary64
    floats. *)

From Stdlib Require Import String Ascii List Bool ZArith QArith Lia DecimalString.
From Stdlib Require Floats.PrimFloat Floats.SpecFloat Floats.FloatOps.
Import ListNotations.
Open Scope list_scope.
Open Scope string_scope.
Open Scope Z_scope.

Set Implicit Arguments.

(* ================================================================= *)
(** * Strings *)

Module Str.

(** [String.prototype.startsWith]. *)
Definition startsWith (s pre : string) : bool := String.prefix pre s.

(** [String.prototype.includes]. *)
Fixpoint includes (s sub : string) : bool :=
  String.prefix sub s
  || match s with
     | EmptyString => false
     | String _ r => includes r sub
     end.

(** A string occurs verbatim inside another one. *)
Definition occurs_in (x s : string) : Prop :=
  exists pre post, s = pre ++ x ++ post.

(** [String(n)] for an integer. *)
Definition of_Z (n : Z) : string := NilZero.string_of_int (Z.to_int n).

(** [Array.prototype.join(sep)]. *)
Fixpoint join (sep : string) (l : list string) : string :=
  match l with
  | [] => ""
  | [x] => x
  | x :: r => x ++ sep ++ join sep r
  end.

(** [String.prototype.split(c)] for a one-character separator. *)
Fixpoint split (c : ascii) (s : string) : list string :=
  match s with
  | EmptyString => [EmptyString]
  | String a r =>
      if Ascii.eqb a c then EmptyString :: split c r
      else match split c r with
           | h :: t => String a h :: t
           | [] => [String a EmptyString]
           end
  end.

(** [s.replace(/-/g, '_')]. *)
Fixpoint replace_char (from to : ascii) (s : string) : string :=
  match s with
  | EmptyString => EmptyString
  | String a r =>
      String (if Ascii.eqb a from then to else a) (replace_char from to r)
  end.

(** The first character, if any. *)
Definition head (s : string) : option ascii :=
  match s with EmptyString => None | String a _ => Some a end.

(** The last character, if any. *)
Fixpoint last (s : string) : option ascii :=
  match s with
  | EmptyString => None
  | String a EmptyString => Some a
  | String _ r => last r
  end.

(** [pre] removed from the front of [s], when [s] starts with it. *)
Fixpoint strip_prefix (pre s : string) : option string :=
  match pre, s with
  | EmptyString, _ => Some s
  | String a p, String b r => if Ascii.eqb a b then strip_prefix p r else None
  | String _ _, EmptyString => None
  end.

(** No piece of a split string contains the separator. *)
Definition free_of (c : ascii) (s : string) : Prop :=
  split c s = [s].

(** The UTF-16 code units a byte of an encoded string stands for: one
    for an ASCII byte and for the first byte of a two- or three-byte
    sequence, two (a surrogate pair) for the first byte of a four-byte
    sequence, none for a continuation byte. *)
Definition units (c : ascii) : nat :=
  let n := nat_of_ascii c in
  if (n <? 128)%nat then 1%nat
  else if (n <? 192)%nat then 0%nat
  else if (n <? 240)%nat then 1%nat
  else 2%nat.

(** [s.length]: the number of UTF-16 code units. *)
Fixpoint length16 (s : string) : nat :=
  match s with
  | EmptyString => 0%nat
  | String c r => (units c + length16 r)%nat
  end.

(** The bytes are sequences of the right lengths: every first byte is
    followed by as many continuation bytes as it announces.  [pending]
    continuation bytes are still due. *)
Fixpoint sequenced (pending : nat) (s : string) : bool :=
  match s with
  | EmptyString => (pending =? 0)%nat
  | String c r =>
      let n := nat_of_ascii c in
      match pending with
      | O =>
          if (n <? 128)%nat then sequenced 0 r
          else if (n <? 192)%nat then false
          else if (n <? 224)%nat then sequenced 1 r
          else if (n <? 240)%nat then sequenced 2 r
          else if (n <? 248)%nat then sequenced 3 r
          else false
      | S pending' =>
          if ((128 <=? n) && (n <? 192))%nat then sequenced pending' r else false
      end
  end.

Definition well_formed (s : string) : bool := sequenced 0 s.

(** Every byte is an ASCII character. *)
Definition ascii_only (s : string) : bool :=
  forallb (fun c => (nat_of_ascii c <? 128)%nat) (list_ascii_of_string s).

(** [toLowerCase] on an ASCII character. *)
Definition lower (c : ascii) : ascii :=
  let n := nat_of_ascii c in
  if ((65 <=? n) && (n <=? 90))%nat then ascii_of_nat (n + 32) else c.

(** The encodings of U+212A (Kelvin sign), of U+0130 (capital I with
    dot above) and of U+0307 (combining dot above). *)
Definition kelvin : string :=
  String (ascii_of_nat 226) (String (ascii_of_nat 132)
    (String (ascii_of_nat 170) EmptyString)).
Definition dotted_I : string :=
  String (ascii_of_nat 196) (String (ascii_of_nat 176) EmptyString).
Definition dot_above : string :=
  String (ascii_of_nat 204) (String (ascii_of_nat 135) EmptyString).

(** [String.prototype.toLowerCase].  The letters A to Z become a to z.
    Two characters outside ASCII have a lowercase form with an ASCII
    letter in it: the Kelvin sign becomes [k], and the dotted capital I
    becomes [i] followed by a combining dot.  Every other character
    outside ASCII has a lowercase form outside ASCII, of which the
    program makes no use (it only looks for ASCII words in the
    lowercased text); its bytes are kept. *)
Fixpoint toLowerCase (s : string) : string :=
  match s with
  | EmptyString => EmptyString
  | String c r =>
      let plain := String (lower c) (toLowerCase r) in
      match r with
      | String c2 r2 =>
          if ((nat_of_ascii c =? 196) && (nat_of_ascii c2 =? 176))%nat
          then String "i" (dot_above ++ toLowerCase r2)
          else
            match r2 with
            | String c3 r3 =>
                if ((nat_of_ascii c =? 226) && (nat_of_ascii c2 =? 132)
                    && (nat_of_ascii c3 =? 170))%nat
                then String "k" (toLowerCase r3)
                else plain
            | EmptyString => plain
            end
      | EmptyString => plain
      end
  end.

End Str.

(* ================================================================= *)
(** * Node's [path] module (POSIX flavour)

    [normalize], [join] and [resolve] are imported by the file executors
    from Node's standard library.  They are modelled on path segments:
    [normalizeString] walks the pieces between separators, skips empty
    pieces and ["."], and lets [".."] remove the piece before it. *)

Module Path.

Definition sep : ascii := "/"%char.

Definition isAbsolute (p : string) : bool :=
  match p with
  | String c _ => Ascii.eqb c sep
  | EmptyString => false
  end.

Definition hasTrailingSeparator (p : string) : bool :=
  match Str.last p with
  | Some c => Ascii.eqb c sep
  | None => false
  end.

(** One piece pushed on the stack of kept pieces (most recent first). *)
Definition step (allowAboveRoot : bool) (stack : list string) (seg : string)
  : list string :=
  if (seg =? "")%string || (seg =? ".")%string then stack
  else if (seg =? "..")%string then
    match stack with
    | top :: rest =>
        if (top =? "..")%string
        then (if allowAboveRoot then ".." :: stack else stack)
        else rest
    | [] => if allowAboveRoot then [".."] else []
    end
  else seg :: stack.

Definition walk (allowAboveRoot : bool) (stack : list string)
  (segs : list string) : list string :=
  fold_left (step allowAboveRoot) segs stack.

Definition normalizeString (path : string) (allowAboveRoot : bool) : string :=
  Str.join "/" (rev (walk allowAboveRoot [] (Str.split sep path))).

(** [path.normalize(p)]. *)
Definition normalize (path : string) : string :=
  if (path =? "")%string then "."
  else
    let isAbs := isAbsolute path in
    let trailing := hasTrailingSeparator path in
    let res := normalizeString path (negb isAbs) in
    if (res =? "")%string then
      (if isAbs then "/" else if trailing then "./" else ".")
    else
      let res' := if trailing then res ++ "/" else res in
      if isAbs then "/" ++ res' else res'.

(** [path.join(a, b)]: empty arguments are skipped. *)
Definition join (a b : string) : string :=
  let joined :=
    if (a =? "")%string then b
    else if (b =? "")%string then a
    else a ++ "/" ++ b in
  if (joined =? "")%string then "." else normalize joined.

(** [path.resolve(p)] in a process whose working directory is [cwd]
    ([process.cwd()] is always absolute). *)
Definition resolve (cwd : string) (p : string) : string :=
  let step1 := if (p =? "")%string then "" else p ++ "/" in
  let resolvedPath :=
    if isAbsolute p then step1
    else if (cwd =? "")%string then step1
    else cwd ++ "/" ++ step1 in
  let resolvedAbsolute := isAbsolute p || isAbsolute cwd in
  let res := normalizeString resolvedPath (negb resolvedAbsolute) in
  if resolvedAbsolute then "/" ++ res
  else if (res =? "")%string then "." else res.

(** The pieces of a path that [normalizeString] does not skip. *)
Definition meaningful (seg : string) : bool :=
  negb ((seg =? "")%string || (seg =? ".")%string).

Definition segments (p : string) : list string :=
  filter meaningful (Str.split sep p).

(** [full] names the directory [root] itself or something below it. *)
Definition below (root full : string) : bool :=
  let root' := if (root =? "/")%string then root else root ++ "/" in
  String.prefix root' full && negb (full =? root')%string.

Definition below_or_equal (root full : string) : bool :=
  (full =? root)%string || below root full.

(** The pieces [normalizeString] keeps: neither empty nor ["."], and
    without a separator inside. *)
Definition kept (seg : string) : Prop :=
  meaningful seg = true /\ Str.free_of sep seg.

(** Resolution against the working directory, on segments. *)
Definition base_segments (cwd p : string) : list string :=
  if isAbsolute p then [] else segments cwd.

(** The pieces of the resolved form of [dir], most recent first. *)
Definition root_stack (cwd dir : string) : list string :=
  walk false [] (base_segments cwd dir ++ segments dir)%list.

End Path.

(* ================================================================= *)
(** * JavaScript values and completions *)

Module Js.

(** JSON values, as a request body carries them. *)
#[local] Set Warnings "-register-all".
Inductive value : Type :=
| JNull
| JBool (b : bool)
| JNum (q : Q)
| JStr (s : string)
| JArr (items : list value)
| JObj (fields : list (string * value)).

(** [obj[key]]; [None] stands for [undefined]. *)
Fixpoint lookup (key : string) (fields : list (string * value)) : option value :=
  match fields with
  | [] => None
  | (k, v) :: rest => if (k =? key)%string then Some v else lookup key rest
  end.

(** A value of TypeScript's type [unknown]. *)
Definition unknown : Type := {T : Type & T}.
Definition as_unknown {T : Type} (x : T) : unknown := existT (fun T => T) T x.

(** What a [throw] carries: an [Error] with its message, or anything else. *)
Inductive thrown : Type :=
| ErrorObject (message : string)
| OtherValue.

(** [err instanceof Error ? err.message : 'Unknown error']. *)
Definition message_of (e : thrown) : string :=
  match e with
  | ErrorObject m => m
  | OtherValue => "Unknown error"
  end.

(** How a call (or an awaited promise) ends. *)
Inductive completion (A : Type) : Type :=
| Returned (a : A)
| Threw (e : thrown).
Arguments Threw {A} e.

(** [a || b] on strings: the empty string is falsy. *)
Definition or_else (a : option string) (b : string) : string :=
  match a with
  | Some s => if (s =? "")%string then b else s
  | None => b
  end.

(** A string in a condition: [undefined] and [""] are falsy. *)
Definition truthy (a : option string) : bool :=
  match a with
  | Some s => negb (s =? "")%string
  | None => false
  end.

(** ** Numbers

    A number is a binary64 float.  An integer below 2^53 in absolute
    value, such as a size in bytes, is one exactly; a larger one is
    rounded to the nearest float. *)

Definition Number_of_Z (z : Z) : PrimFloat.float :=
  FloatOps.SF2Prim
    (SpecFloat.binary_normalize FloatOps.prec FloatOps.emax z 0 false).

(** [Math.floor]. *)
Definition Math_floor (x : PrimFloat.float) : PrimFloat.float :=
  match FloatOps.Prim2SF x with
  | SpecFloat.S754_finite negative m e =>
      if 0 <=? e then x
      else
        let q := Z.shiftr (Z.pos m) (- e) in
        let whole := Z.shiftl q (- e) =? Z.pos m in
        if negative then Number_of_Z (- (if whole then q else q + 1))
        else Number_of_Z q
  | _ => x
  end.

(** [Math.round]: the nearest integer, the larger one of two that are
    equally near; a negative number that rounds to zero gives [-0];
    [NaN] and the infinities are returned as they are. *)
Definition Math_round (x : PrimFloat.float) : PrimFloat.float :=
  match FloatOps.Prim2SF x with
  | SpecFloat.S754_finite negative m e =>
      if 0 <=? e then x
      else
        let f := Math_floor x in
        let r :=
          if PrimFloat.leb (PrimFloat.div (Number_of_Z 1) (Number_of_Z 2))
               (PrimFloat.sub x f)
          then PrimFloat.add f (Number_of_Z 1)
          else f in
        if PrimFloat.eqb r PrimFloat.zero && negative then PrimFloat.neg_zero
        else r
  | _ => x
  end.

End Js.

(* ================================================================= *)
(** * zod schemas

    A schema is modelled by its [parse] function.  [parse] throws a
    [ZodError] holding the issues found; here it returns them.  The
    messages of zod's built-in checks are abbreviated. *)

Module Zod.
Import Js.

Record issue := { path : list string; message : string }.

Inductive result (A : Type) : Type :=
| Ok (a : A)
| ZodError (errors : list issue).
Arguments ZodError {A} errors.

Definition required (key : string) : issue :=
  {| path := [key]; message := "Required" |}.

Definition invalid_type (key expected : string) : issue :=
  {| path := [key]; message := "Expected " ++ expected |}.

(** The issues of a field, and its value when it has the right type. *)
Definition field (A : Type) : Type := (option A * list issue)%type.

(** The checks of [z.string()]: each gives the messages of its issues.
    [.min(n)] and [.max(n)] compare [n] with the string's [length]. *)
Definition min (n : Z) (msg : string) (s : string) : list string :=
  if Z.of_nat (Str.length16 s) <? n then [msg] else [].

Definition max (n : Z) (msg : string) (s : string) : list string :=
  if n <? Z.of_nat (Str.length16 s) then [msg] else [].

Definition refine (check : string -> bool) (msg : string) (s : string)
  : list string :=
  if check s then [] else [msg].

(** [z.string()] with the checks [checks] run on the string. *)
Definition string_field (key : string) (checks : string -> list string)
  (v : option value) : field string :=
  match v with
  | Some (JStr s) =>
      (Some s, map (fun m => {| path := [key]; message := m |}) (checks s))
  | Some _ => (None, [invalid_type key "string"])
  | None => (None, [required key])
  end.

(** [z.enum([...]).default(d)]. *)
Definition enum_field (A : Type) (key : string) (options : list (string * A))
  (default : A) (v : option value) : field A :=
  match v with
  | None => (Some default, [])
  | Some (JStr s) =>
      match find (fun o => (fst o =? s)%string) options with
      | Some o => (Some (snd o), [])
      | None => (None, [{| path := [key]; message := "Invalid enum value" |}])
      end
  | Some _ => (None, [invalid_type key "enum value"])
  end.

(** [z.boolean().default(d)]. *)
Definition boolean_field (key : string) (default : bool) (v : option value)
  : field bool :=
  match v with
  | None => (Some default, [])
  | Some (JBool b) => (Some b, [])
  | Some _ => (None, [invalid_type key "boolean"])
  end.

Definition is_integer (q : Q) : bool := Pos.eqb (Qden (Qred q)) 1.

(** [z.number().int().min(lo).max(hi).default(d)]. *)
Definition int_field (key : string) (lo hi default : Z) (v : option value)
  : field Z :=
  match v with
  | None => (Some default, [])
  | Some (JNum q) =>
      let n := Qnum (Qred q) in
      let on (failed : bool) (m : string) :=
        if failed then [{| path := [key]; message := m |}] else [] in
      (Some n,
       on (negb (is_integer q)) "Expected integer"
       ++ on (negb (Qle_bool (inject_Z lo) q)) "Number too small"
       ++ on (negb (Qle_bool q (inject_Z hi))) "Number too big")%list
  | Some _ => (None, [invalid_type key "number"])
  end.

End Zod.

(* ================================================================= *)
(** * [types/mcp.ts] *)

Module Mcp.
Import Js.

Inductive ToolSafety := safe | dangerous.

Definition ToolSafety_eqb (a b : ToolSafety) : bool :=
  match a, b with
  | safe, safe | dangerous, dangerous => true
  | _, _ => false
  end.

(** What a tool does; [inputSchema] is the schema's [parse]. *)
Record ToolDefinition (T : Type) := {
  name : string;
  description : string;
  intent : string;
  inputSchema : value -> Zod.result T;
  safety : ToolSafety
}.

Record ExecutionContext := {
  dryRun : bool;
  timestamp : Z;
  requestId : string
}.

Record ToolExecutionResult (T : Type) := {
  success : bool;
  data : option T;
  error : option string;
  simulatedAction : option string
}.

(** The file system, as the executors can touch it. *)
Inductive FsEvent :=
| FsRead (path : string)
| FsWrite (path : string) (content : string).

(** The machine the server runs on. *)
Record Host := {
  env_MCP_SANDBOX_DIR : option string;
  cwd : string;
  (** [fs.readFile(path)]: the bytes of the file, or the failure. *)
  readFile : string -> completion string;
  (** [buffer.toString('base64')]. *)
  toBase64 : string -> string;
  (** [buffer.toString('utf-8')]: the text the bytes decode to, in
      which every sequence that is no valid UTF-8 is replaced by
      U+FFFD. *)
  toUtf8 : string -> string;
  os_platform : string;
  os_arch : string;
  (** [os.totalmem()] and [os.freemem()], in bytes. *)
  os_totalmem : Z;
  os_freemem : Z;
  (** [os.uptime()], in seconds, with a fractional part. *)
  os_uptime : Q;
  process_version : string
}.

(** An executor: the awaited result (or what it threw), and the file
    system operations it performed on the way. *)
Definition ToolExecutor (TInput TOutput : Type) : Type :=
  TInput -> ExecutionContext -> Host ->
  completion (ToolExecutionResult TOutput) * list FsEvent.

Record ToolCallRequest := {
  req_tool : string;
  req_inputs : value;
  req_intent : option string
}.

(** [ToolCallRequestSchema.parse]. *)
Definition ToolCallRequestSchema (body : value) : Zod.result ToolCallRequest :=
  match body with
  | JObj fields =>
      let tool := Zod.string_field "tool" (fun _ => []) (lookup "tool" fields) in
      let inputs : Zod.field value :=
        match lookup "inputs" fields with
        | None => (Some (JObj []), [])
        | Some (JObj o) => (Some (JObj o), [])
        | Some _ => (None, [Zod.invalid_type "inputs" "object"])
        end in
      let intent : Zod.field (option string) :=
        match lookup "intent" fields with
        | None => (Some None, [])
        | Some (JStr s) => (Some (Some s), [])
        | Some _ => (None, [Zod.invalid_type "intent" "string"])
        end in
      match tool, inputs, intent with
      | (Some t, []), (Some i, []), (Some n, []) =>
          Zod.Ok {| req_tool := t; req_inputs := i; req_intent := n |}
      | (_, e1), (_, e2), (_, e3) => Zod.ZodError (e1 ++ e2 ++ e3)%list
      end
  | _ => Zod.ZodError [{| Zod.path := []; Zod.message := "Expected object" |}]
  end.

Record ToolCallResponse := {
  resp_tool : string;
  resp_success : bool;
  resp_result : option unknown;
  resp_error : option string;
  resp_dryRun : bool;
  resp_timestamp : Z;
  resp_requestId : string;
  resp_simulatedAction : option string
}.

Inductive AuditResult := audit_success | audit_error.

Record AuditLogEntry := {
  log_timestamp : Z;
  log_requestId : string;
  log_toolName : string;
  log_intent : string;
  log_inputs : unknown;
  log_result : AuditResult;
  log_dryRun : bool;
  log_error : option string;
  log_durationMs : Z
}.

(** A definition paired with its executor. *)
Record RegisteredTool := {
  TInput : Type;
  TOutput : Type;
  definition : ToolDefinition TInput;
  executor : ToolExecutor TInput TOutput
}.

End Mcp.

(* ================================================================= *)
(** * [tools/definitions/system-info.ts], [tools/executors/system-info.ts] *)

Module SystemInfo.
Import Js.

Inductive Category := platform | memory | uptime | nodeVersion.

Record SystemInfoInput := { include : list Category }.

Definition categories : list (string * Category) :=
  [("platform", platform); ("memory", memory); ("uptime", uptime);
   ("nodeVersion", nodeVersion)].

Definition parse_category (v : value) : option Category :=
  match v with
  | JStr s => option_map snd (find (fun o => (fst o =? s)%string) categories)
  | _ => None
  end.

Fixpoint parse_categories (items : list value) : option (list Category) :=
  match items with
  | [] => Some []
  | v :: rest =>
      match parse_category v, parse_categories rest with
      | Some c, Some cs => Some (c :: cs)
      | _, _ => None
      end
  end.

Definition systemInfoInputSchema (v : value) : Zod.result SystemInfoInput :=
  match v with
  | JObj fields =>
      match lookup "include" fields with
      | None => Zod.Ok {| include := [platform; nodeVersion] |}
      | Some (JArr items) =>
          match parse_categories items with
          | Some cs => Zod.Ok {| include := cs |}
          | None =>
              Zod.ZodError
                [{| Zod.path := ["include"]; Zod.message := "Invalid enum value" |}]
          end
      | Some _ => Zod.ZodError [Zod.invalid_type "include" "array"]
      end
  | _ => Zod.ZodError [{| Zod.path := []; Zod.message := "Expected object" |}]
  end.

Definition systemInfoDefinition : Mcp.ToolDefinition SystemInfoInput :=
  {| Mcp.name := "system-info";
     Mcp.description :=
       "Retrieve basic system information such as platform, memory usage, uptime, and Node.js version.";
     Mcp.intent :=
       "Provides read-only system diagnostics for context awareness. Useful for agents that need to understand the runtime environment.";
     Mcp.inputSchema := systemInfoInputSchema;
     Mcp.safety := Mcp.safe |}.

Record MemoryInfo := {
  total : Z;
  free : Z;
  used : Z;
  usedPercent : PrimFloat.float
}.

Record SystemInfoOutput := {
  out_platform : option string;
  out_arch : option string;
  out_memory : option MemoryInfo;
  out_uptime : option Q;
  out_nodeVersion : option string
}.

(** [Math.round((used / total) * 100)], in floating point: the quotient
    and the product are rounded to binary64 before [Math.round] is
    applied.  A [total] of zero gives [NaN] or an infinity. *)
Definition percent (used total : Z) : PrimFloat.float :=
  Math_round
    (PrimFloat.mul (PrimFloat.div (Number_of_Z used) (Number_of_Z total))
       (Number_of_Z 100)).

Definition add_category (host : Mcp.Host) (data : SystemInfoOutput)
  (category : Category) : SystemInfoOutput :=
  match category with
  | platform =>
      {| out_platform := Some (Mcp.os_platform host);
         out_arch := Some (Mcp.os_arch host);
         out_memory := out_memory data;
         out_uptime := out_uptime data;
         out_nodeVersion := out_nodeVersion data |}
  | memory =>
      let total := Mcp.os_totalmem host in
      let free := Mcp.os_freemem host in
      let used := total - free in
      {| out_platform := out_platform data;
         out_arch := out_arch data;
         out_memory :=
           Some {| total := total; free := free; used := used;
                   usedPercent := percent used total |};
         out_uptime := out_uptime data;
         out_nodeVersion := out_nodeVersion data |}
  | uptime =>
      {| out_platform := out_platform data;
         out_arch := out_arch data;
         out_memory := out_memory data;
         out_uptime := Some (Mcp.os_uptime host);
         out_nodeVersion := out_nodeVersion data |}
  | nodeVersion =>
      {| out_platform := out_platform data;
         out_arch := out_arch data;
         out_memory := out_memory data;
         out_uptime := out_uptime data;
         out_nodeVersion := Some (Mcp.process_version host) |}
  end.

Definition systemInfoExecutor : Mcp.ToolExecutor SystemInfoInput SystemInfoOutput :=
  fun input context host =>
    let data :=
      fold_left (add_category host) (include input)
        {| out_platform := None; out_arch := None; out_memory := None;
           out_uptime := None; out_nodeVersion := None |} in
    (Returned
       {| Mcp.success := true;
          Mcp.data := Some data;
          Mcp.error := None;
          Mcp.simulatedAction := None |},
     []).

End SystemInfo.

(* ================================================================= *)
(** * [tools/definitions/file-read.ts], [tools/executors/file-read.ts] *)

Module FileRead.
Import Js.

Inductive Encoding := utf8 | base64.

Record FileReadInput := {
  path : string;
  maxBytes : Z;
  encoding : Encoding
}.

(** The checks on [path]: [.min(1, ...)] and [.refine(...)]. *)
Definition path_checks (p : string) : list string :=
  (Zod.min 1 "Path cannot be empty" p
   ++ Zod.refine (fun p => negb (Str.includes p "..")) "Path traversal not allowed" p)%list.

Definition fileReadInputSchema (v : value) : Zod.result FileReadInput :=
  match v with
  | JObj fields =>
      let path := Zod.string_field "path" path_checks (lookup "path" fields) in
      let maxBytes :=
        Zod.int_field "maxBytes" 1 1000000 10000 (lookup "maxBytes" fields) in
      let encoding :=
        Zod.enum_field "encoding" [("utf-8", utf8); ("base64", base64)] utf8
          (lookup "encoding" fields) in
      match path, maxBytes, encoding with
      | (Some p, []), (Some m, []), (Some e, []) =>
          Zod.Ok {| path := p; maxBytes := m; encoding := e |}
      | (_, e1), (_, e2), (_, e3) => Zod.ZodError (e1 ++ e2 ++ e3)%list
      end
  | _ => Zod.ZodError [{| Zod.path := []; Zod.message := "Expected object" |}]
  end.

Definition fileReadDefinition : Mcp.ToolDefinition FileReadInput :=
  {| Mcp.name := "file-read";
     Mcp.description := "Read the contents of a file from a sandboxed directory.";
     Mcp.intent :=
       "Enables agents to access configuration files, logs, or data files within a restricted area. Path traversal is blocked to prevent unauthorized access.";
     Mcp.inputSchema := fileReadInputSchema;
     Mcp.safety := Mcp.safe |}.

(** [process.env.MCP_SANDBOX_DIR || '/tmp/mcp-sandbox']. *)
Definition SANDBOX_DIR (host : Mcp.Host) : string :=
  or_else (Mcp.env_MCP_SANDBOX_DIR host) "/tmp/mcp-sandbox".

Record FileReadOutput := {
  out_path : string;
  out_content : string;
  out_size : Z;
  out_encoding : Encoding
}.

Definition failure (T : Type) (message : string) : Mcp.ToolExecutionResult T :=
  {| Mcp.success := false;
     Mcp.data := None;
     Mcp.error := Some message;
     Mcp.simulatedAction := None |}.

Definition fileReadExecutor : Mcp.ToolExecutor FileReadInput FileReadOutput :=
  fun input context host =>
    let normalizedPath := Path.normalize (path input) in
    let fullPath :=
      Path.resolve (Mcp.cwd host) (Path.join (SANDBOX_DIR host) normalizedPath) in
    if negb (Str.startsWith fullPath (Path.resolve (Mcp.cwd host) (SANDBOX_DIR host)))
    then (Returned (failure _ "Path escapes sandbox directory"), [])
    else
      match Mcp.readFile host fullPath with
      | Returned buffer =>
          let size := Z.of_nat (String.length buffer) in
          if size >? maxBytes input then
            (Returned
               (failure _
                  ("File size (" ++ Str.of_Z size ++ " bytes) exceeds limit ("
                   ++ Str.of_Z (maxBytes input) ++ " bytes)")),
             [Mcp.FsRead fullPath])
          else
            let content :=
              match encoding input with
              | base64 => Mcp.toBase64 host buffer
              | utf8 => Mcp.toUtf8 host buffer
              end in
            (Returned
               {| Mcp.success := true;
                  Mcp.data :=
                    Some {| out_path := normalizedPath;
                            out_content := content;
                            out_size := size;
                            out_encoding := encoding input |};
                  Mcp.error := None;
                  Mcp.simulatedAction := None |},
             [Mcp.FsRead fullPath])
      | Threw err =>
          (Returned (failure _ ("Failed to read file: " ++ message_of err)),
           [Mcp.FsRead fullPath])
      end.

End FileRead.

(* ================================================================= *)
(** * [tools/definitions/file-write.ts], [tools/executors/file-write.ts] *)

Module FileWrite.
Import Js.

Inductive Mode := overwrite | append.

Definition Mode_text (m : Mode) : string :=
  match m with overwrite => "overwrite" | append => "append" end.

Record FileWriteInput := {
  path : string;
  content : string;
  mode : Mode;
  createDirs : bool
}.

Definition path_checks (p : string) : list string :=
  (Zod.min 1 "Path cannot be empty" p
   ++ Zod.refine (fun p => negb (Str.includes p "..")) "Path traversal not allowed" p)%list.

Definition content_checks (c : string) : list string :=
  Zod.max 100000 "Content too large (max 100KB)" c.

Definition fileWriteInputSchema (v : value) : Zod.result FileWriteInput :=
  match v with
  | JObj fields =>
      let path := Zod.string_field "path" path_checks (lookup "path" fields) in
      let content :=
        Zod.string_field "content" content_checks (lookup "content" fields) in
      let mode :=
        Zod.enum_field "mode" [("overwrite", overwrite); ("append", append)]
          overwrite (lookup "mode" fields) in
      let createDirs :=
        Zod.boolean_field "createDirs" false (lookup "createDirs" fields) in
      match path, content, mode, createDirs with
      | (Some p, []), (Some c, []), (Some m, []), (Some d, []) =>
          Zod.Ok {| path := p; content := c; mode := m; createDirs := d |}
      | (_, e1), (_, e2), (_, e3), (_, e4) =>
          Zod.ZodError (e1 ++ e2 ++ e3 ++ e4)%list
      end
  | _ => Zod.ZodError [{| Zod.path := []; Zod.message := "Expected object" |}]
  end.

Definition fileWriteDefinition : Mcp.ToolDefinition FileWriteInput :=
  {| Mcp.name := "file-write";
     Mcp.description :=
       "Write content to a file in a sandboxed directory. DANGEROUS: Runs in dry-run mode only.";
     Mcp.intent :=
       "Allows agents to persist data, create configurations, or generate output files. Marked as dangerous due to filesystem mutation - all executions simulate the write without actually performing it.";
     Mcp.inputSchema := fileWriteInputSchema;
     Mcp.safety := Mcp.dangerous |}.

Definition SANDBOX_DIR (host : Mcp.Host) : string :=
  or_else (Mcp.env_MCP_SANDBOX_DIR host) "/tmp/mcp-sandbox".

Record FileWriteOutput := {
  out_path : string;
  out_bytesWritten : Z;
  out_mode : Mode
}.

(** [Buffer.byteLength(content, 'utf-8')]: the number of bytes of the
    string's UTF-8 encoding.  It exceeds the string's [length] when the
    content has characters outside ASCII. *)
Definition byteLength (content : string) : Z := Z.of_nat (String.length content).

Definition fileWriteExecutor : Mcp.ToolExecutor FileWriteInput FileWriteOutput :=
  fun input context host =>
    let normalizedPath := Path.normalize (path input) in
    let fullPath :=
      Path.resolve (Mcp.cwd host) (Path.join (SANDBOX_DIR host) normalizedPath) in
    if negb (Str.startsWith fullPath (Path.resolve (Mcp.cwd host) (SANDBOX_DIR host)))
    then
      (Returned
         {| Mcp.success := false;
            Mcp.data := None;
            Mcp.error := Some "Path escapes sandbox directory";
            Mcp.simulatedAction := None |},
       [])
    else if Mcp.dryRun context then
      (Returned
         {| Mcp.success := true;
            Mcp.data :=
              Some {| out_path := normalizedPath;
                      out_bytesWritten := byteLength (content input);
                      out_mode := mode input |};
            Mcp.error := None;
            Mcp.simulatedAction :=
              Some ("Would " ++ Mode_text (mode input) ++ " "
                    ++ Str.of_Z (byteLength (content input)) ++ " bytes to "
                    ++ fullPath
                    ++ (if createDirs input then " (creating parent directories)"
                        else "")) |},
       [])
    else
      (Returned
         {| Mcp.success := false;
            Mcp.data := None;
            Mcp.error :=
              Some "Write operations are disabled. This tool runs in dry-run mode only.";
            Mcp.simulatedAction := None |},
       []).

End FileWrite.

(* ================================================================= *)
(** * [tools/index.ts]: the tool registry *)

Module Tools.
Import Js.

(** [Map<string, RegisteredTool>], in insertion order. *)
Definition ToolRegistry : Type := list (string * Mcp.RegisteredTool).

Fixpoint get (name : string) (tools : ToolRegistry) : option Mcp.RegisteredTool :=
  match tools with
  | [] => None
  | (k, t) :: rest => if (k =? name)%string then Some t else get name rest
  end.

Definition has (name : string) (tools : ToolRegistry) : bool :=
  match get name tools with Some _ => true | None => false end.

(** [register] throws on a name that is taken, and adds the pair otherwise. *)
Definition register (TInput TOutput : Type)
  (definition : Mcp.ToolDefinition TInput)
  (executor : Mcp.ToolExecutor TInput TOutput)
  (tools : ToolRegistry) : completion ToolRegistry :=
  if has (Mcp.name definition) tools
  then Threw (ErrorObject ("Tool already registered: " ++ Mcp.name definition))
  else Returned
         (tools ++ [(Mcp.name definition,
                     {| Mcp.definition := definition;
                        Mcp.executor := executor |})])%list.

Definition listDefinitions (tools : ToolRegistry)
  : list {T : Type & Mcp.ToolDefinition T} :=
  map (fun kt => existT _ (Mcp.TInput (snd kt)) (Mcp.definition (snd kt))) tools.

(** The module's registrations, in order. *)
Definition registrations : completion ToolRegistry :=
  match register SystemInfo.systemInfoDefinition SystemInfo.systemInfoExecutor [] with
  | Returned r1 =>
      match register FileRead.fileReadDefinition FileRead.fileReadExecutor r1 with
      | Returned r2 =>
          register FileWrite.fileWriteDefinition FileWrite.fileWriteExecutor r2
      | Threw e => Threw e
      end
  | Threw e => Threw e
  end.

(** The populated registry the server imports. *)
Definition toolRegistry : ToolRegistry :=
  match registrations with
  | Returned r => r
  | Threw _ => []
  end.

End Tools.

(* ================================================================= *)
(** * [middleware/audit-logger.ts] *)

Module AuditLogger.

(** [Omit<AuditLogEntry, 'result' | 'durationMs' | 'error'>]. *)
Record AuditBase := {
  timestamp : Z;
  requestId : string;
  toolName : string;
  intent : string;
  inputs : Js.unknown;
  dryRun : bool
}.

(** [now] is the reading of [new Date()]. *)
Definition createAuditEntry (now : Z) (requestId toolName intent : string)
  (inputs : Js.unknown) (dryRun : bool) : AuditBase :=
  {| timestamp := now;
     requestId := requestId;
     toolName := toolName;
     intent := intent;
     inputs := inputs;
     dryRun := dryRun |}.

(** [{ ...auditBase, result, durationMs, error }]. *)
Definition entry (base : AuditBase) (result : Mcp.AuditResult)
  (durationMs : Z) (error : option string) : Mcp.AuditLogEntry :=
  {| Mcp.log_timestamp := timestamp base;
     Mcp.log_requestId := requestId base;
     Mcp.log_toolName := toolName base;
     Mcp.log_intent := intent base;
     Mcp.log_inputs := inputs base;
     Mcp.log_result := result;
     Mcp.log_dryRun := dryRun base;
     Mcp.log_error := error;
     Mcp.log_durationMs := durationMs |}.

(** The audit sink: the entries logged so far, oldest first. *)
Definition Sink : Type := list Mcp.AuditLogEntry.

Definition logToolCall (e : Mcp.AuditLogEntry) (sink : Sink) : Sink :=
  (sink ++ [e])%list.

End AuditLogger.

(* ================================================================= *)
(** * [server.ts]: the [POST /mcp/call] handler *)

Module Server.
Import Js.

Record Request := {
  id : string;
  body : value
}.

(** The readings the handler takes from the outside: a fresh UUID and
    the clock at its four reading points. *)
Record Readings := {
  randomUUID : string;
  startTime : Z;
  contextTime : Z;
  auditTime : Z;
  endTime : Z
}.

Inductive ResponseBody : Type :=
| InvalidRequest (details : list Zod.issue)
| ToolNotFound (error : string)
| InvalidToolInputs (tool : string) (details : list Zod.issue)
| CallResponse (response : Mcp.ToolCallResponse).

(** What one request leaves behind: the reply, the audit sink, the file
    system operations performed, and the execution context that was
    built (if the handler got that far). *)
Record Outcome := {
  status : Z;
  reply : ResponseBody;
  sink : AuditLogger.Sink;
  fsEvents : list Mcp.FsEvent;
  context : option Mcp.ExecutionContext
}.

Definition call (registry : Tools.ToolRegistry) (host : Mcp.Host)
  (readings : Readings) (sink0 : AuditLogger.Sink) (request : Request)
  : Outcome :=
  let requestId := or_else (Some (id request)) (randomUUID readings) in
  let startTime := startTime readings in
  match Mcp.ToolCallRequestSchema (body request) with
  | Zod.ZodError errors =>
      {| status := 400; reply := InvalidRequest errors;
         sink := sink0; fsEvents := []; context := None |}
  | Zod.Ok parsedRequest =>
      let toolName := Mcp.req_tool parsedRequest in
      let inputs := Mcp.req_inputs parsedRequest in
      let intent := Mcp.req_intent parsedRequest in
      match Tools.get toolName registry with
      | None =>
          {| status := 404;
             reply := ToolNotFound ("Tool not found: " ++ toolName);
             sink := sink0; fsEvents := []; context := None |}
      | Some tool =>
          match Mcp.inputSchema (Mcp.definition tool) inputs with
          | Zod.ZodError errors =>
              {| status := 400;
                 reply := InvalidToolInputs toolName errors;
                 sink := sink0; fsEvents := []; context := None |}
          | Zod.Ok validatedInputs =>
              let dryRun :=
                Mcp.ToolSafety_eqb (Mcp.safety (Mcp.definition tool)) Mcp.dangerous in
              let context :=
                {| Mcp.dryRun := dryRun;
                   Mcp.timestamp := contextTime readings;
                   Mcp.requestId := requestId |} in
              let auditBase :=
                AuditLogger.createAuditEntry (auditTime readings) requestId toolName
                  (or_else intent (Mcp.intent (Mcp.definition tool)))
                  (as_unknown validatedInputs) dryRun in
              match Mcp.executor tool validatedInputs context host with
              | (Returned result, events) =>
                  let durationMs := endTime readings - startTime in
                  let auditEntry :=
                    AuditLogger.entry auditBase
                      (if Mcp.success result then Mcp.audit_success
                       else Mcp.audit_error)
                      durationMs (Mcp.error result) in
                  let response :=
                    {| Mcp.resp_tool := toolName;
                       Mcp.resp_success := Mcp.success result;
                       Mcp.resp_result := option_map as_unknown (Mcp.data result);
                       Mcp.resp_error := Mcp.error result;
                       Mcp.resp_dryRun := dryRun;
                       Mcp.resp_timestamp := Mcp.timestamp context;
                       Mcp.resp_requestId := requestId;
                       Mcp.resp_simulatedAction :=
                         if truthy (Mcp.simulatedAction result)
                         then Mcp.simulatedAction result else None |} in
                  {| status := if Mcp.success result then 200 else 422;
                     reply := CallResponse response;
                     sink := AuditLogger.logToolCall auditEntry sink0;
                     fsEvents := events;
                     context := Some context |}
              | (Threw err, events) =>
                  let durationMs := endTime readings - startTime in
                  let errorMessage := message_of err in
                  let auditEntry :=
                    AuditLogger.entry auditBase Mcp.audit_error durationMs
                      (Some errorMessage) in
                  {| status := 500;
                     reply :=
                       CallResponse
                         {| Mcp.resp_tool := toolName;
                            Mcp.resp_success := false;
                            Mcp.resp_result := None;
                            Mcp.resp_error := Some errorMessage;
                            Mcp.resp_dryRun := dryRun;
                            Mcp.resp_timestamp := Mcp.timestamp context;
                            Mcp.resp_requestId := requestId;
                            Mcp.resp_simulatedAction := None |};
                     sink := AuditLogger.logToolCall auditEntry sink0;
                     fsEvents := events;
                     context := Some context |}
              end
          end
      end
  end.

(** The context the handler builds for a matched tool. *)
Definition built_context (readings : Readings) (request : Request)
  (tool : Mcp.RegisteredTool) : Mcp.ExecutionContext :=
  {| Mcp.dryRun :=
       Mcp.ToolSafety_eqb (Mcp.safety (Mcp.definition tool)) Mcp.dangerous;
     Mcp.timestamp := contextTime readings;
     Mcp.requestId := or_else (Some (id request)) (randomUUID readings) |}.

End Server.

(* ================================================================= *)
(** * The agent process and what lies outside it

    The agents talk to two things outside the repository: the language
    model behind LangChain's [AgentExecutor], and the MCP server behind
    [fetch].  Both are arbitrary here: they answer as functions of
    everything that happened before. *)

Module Outside.
Import Js.

(** [mcp/types.ts]. *)
Record MCPToolCallRequest := {
  tool : string;
  inputs : value;
  intent : option string
}.

Record MCPToolCallResponse := {
  resp_tool : string;
  success : bool;
  result : option value;
  error : option string;
  dryRun : bool;
  timestamp : string;
  requestId : string;
  simulatedAction : option string
}.

(** What the language model answers when asked for its next step: the
    final output, or the tools to call with their inputs (the tools
    agent takes several calls from one answer), or a failure. *)
Inductive ModelStep :=
| Finish (output : string)
| UseTools (calls : list (string * value))
| ModelFailure (e : thrown).

(** An answer that asks for one tool. *)
Definition UseTool (name : string) (toolInput : value) : ModelStep :=
  UseTools [(name, toolInput)].

(** One completed [ConstrainedAgent.run]: the agent, its input, and how
    the run ended (the output text, or what was thrown). *)
Record Run := {
  run_agent : string;
  run_input : string;
  run_end : completion string
}.

(** The history of the process: the requests posted to [/mcp/call], the
    agent runs completed, and how often the model and the clock were
    consulted. *)
Record State := {
  posted : list MCPToolCallRequest;
  runs : list Run;
  modelQueries : nat;
  clockReadings : nat
}.

Definition initial : State :=
  {| posted := []; runs := []; modelQueries := 0; clockReadings := 0 |}.

Record World := {
  (** [GET /health] answers with an ok status. *)
  health : State -> bool;
  (** The parsed answer to [POST /mcp/call], or the failure of [fetch]. *)
  post_call : State -> MCPToolCallRequest -> completion MCPToolCallResponse;
  (** The model's next step, given the system prompt, the input and the
      observations made so far. *)
  model : State -> string -> string -> list string -> ModelStep;
  (** Whether constructing the LangChain objects of an agent throws. *)
  construct : State -> option thrown;
  (** What the agent executor makes of an exception thrown by the
      function of a tool: the observation it hands to the model
      instead, or the exception the run ends with. *)
  tool_error : thrown -> completion string;
  (** [JSON.stringify(x, null, 2)]. *)
  stringify : option value -> string;
  (** [Date.now()]. *)
  now : State -> Z
}.

(** Asynchronous code of the agent process. *)
Definition M (A : Type) : Type := State -> completion A * State.

Definition ret {A : Type} (a : A) : M A := fun st => (Returned a, st).

Definition throw {A : Type} (e : thrown) : M A := fun st => (Threw e, st).

Definition bind {A B : Type} (m : M A) (k : A -> M B) : M B :=
  fun st =>
    match m st with
    | (Returned a, st') => k a st'
    | (Threw e, st') => (Threw e, st')
    end.

(** [try { m } catch (error) { handler(error) }]. *)
Definition try_catch {A : Type} (m : M A) (handler : thrown -> M A) : M A :=
  fun st =>
    match m st with
    | (Returned a, st') => (Returned a, st')
    | (Threw e, st') => handler e st'
    end.

Definition Date_now (w : World) : M Z :=
  fun st =>
    (Returned (now w st),
     {| posted := posted st; runs := runs st;
        modelQueries := modelQueries st;
        clockReadings := S (clockReadings st) |}).

Definition ask_model (w : World) (prompt input : string)
  (observations : list string) : M ModelStep :=
  fun st =>
    (Returned (model w st prompt input observations),
     {| posted := posted st; runs := runs st;
        modelQueries := S (modelQueries st);
        clockReadings := clockReadings st |}).

Definition record_run (r : Run) : M unit :=
  fun st =>
    (Returned tt,
     {| posted := posted st; runs := (runs st ++ [r])%list;
        modelQueries := modelQueries st;
        clockReadings := clockReadings st |}).

End Outside.

Declare Scope agent_scope.
Delimit Scope agent_scope with agent.
Notation "x <- m ;; k" := (Outside.bind m (fun x => k))
  (at level 61, m at next level, right associativity) : agent_scope.
Notation "' p <- m ;; k" := (Outside.bind m (fun x => let 'p := x in k))
  (at level 61, p strict pattern, m at next level, right associativity)
  : agent_scope.

(* ================================================================= *)
(** * [mcp/client.ts] *)

Module Client.
Import Js Outside.

Record MCPClient := {
  baseUrl : string;
  timeoutMs : Z
}.

(** [healthCheck]: a failing [fetch] counts as unhealthy. *)
Definition healthCheck (w : World) (client : MCPClient) : M bool :=
  fun st => (Returned (health w st), st).

(** [callTool]: the request is posted, the parsed body is returned. *)
Definition callTool (w : World) (client : MCPClient)
  (toolName : string) (inputs : value) (intent : option string)
  : M MCPToolCallResponse :=
  fun st =>
    let request := {| tool := toolName; inputs := inputs; intent := intent |} in
    (post_call w st request,
     {| posted := (posted st ++ [request])%list; runs := runs st;
        modelQueries := modelQueries st;
        clockReadings := clockReadings st |}).

End Client.

(* ================================================================= *)
(** * [agents/base.ts] *)

Module Base.
Import Js Outside Client.
Local Open Scope agent_scope.

Record AgentConfig := {
  cfg_name : string;
  cfg_allowedTools : list string;
  cfg_systemPrompt : string;
  cfg_mcpClient : MCPClient
}.

Record ToolCallRecord := {
  tc_tool : string;
  tc_inputs : value;
  tc_response : MCPToolCallResponse
}.

Record AgentRunResult := {
  output : string;
  toolCalls : list ToolCallRecord
}.

(** LangChain's [DynamicStructuredTool], as far as the agent loop uses
    it: a name to be called by, the schema its input is parsed with
    ([None] when the input does not match), and the function that is
    given the parsed input. *)
Record DynamicStructuredTool := {
  tool_name : string;
  tool_description : string;
  schema : value -> option value;
  func : value -> M string
}.

(** [z.string()] as the type of a key: the key must hold a string. *)
Definition string_key (key : string) (fields : list (string * value))
  : option (list (string * value)) :=
  match lookup key fields with
  | Some (JStr s) => Some [(key, JStr s)]
  | _ => None
  end.

(** [z.enum(['platform', 'memory', 'uptime', 'cpus'])]. *)
Definition is_category (v : value) : bool :=
  match v with
  | JStr s =>
      existsb (fun c => (c =? s)%string) ["platform"; "memory"; "uptime"; "cpus"]
  | _ => false
  end.

(** [toolSchemas[toolName] ?? z.object({})], as [parse] functions: the
    input must be an object, the keys of the shape must have their
    types, and all other keys are dropped. *)
Definition toolSchemas (toolName : string) (v : value) : option value :=
  match v with
  | JObj fields =>
      if (toolName =? "system-info")%string then
        match lookup "include" fields with
        | None => Some (JObj [])
        | Some (JArr items) =>
            if forallb is_category items
            then Some (JObj [("include", JArr items)])
            else None
        | Some _ => None
        end
      else if (toolName =? "file-read")%string then
        option_map JObj (string_key "path" fields)
      else if (toolName =? "file-write")%string then
        match string_key "path" fields, string_key "content" fields with
        | Some p, Some c => Some (JObj (p ++ c)%list)
        | _, _ => None
        end
      else Some (JObj [])
  | _ => None
  end.

Definition toolDescriptions : list (string * string) :=
  [("system-info",
    "Get system information like platform, memory usage, uptime, and CPU details");
   ("file-read", "Read the contents of a file from the sandboxed directory");
   ("file-write",
    "Write content to a file in the sandboxed directory (runs in dry-run mode)")].

Definition describe (toolName : string) : string :=
  match find (fun d => (fst d =? toolName)%string) toolDescriptions with
  | Some d => snd d
  | None => "Call the " ++ toolName ++ " MCP tool"
  end.

Definition quote : string := String (ascii_of_nat 34) "".
Definition newline : string := String (ascii_of_nat 10) "".

(** [`${x}`] for an optional string. *)
Definition interpolate (x : option string) : string :=
  match x with Some s => s | None => "undefined" end.

Definition createMCPToolWrapper (w : World) (mcpClient : MCPClient)
  (toolName agentName : string) : DynamicStructuredTool :=
  {| tool_name := Str.replace_char "-" "_" toolName;
     tool_description := describe toolName;
     schema := toolSchemas toolName;
     func := fun inputs =>
       let intent :=
         "Agent " ++ quote ++ agentName ++ quote ++ " calling " ++ toolName in
       response <- callTool w mcpClient toolName inputs (Some intent) ;;
       if negb (success response) then
         ret ("Error: " ++ interpolate (error response))
       else
         let result := stringify w (result response) in
         ret (if dryRun response && truthy (simulatedAction response)
              then result ++ newline ++ newline
                   ++ "[DRY-RUN] Simulated action: "
                   ++ interpolate (simulatedAction response)
              else result) |}.

Definition createMCPToolWrappers (w : World) (mcpClient : MCPClient)
  (allowedTools : list string) (agentName : string)
  : list DynamicStructuredTool :=
  map (fun toolName => createMCPToolWrapper w mcpClient toolName agentName)
    allowedTools.

(** LangChain's [AgentExecutor]: the model is asked for its next step
    until it finishes; the tools it names are called, and the
    observations are fed back. *)
Record AgentExecutor := {
  tools : list DynamicStructuredTool;
  systemPrompt : string;
  maxIterations : nat
}.

(** The executor's table of tools, keyed by the lowercased name: names
    are compared without regard to case, and of two tools with the same
    key the later one is found. *)
Definition toolsByName (tools : list DynamicStructuredTool) (name : string)
  : option DynamicStructuredTool :=
  find (fun t => (Str.toLowerCase (tool_name t) =? Str.toLowerCase name)%string)
    (rev tools).

(** How the call of one tool ends. *)
Inductive Outcome :=
| Observed (observation : string)
| Mismatch
| Failed (e : thrown).

(** One call of a step.  A name the table does not hold is answered
    with an observation.  The input is parsed with the tool's schema;
    an input that does not match is an error, and the function is not
    run.  Otherwise the function is run on the parsed input. *)
Definition act (w : World) (tools : list DynamicStructuredTool)
  (call : string * value) : State -> Outcome * State :=
  fun st =>
    match toolsByName tools (fst call) with
    | None =>
        (Observed (fst call ++ " is not a valid tool, try another one."), st)
    | Some t =>
        match schema t (snd call) with
        | None => (Mismatch, st)
        | Some parsed =>
            match func t parsed st with
            | (Returned observation, st') => (Observed observation, st')
            | (Threw e, st') =>
                (match tool_error w e with
                 | Returned observation => Observed observation
                 | Threw e' => Failed e'
                 end, st')
            end
        end
    end.

(** The calls of a step are all started, in order ([Promise.all] over
    the calls): a call that fails does not stop the others. *)
Fixpoint act_all (w : World) (tools : list DynamicStructuredTool)
  (calls : list (string * value)) : State -> list Outcome * State :=
  fun st =>
    match calls with
    | [] => ([], st)
    | call :: rest =>
        let '(outcome, st1) := act w tools call st in
        let '(outcomes, st2) := act_all w tools rest st1 in
        (outcome :: outcomes, st2)
    end.

Definition mismatch : thrown :=
  ErrorObject "Received tool input did not match expected schema".

Definition is_mismatch (o : Outcome) : bool :=
  match o with Mismatch => true | _ => false end.

Definition is_failed (o : Outcome) : option thrown :=
  match o with Failed e => Some e | _ => None end.

Definition observation_of (o : Outcome) : string :=
  match o with Observed text => text | _ => "" end.

(** The step fails when one of its calls does: with the schema error,
    which is raised before any answer of the gateway arrives, or else
    with the first exception of a tool that the executor lets through.
    Otherwise it yields the observations, in the order of the calls. *)
Definition settle (outcomes : list Outcome) : completion (list string) :=
  if existsb is_mismatch outcomes then Threw mismatch
  else
    match List.flat_map (fun o => match is_failed o with
                                  | Some e => [e]
                                  | None => []
                                  end) outcomes with
    | e :: _ => Threw e
    | [] => Returned (map observation_of outcomes)
    end.

Fixpoint iterate (w : World) (tools : list DynamicStructuredTool)
  (prompt input : string) (fuel : nat) (observations : list string)
  : M string :=
  match fuel with
  | O => ret "Agent stopped due to max iterations."
  | S fuel' =>
      step <- ask_model w prompt input observations ;;
      match step with
      | Finish out => ret out
      | ModelFailure e => throw e
      | UseTools calls =>
          fun st =>
            let '(outcomes, st') := act_all w tools calls st in
            match settle outcomes with
            | Returned new =>
                iterate w tools prompt input fuel' (observations ++ new)%list st'
            | Threw e => (Threw e, st')
            end
      end
  end.

Definition invoke (w : World) (e : AgentExecutor) (input : string) : M string :=
  iterate w (tools e) (systemPrompt e) input (maxIterations e) [].

Record ConstrainedAgent := {
  name : string;
  allowedTools : list string;
  executor : AgentExecutor;
  mcpClient : MCPClient;
  toolCallLog : list ToolCallRecord
}.

(** [ConstrainedAgent.create]. *)
Definition create (w : World) (config : AgentConfig) : M ConstrainedAgent :=
  let tools :=
    createMCPToolWrappers w (cfg_mcpClient config) (cfg_allowedTools config)
      (cfg_name config) in
  fun st =>
    match construct w st with
    | Some e => (Threw e, st)
    | None =>
        (Returned
           {| name := cfg_name config;
              allowedTools := cfg_allowedTools config;
              executor :=
                {| tools := tools;
                   systemPrompt := cfg_systemPrompt config;
                   maxIterations := 15 |};
              mcpClient := cfg_mcpClient config;
              toolCallLog := [] |},
         st)
    end.

(** [ConstrainedAgent.run]; the completed run is entered in the history. *)
Definition run (w : World) (agent : ConstrainedAgent) (input : string)
  : M AgentRunResult :=
  fun st =>
    let toolCallLog : list ToolCallRecord := [] in
    match invoke w (executor agent) input st with
    | (Returned out, st') =>
        bind
          (record_run
             {| run_agent := name agent; run_input := input;
                run_end := Returned out |})
          (fun _ => ret {| output := out; toolCalls := toolCallLog |}) st'
    | (Threw e, st') =>
        bind
          (record_run
             {| run_agent := name agent; run_input := input; run_end := Threw e |})
          (fun _ => throw e) st'
    end.

(** [ConstrainedAgent.canUseTool]: membership in the [Set]. *)
Definition canUseTool (agent : ConstrainedAgent) (toolName : string) : bool :=
  existsb (fun t => (t =? toolName)%string) (allowedTools agent).

End Base.

(* ================================================================= *)
(** * [agents/systemInspector], [agents/fileAnalyst], [agents/changeProposer] *)

Module Agents.
Import Outside Client Base.

Definition SYSTEM_INSPECTOR_PROMPT : string :=
  "You are the System Inspector Agent.

Your role is to gather and analyze system information for diagnostic purposes.

## Capabilities
- You can retrieve system information including platform, memory, uptime, and CPU details.
- You provide clear, concise summaries of system state.

## Constraints
- You ONLY have access to the system-info tool.
- You are READ-ONLY - you cannot modify anything.
- You must always explain what information you're gathering and why.

## Behavior
1. When asked about system health, gather relevant metrics.
2. Present information in a structured, easy-to-understand format.
3. Highlight any concerning values (e.g., high memory usage).
4. If you cannot answer a question with your available tools, say so clearly.

## Output Format
Provide your findings in a clear, structured format with:
- Summary of overall system state
- Key metrics
- Any recommendations or concerns".

Definition FILE_ANALYST_PROMPT : string :=
  "You are the File Analyst Agent.

Your role is to read, analyze, and summarize file contents.

## Capabilities
- You can read files from a sandboxed directory.
- You provide analysis, summaries, and insights about file contents.

## Constraints
- You ONLY have access to the file-read tool.
- You are READ-ONLY - you cannot write or modify files.
- You can only access files within the sandbox directory.
- You must always explain what file you're reading and why.

## Behavior
1. When asked to analyze a file, read its contents first.
2. Provide clear summaries of file contents.
3. Identify patterns, issues, or notable elements in the content.
4. If a file cannot be read, explain the error clearly.

## Output Format
Provide your analysis in a structured format with:
- File overview (type, purpose)
- Key findings
- Detailed analysis (if requested)
- Any issues or recommendations".

Definition CHANGE_PROPOSER_PROMPT : string :=
  "You are the Change Proposer Agent.

Your role is to propose file changes WITHOUT actually executing them.

## Capabilities
- You can propose file writes to a sandboxed directory.
- All writes run in DRY-RUN mode - they show what WOULD happen but don't execute.
- You provide clear change proposals with rationale.

## Constraints
- You ONLY have access to the file-write tool.
- ALL writes are DRY-RUN ONLY - they are proposals, not real changes.
- You can only propose changes to files within the sandbox directory.
- You must always explain what change you're proposing and why.

## Behavior
1. When asked to make a change, formulate a clear proposal first.
2. Use the file-write tool to simulate the change.
3. Present the simulated action to the user for review.
4. Never claim that a change has been made - it's always a proposal.

## CRITICAL SAFETY RULES
- You are NOT executing real changes.
- Always be clear that your output is a PROPOSAL.
- The actual change requires human approval and separate execution.

## Output Format
Provide your proposals in a structured format with:
- Proposed change summary
- File path and content
- Rationale for the change
- Simulated result from dry-run
- Next steps for the user to approve/execute".

Definition createSystemInspectorAgent (w : World) (mcpClient : MCPClient)
  : M ConstrainedAgent :=
  create w
    {| cfg_name := "SystemInspector";
       cfg_allowedTools := ["system-info"];
       cfg_systemPrompt := SYSTEM_INSPECTOR_PROMPT;
       cfg_mcpClient := mcpClient |}.

Definition createFileAnalystAgent (w : World) (mcpClient : MCPClient)
  : M ConstrainedAgent :=
  create w
    {| cfg_name := "FileAnalyst";
       cfg_allowedTools := ["file-read"];
       cfg_systemPrompt := FILE_ANALYST_PROMPT;
       cfg_mcpClient := mcpClient |}.

Definition createChangeProposerAgent (w : World) (mcpClient : MCPClient)
  : M ConstrainedAgent :=
  create w
    {| cfg_name := "ChangeProposer";
       cfg_allowedTools := ["file-write"];
       cfg_systemPrompt := CHANGE_PROPOSER_PROMPT;
       cfg_mcpClient := mcpClient |}.

End Agents.

(* ================================================================= *)
(** * [orchestration/orchestrator.ts] *)

Module Orchestrator.
Import Js Outside Client Base Agents.
Local Open Scope agent_scope.

Inductive TaskType :=
| system_diagnostic
| file_analysis
| change_proposal
| composite.

Definition TaskType_text (t : TaskType) : string :=
  match t with
  | system_diagnostic => "system-diagnostic"
  | file_analysis => "file-analysis"
  | change_proposal => "change-proposal"
  | composite => "composite"
  end.

Record OrchestratorInput := {
  task : string;
  taskType : option TaskType;
  context : option string
}.

Record AgentExecutionResult := {
  agentName : string;
  agent_output : string;
  agent_toolCalls : list ToolCallRecord;
  durationMs : Z
}.

Record OrchestratorResult := {
  success : bool;
  result_taskType : TaskType;
  agentResults : list AgentExecutionResult;
  finalOutput : string;
  totalDurationMs : Z;
  error : option string
}.

(** ** The regular expressions of the classifier *)

(** [\w]. *)
Definition isWordChar (c : ascii) : bool :=
  let n := nat_of_ascii c in
  ((48 <=? n) && (n <=? 57) || (65 <=? n) && (n <=? 90)
   || (n =? 95) || (97 <=? n) && (n <=? 122))%nat.

Definition isWord (c : option ascii) : bool :=
  match c with Some c => isWordChar c | None => false end.

(** [\b] between the character [before] and the character [after]. *)
Definition boundary (before after : option ascii) : bool :=
  xorb (isWord before) (isWord after).

(** [\b(word)\b] matches at the front of [s], which [before] precedes. *)
Definition word_here (before : option ascii) (s word : string) : bool :=
  match Str.strip_prefix word s with
  | Some rest =>
      boundary before (Str.head s)
      && boundary (match Str.last word with Some c => Some c | None => before end)
           (Str.head rest)
  | None => false
  end.

(** [/\b(w1|...|wn)\b/] matches somewhere in [s]. *)
Fixpoint search (words : list string) (before : option ascii) (s : string)
  : bool :=
  existsb (word_here before s) words
  || match s with
     | EmptyString => false
     | String c r => search words (Some c) r
     end.

Definition test (words : list string) (s : string) : bool :=
  search words None s.

(** [String.prototype.toLowerCase]. *)
Definition toLowerCase (s : string) : string := Str.toLowerCase s.

Definition systemKeywords : list string :=
  ["system"; "memory"; "cpu"; "platform"; "uptime"; "health"].
Definition fileKeywords : list string :=
  ["file"; "read"; "analyze"; "content"].
Definition changeKeywords : list string :=
  ["write"; "create"; "propose"; "change"; "modify"; "update"].

(** [[a, b, c].filter(Boolean).length]. *)
Definition count_true (l : list bool) : nat :=
  List.length (filter (fun b => b) l).

Definition classifyTask (task : string) : TaskType :=
  let lowerTask := toLowerCase task in
  let hasSystemKeywords := test systemKeywords lowerTask in
  let hasFileKeywords := test fileKeywords lowerTask in
  let hasChangeKeywords := test changeKeywords lowerTask in
  let keywordCount :=
    count_true [hasSystemKeywords; hasFileKeywords; hasChangeKeywords] in
  if (1 <? keywordCount)%nat then composite
  else if hasChangeKeywords then change_proposal
  else if hasFileKeywords then file_analysis
  else if hasSystemKeywords then system_diagnostic
  else system_diagnostic.

(** ** Running the agents *)

Section Run.
Variable w : World.
Variable mcpClient : MCPClient.

Definition runSystemDiagnostic (task : string) : M AgentExecutionResult :=
  startTime <- Date_now w ;;
  agent <- createSystemInspectorAgent w mcpClient ;;
  result <- Base.run w agent task ;;
  endTime <- Date_now w ;;
  ret {| agentName := "SystemInspector";
         agent_output := output result;
         agent_toolCalls := toolCalls result;
         durationMs := endTime - startTime |}.

Definition runFileAnalysis (task : string) : M AgentExecutionResult :=
  startTime <- Date_now w ;;
  agent <- createFileAnalystAgent w mcpClient ;;
  result <- Base.run w agent task ;;
  endTime <- Date_now w ;;
  ret {| agentName := "FileAnalyst";
         agent_output := output result;
         agent_toolCalls := toolCalls result;
         durationMs := endTime - startTime |}.

Definition runChangeProposal (task : string) : M AgentExecutionResult :=
  startTime <- Date_now w ;;
  agent <- createChangeProposerAgent w mcpClient ;;
  result <- Base.run w agent task ;;
  endTime <- Date_now w ;;
  ret {| agentName := "ChangeProposer";
         agent_output := output result;
         agent_toolCalls := toolCalls result;
         durationMs := endTime - startTime |}.

(** [`${input.task}\n\nContext: ${accumulatedContext}`]. *)
Definition with_context (task accumulatedContext : string) : string :=
  task ++ newline ++ newline ++ "Context: " ++ accumulatedContext.

Definition runCompositeWorkflow (input : OrchestratorInput)
  : M (list AgentExecutionResult) :=
  let results : list AgentExecutionResult := [] in
  let lowerTask := toLowerCase (task input) in
  let needsSystemCheck := test systemKeywords lowerTask in
  let needsFileAnalysis := test fileKeywords lowerTask in
  let needsChangeProposal := test changeKeywords lowerTask in
  let accumulatedContext :=
    match context input with Some c => c | None => "" end in
  '(results, accumulatedContext) <-
    (if needsSystemCheck then
       result <- runSystemDiagnostic (with_context (task input) accumulatedContext) ;;
       ret ((results ++ [result])%list,
            accumulatedContext ++ newline ++ newline ++ "System Info: "
            ++ agent_output result)
     else ret (results, accumulatedContext)) ;;
  '(results, accumulatedContext) <-
    (if needsFileAnalysis then
       result <- runFileAnalysis (with_context (task input) accumulatedContext) ;;
       ret ((results ++ [result])%list,
            accumulatedContext ++ newline ++ newline ++ "File Analysis: "
            ++ agent_output result)
     else ret (results, accumulatedContext)) ;;
  results <-
    (if needsChangeProposal then
       result <- runChangeProposal (with_context (task input) accumulatedContext) ;;
       ret (results ++ [result])%list
     else ret results) ;;
  ret results.

(** The sections of a composite output, numbered from [i + 1]. *)
Fixpoint sections (i : Z) (results : list AgentExecutionResult) : list string :=
  match results with
  | [] => []
  | r :: rest =>
      ("## " ++ Str.of_Z (i + 1) ++ ". " ++ agentName r ++ newline ++ newline
       ++ agent_output r) :: sections (i + 1) rest
  end.

Definition synthesizeOutput (taskType : TaskType)
  (results : list AgentExecutionResult) : string :=
  match results with
  | [] => "No agents were invoked."
  | [r] => agent_output r
  | _ =>
      "# Orchestration Results (" ++ TaskType_text taskType ++ ")"
      ++ newline ++ newline
      ++ Str.join (newline ++ newline ++ "---" ++ newline ++ newline)
           (sections 0 results)
  end.

(** [Orchestrator.run].  [agentResults] is still empty whenever the
    [catch] block is entered: the results of a workflow are pushed only
    once the workflow has returned. *)
Definition run (input : OrchestratorInput) : M OrchestratorResult :=
  startTime <- Date_now w ;;
  let agentResults : list AgentExecutionResult := [] in
  try_catch
    (healthy <- healthCheck w mcpClient ;;
     if negb healthy then
       endTime <- Date_now w ;;
       ret {| success := false;
              result_taskType := system_diagnostic;
              agentResults := [];
              finalOutput := "";
              totalDurationMs := endTime - startTime;
              error :=
                Some "MCP server is not available. Please ensure it is running." |}
     else
       let taskType :=
         match taskType input with
         | Some t => t
         | None => classifyTask (task input)
         end in
       agentResults <-
         match taskType with
         | system_diagnostic =>
             r <- runSystemDiagnostic (task input) ;; ret (agentResults ++ [r])%list
         | file_analysis =>
             r <- runFileAnalysis (task input) ;; ret (agentResults ++ [r])%list
         | change_proposal =>
             r <- runChangeProposal (task input) ;; ret (agentResults ++ [r])%list
         | composite =>
             rs <- runCompositeWorkflow input ;; ret (agentResults ++ rs)%list
         end ;;
       let finalOutput := synthesizeOutput taskType agentResults in
       endTime <- Date_now w ;;
       ret {| success := true;
              result_taskType := taskType;
              agentResults := agentResults;
              finalOutput := finalOutput;
              totalDurationMs := endTime - startTime;
              error := None |})
    (fun error =>
       endTime <- Date_now w ;;
       ret {| success := false;
              result_taskType :=
                match taskType input with
                | Some t => t
                | None => system_diagnostic
                end;
              agentResults := agentResults;
              finalOutput := "";
              totalDurationMs := endTime - startTime;
              error := Some (message_of error) |}).
End Run.

End Orchestrator.

(* ================================================================= *)
(** * Notions used in the statements *)

Module Notions.
Import Js.

Definition is_some (A : Type) (x : option A) : bool :=
  match x with Some _ => true | None => false end.

(** The issue the [path] fields raise on a path that contains [".."]. *)
Definition traversal : Zod.issue :=
  {| Zod.path := ["path"]; Zod.message := "Path traversal not allowed" |}.

(** Where a caller-supplied path ends up. *)
Definition resolved (host : Mcp.Host) (p : string) : string :=
  Path.resolve (Mcp.cwd host)
    (Path.join (FileRead.SANDBOX_DIR host) (Path.normalize p)).

Definition sandbox_root (host : Mcp.Host) : string :=
  Path.resolve (Mcp.cwd host) (FileRead.SANDBOX_DIR host).

(** [\w], said of a character: a digit, a letter of the English
    alphabet, or the underscore. *)
Definition word_character (c : ascii) : Prop :=
  let n := nat_of_ascii c in
  (48 <= n <= 57)%nat \/ (65 <= n <= 90)%nat \/ n = 95%nat
  \/ (97 <= n <= 122)%nat.

(** No word character stands at this place; the two ends of a text
    count as such a place. *)
Definition no_word_character (c : option ascii) : Prop :=
  match c with
  | Some c => ~ word_character c
  | None => True
  end.

(** [k] occurs in [s] as a whole word: no word character stands
    directly before it or directly after it. *)
Definition whole_word (k s : string) : Prop :=
  exists pre post,
    s = pre ++ k ++ post
    /\ no_word_character (Str.last pre)
    /\ no_word_character (Str.head post).

(** One of the words occurs in the text as a whole word. *)
Definition present (words : list string) (s : string) : Prop :=
  exists k, In k words /\ whole_word k s.

(** [d] is the lowercase form of the ASCII character [c]: the letters
    A to Z are moved to a to z, every other character stays. *)
Definition lowercase_of (c d : ascii) : Prop :=
  ((65 <= nat_of_ascii c <= 90)%nat -> nat_of_ascii d = (nat_of_ascii c + 32)%nat)
  /\ (~ (65 <= nat_of_ascii c <= 90)%nat -> d = c).

(** [data] goes with success and [error] with failure. *)
Definition well_shaped (T : Type) (r : Mcp.ToolExecutionResult T) : Prop :=
  is_some (Mcp.data r) = Mcp.success r
  /\ is_some (Mcp.error r) = negb (Mcp.success r).

End Notions.

(* ================================================================= *)
(** * The history of a composite run *)

Module History.
Import Js Outside Client Base Agents Orchestrator.

Section Steps.
Variable w : World.
Variable mcpClient : MCPClient.

(** The shape shared by [runSystemDiagnostic], [runFileAnalysis] and
    [runChangeProposal]. *)
Definition agent_step (config : AgentConfig) (label task : string)
  : M AgentExecutionResult :=
  bind (Date_now w) (fun startTime =>
  bind (create w config) (fun agent =>
  bind (Base.run w agent task) (fun result =>
  bind (Date_now w) (fun endTime =>
  ret {| agentName := label;
         agent_output := output result;
         agent_toolCalls := toolCalls result;
         durationMs := endTime - startTime |})))).

Definition inspector : AgentConfig :=
  {| cfg_name := "SystemInspector"; cfg_allowedTools := ["system-info"];
     cfg_systemPrompt := SYSTEM_INSPECTOR_PROMPT; cfg_mcpClient := mcpClient |}.
Definition analyst : AgentConfig :=
  {| cfg_name := "FileAnalyst"; cfg_allowedTools := ["file-read"];
     cfg_systemPrompt := FILE_ANALYST_PROMPT; cfg_mcpClient := mcpClient |}.
Definition proposer : AgentConfig :=
  {| cfg_name := "ChangeProposer"; cfg_allowedTools := ["file-write"];
     cfg_systemPrompt := CHANGE_PROPOSER_PROMPT; cfg_mcpClient := mcpClient |}.

(** One [if (needs...) { ... }] block of [runCompositeWorkflow]: the
    results and the accumulated context before and after it. *)
Definition stage (flag : bool) (config : AgentConfig) (label heading task : string)
  (acc : list AgentExecutionResult * string)
  : M (list AgentExecutionResult * string) :=
  if flag then
    bind (agent_step config label (with_context task (snd acc)))
      (fun result =>
         ret ((fst acc ++ [result])%list,
              snd acc ++ newline ++ newline ++ heading ++ agent_output result))
  else ret acc.

Definition plan (input : OrchestratorInput) : list string :=
  ((if test systemKeywords (toLowerCase (task input))
    then ["SystemInspector"] else [])
   ++ (if test fileKeywords (toLowerCase (task input))
       then ["FileAnalyst"] else [])
   ++ (if test changeKeywords (toLowerCase (task input))
       then ["ChangeProposer"] else []))%list.

End Steps.

(** Every run hands its output to all the runs after it: the output
    text occurs in their input. *)
Definition fed (new : list Run) : Prop :=
  forall i j ri rj out,
    (i < j)%nat ->
    nth_error new i = Some ri ->
    nth_error new j = Some rj ->
    run_end ri = Returned out ->
    Str.occurs_in out (run_input rj).

Definition returned (r : Run) : Prop := exists out, run_end r = Returned out.

(** Where a composite run stands between two blocks: [new] are the
    runs made so far, all completed, made by the agents [done] in this
    order; each fed the later ones, and each one's output occurs in
    the accumulated context. *)
Definition progress (base : list Run) (done : list string) (st : State)
  (acc : list AgentExecutionResult * string) (new : list Run) : Prop :=
  runs st = (base ++ new)%list
  /\ map run_agent new = done
  /\ map agentName (fst acc) = done
  /\ fed new
  /\ Forall (fun r => exists out, run_end r = Returned out
                                  /\ Str.occurs_in out (snd acc)) new.

(** The runs a composite workflow adds to the history.  They feed one
    another in order.  When the workflow returns, they are the planned
    agents' runs, all completed; when it throws, they are the completed
    runs of the first planned agents, followed at most by the run that
    threw: the agents planned after the failing step were not run. *)
Definition workflow_outcome (input : OrchestratorInput)
  (res : completion (list AgentExecutionResult)) (new : list Run) : Prop :=
  fed new
  /\ match res with
     | Returned results =>
         map run_agent new = plan input
         /\ map agentName results = plan input
         /\ Forall returned new
     | Threw e =>
         exists done label rest,
           plan input = (map run_agent done ++ label :: rest)%list
           /\ Forall returned done
           /\ (new = done
               \/ exists r, new = (done ++ [r])%list
                            /\ run_agent r = label /\ run_end r = Threw e)
     end.

End History.

(* ================================================================= *)
(** * Sample inputs

    A host with the default sandbox directory, one readable file and a
    few requests; the statements below are instantiated at them. *)

Module Sample.
Import Js.

Definition host : Mcp.Host :=
  {| Mcp.env_MCP_SANDBOX_DIR := None;
     Mcp.cwd := "/srv/app";
     Mcp.readFile := fun p =>
       if (p =? "/tmp/mcp-sandbox/config.json")%string then Returned "{}"
       else if (p =? "/tmp/mcp-sandbox")%string
       then Threw (ErrorObject "EISDIR: illegal operation on a directory, read")
       else Threw (ErrorObject "ENOENT: no such file or directory");
     Mcp.toBase64 := fun s => s;
     Mcp.toUtf8 := fun s => s;
     Mcp.os_platform := "linux";
     Mcp.os_arch := "x64";
     Mcp.os_totalmem := 1000;
     Mcp.os_freemem := 400;
     Mcp.os_uptime := (123456 # 100)%Q;
     Mcp.process_version := "v20.0.0" |}.

Definition readings : Server.Readings :=
  {| Server.randomUUID := "0000";
     Server.startTime := 10;
     Server.contextTime := 11;
     Server.auditTime := 12;
     Server.endTime := 15 |}.

(** [{ tool, inputs }]. *)
Definition request (tool : string) (inputs : list (string * value))
  : Server.Request :=
  {| Server.id := "req-1";
     Server.body := JObj [("tool", JStr tool); ("inputs", JObj inputs)] |}.

Definition parsed (tool : string) (inputs : list (string * value))
  : Mcp.ToolCallRequest :=
  {| Mcp.req_tool := tool;
     Mcp.req_inputs := JObj inputs;
     Mcp.req_intent := None |}.

Definition write_hello : list (string * value) :=
  [("path", JStr "hello.txt"); ("content", JStr "Hello")].

Definition read_passwd : list (string * value) :=
  [("path", JStr "../etc/passwd")].

Definition read_root : list (string * value) :=
  [("path", JStr ".")].

Definition fileWrite : Mcp.RegisteredTool :=
  {| Mcp.definition := FileWrite.fileWriteDefinition;
     Mcp.executor := FileWrite.fileWriteExecutor |}.

Definition fileRead : Mcp.RegisteredTool :=
  {| Mcp.definition := FileRead.fileReadDefinition;
     Mcp.executor := FileRead.fileReadExecutor |}.

Definition systemInfo : Mcp.RegisteredTool :=
  {| Mcp.definition := SystemInfo.systemInfoDefinition;
     Mcp.executor := SystemInfo.systemInfoExecutor |}.

Definition hello : FileWrite.FileWriteInput :=
  {| FileWrite.path := "hello.txt";
     FileWrite.content := "Hello";
     FileWrite.mode := FileWrite.overwrite;
     FileWrite.createDirs := false |}.

Definition passwd : FileRead.FileReadInput :=
  {| FileRead.path := "../etc/passwd";
     FileRead.maxBytes := 10000;
     FileRead.encoding := FileRead.utf8 |}.

Definition dry : Mcp.ExecutionContext :=
  {| Mcp.dryRun := true; Mcp.timestamp := 11; Mcp.requestId := "req-1" |}.

Definition wet : Mcp.ExecutionContext :=
  {| Mcp.dryRun := false; Mcp.timestamp := 11; Mcp.requestId := "req-1" |}.

(** A gateway that answers every call with a success, and a model that
    first asks for a tool named [file_write], then for [system_info],
    and then finishes. *)
Definition world : Outside.World :=
  {| Outside.health := fun _ => true;
     Outside.post_call := fun _ r =>
       Returned
         {| Outside.resp_tool := Outside.tool r;
            Outside.success := true;
            Outside.result := Some (JObj []);
            Outside.error := None;
            Outside.dryRun := (Outside.tool r =? "file-write")%string;
            Outside.timestamp := "2024-01-01T00:00:00.000Z";
            Outside.requestId := "req-1";
            Outside.simulatedAction := None |};
     Outside.model := fun _ _ _ observations =>
       match observations with
       | [] => Outside.UseTool "file_write" (JObj write_hello)
       | [_] => Outside.UseTool "system_info" (JObj [])
       | _ => Outside.Finish "done"
       end;
     Outside.construct := fun _ => None;
     Outside.tool_error := fun e => Threw e;
     Outside.stringify := fun _ => "{}";
     Outside.now := fun st => Z.of_nat (Outside.clockReadings st) |}.

(** The same, with a model whose third answer fails. *)
Definition failing_world : Outside.World :=
  {| Outside.health := fun _ => true;
     Outside.post_call := Outside.post_call world;
     Outside.model := fun st _ _ _ =>
       if (Outside.modelQueries st =? 2)%nat
       then Outside.ModelFailure (ErrorObject "429 rate limit exceeded")
       else Outside.Finish "done";
     Outside.construct := fun _ => None;
     Outside.tool_error := fun e => Threw e;
     Outside.stringify := fun _ => "{}";
     Outside.now := fun st => Z.of_nat (Outside.clockReadings st) |}.

(** A task that names all three kinds of work. *)
Definition everything : Orchestrator.OrchestratorInput :=
  {| Orchestrator.task := "Check memory, read the config file and propose an update";
     Orchestrator.taskType := None;
     Orchestrator.context := None |}.

Definition client : Client.MCPClient :=
  {| Client.baseUrl := "http://localhost:3000"; Client.timeoutMs := 30000 |}.

Definition inspector : Base.AgentConfig :=
  {| Base.cfg_name := "SystemInspector";
     Base.cfg_allowedTools := ["system-info"];
     Base.cfg_systemPrompt := Agents.SYSTEM_INSPECTOR_PROMPT;
     Base.cfg_mcpClient := client |}.

End Sample.

(* ================================================================= *)
(** * Further notions and sample inputs *)

Module Coverage.
Import Js.

(** The names a registry holds, in insertion order. *)
Definition keys (tools : Tools.ToolRegistry) : list string := map fst tools.

(** Every entry is stored under the name of its definition, as
    [register] stores it. *)
Definition keyed_by_name (tools : Tools.ToolRegistry) : Prop :=
  Forall (fun kt => fst kt = Mcp.name (Mcp.definition (snd kt))) tools.

(** The names of the definitions [listDefinitions] returns. *)
Definition listed_names (tools : Tools.ToolRegistry) : list string :=
  map (fun d => Mcp.name (projT2 d)) (Tools.listDefinitions tools).

(** A tool whose executor throws, and a registry that holds it. *)
Definition flaky : Mcp.RegisteredTool :=
  {| Mcp.definition :=
       {| Mcp.name := "flaky";
          Mcp.description := "Always throws";
          Mcp.intent := "Exercises the handler's catch block";
          Mcp.inputSchema := fun v => Zod.Ok v;
          Mcp.safety := Mcp.dangerous |};
     Mcp.executor := fun (_ : value) (_ : Mcp.ExecutionContext) (_ : Mcp.Host) =>
       (@Threw (Mcp.ToolExecutionResult unit) (ErrorObject "boom"), []) |}.

Definition flaky_registry : Tools.ToolRegistry := [("flaky", flaky)].

(** The name of a category, as the schema of [system-info] reads it. *)
Definition Category_text (c : SystemInfo.Category) : string :=
  match c with
  | SystemInfo.platform => "platform"
  | SystemInfo.memory => "memory"
  | SystemInfo.uptime => "uptime"
  | SystemInfo.nodeVersion => "nodeVersion"
  end.

Definition Category_eqb (a b : SystemInfo.Category) : bool :=
  (Category_text a =? Category_text b)%string.

(** [[...].includes(c)]. *)
Definition requested (c : SystemInfo.Category) (input : SystemInfo.SystemInfoInput)
  : bool :=
  existsb (Category_eqb c) (SystemInfo.include input).

(** The task type [Orchestrator.run] routes on:
    [input.taskType ?? this.classifyTask(input.task)]. *)
Definition routed (input : Orchestrator.OrchestratorInput) : Orchestrator.TaskType :=
  match Orchestrator.taskType input with
  | Some t => t
  | None => Orchestrator.classifyTask (Orchestrator.task input)
  end.

(** The agent a single-purpose task type is routed to. *)
Definition agent_of (t : Orchestrator.TaskType) : string :=
  match t with
  | Orchestrator.system_diagnostic => "SystemInspector"
  | Orchestrator.file_analysis => "FileAnalyst"
  | Orchestrator.change_proposal => "ChangeProposer"
  | Orchestrator.composite => ""
  end.

(** The [ALLOWED_TOOLS] of the three agents, by agent name. *)
Definition tools_of_agent (label : string) : list string :=
  if (label =? "SystemInspector")%string then ["system-info"]
  else if (label =? "FileAnalyst")%string then ["file-read"]
  else if (label =? "ChangeProposer")%string then ["file-write"]
  else [].

(** The agents a task is routed to. *)
Definition agents_of (input : Orchestrator.OrchestratorInput) : list string :=
  match routed input with
  | Orchestrator.composite => History.plan input
  | t => [agent_of t]
  end.

(** [`Agent "${agentName}" calling ${toolName}`]. *)
Definition intent_of (agentName toolName : string) : string :=
  "Agent " ++ Base.quote ++ agentName ++ Base.quote ++ " calling " ++ toolName.

(** A request that one of the agents [labels] may post: it is for a
    tool of that agent, and its intent names the agent and the tool. *)
Definition by_agents (labels : list string) (r : Outside.MCPToolCallRequest)
  : Prop :=
  exists label,
    In label labels
    /\ In (Outside.tool r) (tools_of_agent label)
    /\ Outside.intent r = Some (intent_of label (Outside.tool r)).

(** The [switch] of [Orchestrator.run]: the agent results of the
    routed task type. *)
Definition dispatch (w : Outside.World) (mcpClient : Client.MCPClient)
  (input : Orchestrator.OrchestratorInput)
  : Outside.M (list Orchestrator.AgentExecutionResult) :=
  match routed input with
  | Orchestrator.system_diagnostic =>
      Outside.bind
        (Orchestrator.runSystemDiagnostic w mcpClient (Orchestrator.task input))
        (fun r => Outside.ret [r])
  | Orchestrator.file_analysis =>
      Outside.bind
        (Orchestrator.runFileAnalysis w mcpClient (Orchestrator.task input))
        (fun r => Outside.ret [r])
  | Orchestrator.change_proposal =>
      Outside.bind
        (Orchestrator.runChangeProposal w mcpClient (Orchestrator.task input))
        (fun r => Outside.ret [r])
  | Orchestrator.composite =>
      Orchestrator.runCompositeWorkflow w mcpClient input
  end.

(** A request an agent named [agentName] with the allow-list [allowed]
    may post: it is for a tool of the list, carries the agent's intent
    line, and its inputs are what the wrapper's schema for that tool
    made of some input. *)
Definition sent_by (agentName : string) (allowed : list string)
  (r : Outside.MCPToolCallRequest) : Prop :=
  In (Outside.tool r) allowed
  /\ Outside.intent r = Some (intent_of agentName (Outside.tool r))
  /\ exists raw, Base.toolSchemas (Outside.tool r) raw = Some (Outside.inputs r).

(** The agent [ConstrainedAgent.create] returns for a configuration. *)
Definition agent_of_config (w : Outside.World) (config : Base.AgentConfig)
  : Base.ConstrainedAgent :=
  {| Base.name := Base.cfg_name config;
     Base.allowedTools := Base.cfg_allowedTools config;
     Base.executor :=
       {| Base.tools :=
            Base.createMCPToolWrappers w (Base.cfg_mcpClient config)
              (Base.cfg_allowedTools config) (Base.cfg_name config);
          Base.systemPrompt := Base.cfg_systemPrompt config;
          Base.maxIterations := 15 |};
     Base.mcpClient := Base.cfg_mcpClient config;
     Base.toolCallLog := [] |}.

(** A model that asks for two files in one answer, with a key the
    wrapper's schema does not know, and then finishes. *)
Definition eager : Outside.World :=
  {| Outside.health := fun _ => true;
     Outside.post_call := Outside.post_call Sample.world;
     Outside.model := fun _ _ _ observations =>
       match observations with
       | [] =>
           Outside.UseTools
             [("FILE_READ",
               JObj [("path", JStr "config.json"); ("maxBytes", JNum (5 # 1))]);
              ("file_read", JObj [("path", JStr "notes.txt")])]
       | _ => Outside.Finish "done"
       end;
     Outside.construct := fun _ => None;
     Outside.tool_error := fun e => Threw e;
     Outside.stringify := fun _ => "{}";
     Outside.now := fun st => Z.of_nat (Outside.clockReadings st) |}.



(** All the keywords of the classifier. *)
Definition keywords : list string :=
  (Orchestrator.systemKeywords ++ Orchestrator.fileKeywords
   ++ Orchestrator.changeKeywords)%list.

(** A world in which the gateway does not answer the health probe. *)
Definition down : Outside.World :=
  {| Outside.health := fun _ => false;
     Outside.post_call := Outside.post_call Sample.world;
     Outside.model := Outside.model Sample.world;
     Outside.construct := fun _ => None;
     Outside.tool_error := fun e => Threw e;
     Outside.stringify := fun _ => "{}";
     Outside.now := fun st => Z.of_nat (Outside.clockReadings st) |}.

Definition diagnose : Orchestrator.OrchestratorInput :=
  {| Orchestrator.task := "Check the system memory usage";
     Orchestrator.taskType := None;
     Orchestrator.context := None |}.

(** A task of explicit type [composite] whose text has no keyword. *)
Definition vague : Orchestrator.OrchestratorInput :=
  {| Orchestrator.task := "hello there";
     Orchestrator.taskType := Some Orchestrator.composite;
     Orchestrator.context := None |}.

Definition read_config : FileRead.FileReadInput :=
  {| FileRead.path := "config.json";
     FileRead.maxBytes := 10000;
     FileRead.encoding := FileRead.utf8 |}.

Definition memory_only : SystemInfo.SystemInfoInput :=
  {| SystemInfo.include := [SystemInfo.memory] |}.

(** The euro sign, U+20AC: one code unit, three bytes. *)
Definition euro : string :=
  String (ascii_of_nat 226) (String (ascii_of_nat 130)
    (String (ascii_of_nat 172) EmptyString)).

(** A request to write two euro signs. *)
Definition write_euros : list (string * value) :=
  [("path", JStr "hello.txt"); ("content", JStr (euro ++ euro))].

Definition euros : FileWrite.FileWriteInput :=
  {| FileWrite.path := "hello.txt";
     FileWrite.content := euro ++ euro;
     FileWrite.mode := FileWrite.overwrite;
     FileWrite.createDirs := false |}.

End Coverage.

(* ================================================================= *)
(** * Properties *)

Module StrFacts.
Import Str.

Lemma sapp_assoc (a b c : string) : (a ++ b) ++ c = a ++ (b ++ c).
Proof. induction a; simpl; congruence. Qed.

Lemma sapp_nil_r (a : string) : a ++ "" = a.
Proof. induction a; simpl; congruence. Qed.

Lemma prefix_refl (a : string) : String.prefix a a = true.
Proof.
  induction a as [|c a IH]; simpl; auto.
  destruct (ascii_dec c c); congruence.
Qed.

Lemma prefix_app (a b : string) : String.prefix a (a ++ b) = true.
Proof.
  induction a as [|c a IH]; simpl.
  - destruct b; reflexivity.
  - destruct (ascii_dec c c); congruence.
Qed.

Lemma prefix_nil (s : string) : String.prefix "" s = true.
Proof. destruct s; reflexivity. Qed.

Lemma includes_prefix (s sub : string) :
  String.prefix sub s = true -> includes s sub = true.
Proof. intros H. destruct s; simpl in *; rewrite H; reflexivity. Qed.

Lemma includes_tail (a : ascii) (s sub : string) :
  includes s sub = true -> includes (String a s) sub = true.
Proof. intros H. simpl. rewrite H. apply orb_true_r. Qed.

Lemma split_not_nil (c : ascii) (s : string) : split c s <> [].
Proof.
  induction s as [|a r IH]; simpl; [discriminate|].
  destruct (Ascii.eqb a c); [discriminate|].
  destruct (split c r); discriminate.
Qed.

Lemma split_head_prefix (c : ascii) (s : string) :
  String.prefix (List.hd "" (split c s)) s = true.
Proof.
  induction s as [|a r IH]; simpl; auto.
  destruct (Ascii.eqb a c); simpl; auto.
  destruct (split c r) as [|h t] eqn:E; simpl in *.
  - destruct (ascii_dec a a); [apply prefix_nil | congruence].
  - destruct (ascii_dec a a); congruence.
Qed.

(** Every piece of a split string occurs in the string. *)
Lemma split_includes (c : ascii) (s x : string) :
  In x (split c s) -> includes s x = true.
Proof.
  induction s as [|a r IH]; simpl; intros H.
  - destruct H as [<-|[]]. reflexivity.
  - destruct (Ascii.eqb a c).
    + destruct H as [<-|H]; [reflexivity|].
      rewrite (IH H). apply orb_true_r.
    + pose proof (split_head_prefix c r) as HP.
      destruct (split c r) as [|h t] eqn:E; simpl in *.
      * destruct H as [<-|[]].
        destruct (ascii_dec a a); [|congruence].
        rewrite prefix_nil. reflexivity.
      * destruct H as [<-|H].
        -- destruct (ascii_dec a a); [|congruence].
           rewrite HP. reflexivity.
        -- rewrite (IH (or_intror H)). apply orb_true_r.
Qed.

Lemma split_app (c : ascii) (a b : string) :
  split c (a ++ String c b) = (split c a ++ split c b)%list.
Proof.
  induction a as [|x a IH]; simpl.
  - rewrite Ascii.eqb_refl. reflexivity.
  - destruct (Ascii.eqb x c); [rewrite IH; reflexivity|].
    rewrite IH.
    pose proof (split_not_nil c a) as Hn.
    destruct (split c a); [congruence|reflexivity].
Qed.

Lemma split_pieces_free (c : ascii) (s : string) :
  Forall (free_of c) (split c s).
Proof.
  induction s as [|a r IH]; simpl.
  - constructor; [reflexivity|constructor].
  - destruct (Ascii.eqb a c) eqn:E.
    + constructor; [reflexivity|exact IH].
    + pose proof (split_not_nil c r) as Hn.
      destruct (split c r) as [|h t]; [congruence|].
      inversion IH as [|? ? Hh Ht]; subst.
      constructor; [|exact Ht].
      unfold free_of in *. simpl. rewrite E, Hh. reflexivity.
Qed.

Lemma occurs_in_refl (x : string) : occurs_in x x.
Proof. exists "", "". simpl. now rewrite sapp_nil_r. Qed.

Lemma occurs_in_app_r (x a b : string) : occurs_in x b -> occurs_in x (a ++ b).
Proof.
  intros (pre & post & ->). exists (a ++ pre), post. now rewrite sapp_assoc.
Qed.

Lemma occurs_in_cons (x : string) (c : ascii) (s : string) :
  occurs_in x s -> occurs_in x (String c s).
Proof. intros (pre & post & ->). exists (String c pre), post. reflexivity. Qed.

Lemma occurs_in_app_l (x a b : string) : occurs_in x a -> occurs_in x (a ++ b).
Proof.
  intros (pre & post & ->). exists pre, (post ++ b).
  now rewrite !sapp_assoc.
Qed.

End StrFacts.

(* ----------------------------------------------------------------- *)
(** ** Path normalisation *)

Module PathFacts.
Import Str StrFacts Path.

Lemma step_skip a st seg : meaningful seg = false -> step a st seg = st.
Proof.
  unfold meaningful, step. intros H.
  destruct ((seg =? "")%string || (seg =? ".")%string); [reflexivity|discriminate].
Qed.

Lemma step_push a st seg :
  meaningful seg = true -> seg <> ".." -> step a st seg = seg :: st.
Proof.
  unfold meaningful, step. intros H Hn.
  destruct ((seg =? "")%string || (seg =? ".")%string); [discriminate|].
  apply String.eqb_neq in Hn. rewrite Hn. reflexivity.
Qed.

Lemma step_dotdot a st :
  step a st ".." =
  match st with
  | top :: rest =>
      if (top =? "..")%string then (if a then ".." :: st else st) else rest
  | [] => if a then [".."] else []
  end.
Proof. reflexivity. Qed.

Lemma walk_app a st l1 l2 :
  walk a st (l1 ++ l2)%list = walk a (walk a st l1) l2.
Proof. unfold walk. apply fold_left_app. Qed.

Lemma walk_filter a l : forall st,
  walk a st l = walk a st (filter meaningful l).
Proof.
  induction l as [|x l IH]; intros st; simpl; [reflexivity|].
  destruct (meaningful x) eqn:E; simpl.
  - apply IH.
  - rewrite (step_skip a st x E). apply IH.
Qed.

Lemma walk_plain a l : forall st,
  Forall (fun s => s <> "..") l ->
  walk a st l = (rev (filter meaningful l) ++ st)%list.
Proof.
  induction l as [|x l IH]; intros st H; simpl; [reflexivity|].
  inversion H as [|? ? Hx Hl]; subst.
  destruct (meaningful x) eqn:E; simpl.
  - rewrite (step_push a st E Hx), (IH _ Hl), <- List.app_assoc. reflexivity.
  - rewrite (step_skip a st x E). apply IH, Hl.
Qed.

Lemma kept_dotdot : kept "..".
Proof. split; reflexivity. Qed.

Lemma step_kept a st seg :
  Forall kept st -> free_of sep seg -> Forall kept (step a st seg).
Proof.
  intros Hst Hseg. unfold step.
  destruct ((seg =? "")%string || (seg =? ".")%string) eqn:E; [exact Hst|].
  destruct (seg =? "..")%string eqn:E2.
  - destruct st as [|top rest].
    + destruct a; repeat constructor; apply kept_dotdot.
    + inversion Hst; subst.
      destruct (top =? "..")%string; [|assumption].
      destruct a; [constructor; [apply kept_dotdot|]|]; assumption.
  - constructor; [|exact Hst]. split; [|exact Hseg].
    unfold meaningful. rewrite E. reflexivity.
Qed.

Lemma walk_kept a l : forall st,
  Forall kept st -> Forall (free_of sep) l -> Forall kept (walk a st l).
Proof.
  induction l as [|x l IH]; intros st Hst Hl; simpl; [exact Hst|].
  inversion Hl; subst. apply IH; [apply step_kept|]; assumption.
Qed.

Lemma filter_kept l :
  Forall (free_of sep) l -> Forall kept (filter meaningful l).
Proof.
  induction 1 as [|x l Hx Hl IH]; simpl; [constructor|].
  destruct (meaningful x) eqn:E; [constructor; [split|]|]; assumption.
Qed.

Lemma segments_kept p : Forall kept (segments p).
Proof. apply filter_kept, split_pieces_free. Qed.

Lemma kept_filter l : Forall kept l -> filter meaningful l = l.
Proof.
  induction 1 as [|x l [Hx _] Hl IH]; simpl; [reflexivity|].
  rewrite Hx, IH. reflexivity.
Qed.

Lemma kept_free l : Forall kept l -> Forall (free_of sep) l.
Proof. apply Forall_impl. intros x [_ H]. exact H. Qed.

Lemma walk_segments a st p :
  walk a st (Str.split sep p) = walk a st (segments p).
Proof. apply walk_filter. Qed.

Lemma segments_app a b :
  segments (a ++ "/" ++ b) = (segments a ++ segments b)%list.
Proof.
  unfold segments. change ("/" ++ b) with (String sep b).
  rewrite split_app, filter_app. reflexivity.
Qed.

Lemma segments_slash_r a : segments (a ++ "/") = segments a.
Proof.
  change (a ++ "/") with (a ++ "/" ++ "").
  rewrite segments_app. apply List.app_nil_r.
Qed.

Lemma segments_slash_l a : segments ("/" ++ a) = segments a.
Proof. change ("/" ++ a) with ("" ++ "/" ++ a). now rewrite segments_app. Qed.

Lemma join_cons x l :
  Str.join "/" (x :: l) =
  match l with [] => x | _ :: _ => x ++ "/" ++ Str.join "/" l end.
Proof. destruct l; reflexivity. Qed.

Lemma segments_join l : Forall kept l -> segments (Str.join "/" l) = l.
Proof.
  induction 1 as [|x l [Hm Hf] Hl IH]; [reflexivity|].
  rewrite join_cons. destruct l as [|y l].
  - unfold segments. rewrite Hf. simpl. rewrite Hm. reflexivity.
  - rewrite segments_app, IH. unfold segments. rewrite Hf. simpl.
    rewrite Hm. reflexivity.
Qed.

Lemma kept_not_empty x : kept x -> x <> "".
Proof. intros [H _] ->. discriminate. Qed.

Lemma kept_not_absolute x : kept x -> isAbsolute x = false.
Proof.
  intros [Hm Hf]. destruct x as [|c x]; [reflexivity|].
  simpl. destruct (Ascii.eqb c sep) eqn:E; [|reflexivity].
  unfold free_of in Hf. simpl in Hf. rewrite E in Hf. discriminate.
Qed.

Lemma isAbsolute_app x y : x <> "" -> isAbsolute (x ++ y) = isAbsolute x.
Proof. destruct x; [congruence|reflexivity]. Qed.

Lemma app_eq_empty (x y : string) : x ++ y = "" -> x = "".
Proof. destruct x; [reflexivity|discriminate]. Qed.

Lemma join_empty l : Forall kept l -> Str.join "/" l = "" -> l = [].
Proof.
  intros H E. destruct H as [|x l Hx Hl]; [reflexivity|].
  rewrite join_cons in E. exfalso. apply (kept_not_empty Hx).
  destruct l; [exact E|]. exact (app_eq_empty _ _ E).
Qed.

Lemma join_not_absolute l : Forall kept l -> isAbsolute (Str.join "/" l) = false.
Proof.
  intros H. destruct H as [|x l Hx Hl]; [reflexivity|].
  rewrite join_cons. destruct l.
  - apply kept_not_absolute, Hx.
  - rewrite isAbsolute_app; [apply kept_not_absolute, Hx|apply kept_not_empty, Hx].
Qed.

Lemma join_app l1 l2 :
  l1 <> [] -> l2 <> [] ->
  Str.join "/" (l1 ++ l2)%list = Str.join "/" l1 ++ "/" ++ Str.join "/" l2.
Proof.
  intros H1 H2. induction l1 as [|x l1 IH]; [congruence|].
  simpl app. rewrite !join_cons. destruct l1 as [|y l1].
  - simpl. destruct l2; [congruence|reflexivity].
  - rewrite IH by discriminate. simpl app. now rewrite sapp_assoc.
Qed.

Lemma walk_nil_kept a p : Forall kept (walk a [] (segments p)).
Proof. apply walk_kept; [constructor|apply kept_free, segments_kept]. Qed.

Lemma normalizeString_eq p a :
  normalizeString p a = Str.join "/" (rev (walk a [] (segments p))).
Proof. unfold normalizeString. now rewrite walk_segments. Qed.

Lemma segments_normalizeString p a :
  segments (normalizeString p a) = rev (walk a [] (segments p)).
Proof.
  rewrite normalizeString_eq. apply segments_join, Forall_rev, walk_nil_kept.
Qed.

Lemma normalizeString_empty p a :
  normalizeString p a = "" -> walk a [] (segments p) = [].
Proof.
  rewrite normalizeString_eq. intros E.
  apply join_empty in E; [|apply Forall_rev, walk_nil_kept].
  rewrite <- (rev_involutive (walk a [] (segments p))), E. reflexivity.
Qed.

Lemma normalizeString_not_absolute p a :
  isAbsolute (normalizeString p a) = false.
Proof.
  rewrite normalizeString_eq. apply join_not_absolute, Forall_rev, walk_nil_kept.
Qed.

Lemma segments_normalize p :
  segments (normalize p) = rev (walk (negb (isAbsolute p)) [] (segments p)).
Proof.
  unfold normalize. destruct (p =? "")%string eqn:Ep.
  - apply String.eqb_eq in Ep. subst. reflexivity.
  - destruct (normalizeString p (negb (isAbsolute p)) =? "")%string eqn:Er.
    + apply String.eqb_eq in Er. rewrite (normalizeString_empty _ _ Er).
      destruct (isAbsolute p), (hasTrailingSeparator p); reflexivity.
    + destruct (isAbsolute p), (hasTrailingSeparator p);
        rewrite ?segments_slash_l, ?segments_slash_r;
        apply segments_normalizeString.
Qed.

Lemma normalize_not_empty p : normalize p <> "".
Proof.
  unfold normalize. destruct (p =? "")%string; [discriminate|].
  destruct (normalizeString p (negb (isAbsolute p)) =? "")%string eqn:Er.
  - destruct (isAbsolute p), (hasTrailingSeparator p); discriminate.
  - apply String.eqb_neq in Er.
    destruct (isAbsolute p), (hasTrailingSeparator p); try discriminate;
      try exact Er.
    intros E. apply app_eq_empty in E. contradiction.
Qed.

Lemma isAbsolute_normalize p : isAbsolute (normalize p) = isAbsolute p.
Proof.
  unfold normalize. destruct (p =? "")%string eqn:Ep.
  - apply String.eqb_eq in Ep. subst. reflexivity.
  - destruct (normalizeString p (negb (isAbsolute p)) =? "")%string eqn:Er.
    + destruct (isAbsolute p), (hasTrailingSeparator p); reflexivity.
    + apply String.eqb_neq in Er.
      destruct (isAbsolute p) eqn:Ea; [destruct (hasTrailingSeparator p); reflexivity|].
      destruct (hasTrailingSeparator p).
      * rewrite isAbsolute_app by exact Er. apply normalizeString_not_absolute.
      * apply normalizeString_not_absolute.
Qed.

Section Join.
Variables (a b : string).
Hypothesis (Ha : a <> "") (Hb : b <> "").

Lemma join_eq : join a b = normalize (a ++ "/" ++ b).
Proof.
  unfold join. apply String.eqb_neq in Ha, Hb. rewrite Ha, Hb.
  destruct (a ++ "/" ++ b =? "")%string eqn:E; [|reflexivity].
  apply String.eqb_eq, app_eq_empty in E. apply String.eqb_neq in Ha.
  contradiction.
Qed.

Lemma isAbsolute_join : isAbsolute (join a b) = isAbsolute a.
Proof. now rewrite join_eq, isAbsolute_normalize, isAbsolute_app. Qed.

Lemma join_not_empty : join a b <> "".
Proof. rewrite join_eq. apply normalize_not_empty. Qed.

Lemma segments_join2 :
  segments (join a b) =
  rev (walk (negb (isAbsolute a)) [] (segments a ++ segments b)%list).
Proof.
  rewrite join_eq, segments_normalize, segments_app, isAbsolute_app by exact Ha.
  reflexivity.
Qed.
End Join.

Lemma resolve_eq cwd p :
  isAbsolute cwd = true -> p <> "" ->
  resolve cwd p =
  "/" ++ Str.join "/" (rev (walk false [] (base_segments cwd p ++ segments p)%list)).
Proof.
  intros Hc Hp. unfold resolve, base_segments.
  apply String.eqb_neq in Hp. rewrite Hp, Hc, orb_true_r. simpl negb.
  rewrite normalizeString_eq. destruct (isAbsolute p).
  - now rewrite segments_slash_r.
  - destruct (cwd =? "")%string eqn:Ec.
    + apply String.eqb_eq in Ec. subst. discriminate.
    + now rewrite segments_app, segments_slash_r.
Qed.

Lemma step_meaningful a st seg :
  Forall (fun s => meaningful s = true) st ->
  Forall (fun s => meaningful s = true) (step a st seg).
Proof.
  intros Hst. unfold step.
  destruct ((seg =? "")%string || (seg =? ".")%string) eqn:E; [exact Hst|].
  destruct (seg =? "..")%string eqn:E2.
  - destruct st as [|top rest].
    + destruct a; repeat constructor.
    + inversion Hst; subst.
      destruct (top =? "..")%string; [|assumption].
      destruct a; [constructor; [reflexivity|]|]; assumption.
  - constructor; [|exact Hst]. unfold meaningful. now rewrite E.
Qed.

Lemma walk_meaningful a l : forall st,
  Forall (fun s => meaningful s = true) st ->
  Forall (fun s => meaningful s = true) (walk a st l).
Proof.
  induction l as [|x l IH]; intros st Hst; simpl; [exact Hst|].
  apply IH, step_meaningful, Hst.
Qed.

Lemma step_no_dotdot st seg :
  Forall (fun s => s <> "..") st ->
  Forall (fun s => s <> "..") (step false st seg).
Proof.
  intros Hst. unfold step.
  destruct ((seg =? "")%string || (seg =? ".")%string); [exact Hst|].
  destruct (seg =? "..")%string eqn:E2.
  - destruct st as [|top rest]; [constructor|].
    inversion Hst; subst. destruct (top =? "..")%string; assumption.
  - constructor; [|exact Hst]. now apply String.eqb_neq.
Qed.

Lemma walk_no_dotdot l : forall st,
  Forall (fun s => s <> "..") st ->
  Forall (fun s => s <> "..") (walk false st l).
Proof.
  induction l as [|x l IH]; intros st Hst; simpl; [exact Hst|].
  apply IH, step_no_dotdot, Hst.
Qed.

(** Normalising twice changes nothing: the pieces kept by a first walk,
    walked again from a stack [st], leave what walking the original
    pieces from [st] leaves. *)
Lemma walk_walk_relative st l :
  walk false st (rev (walk true [] l)) = walk false st l.
Proof.
  induction l as [|x l IH] using rev_ind; [reflexivity|].
  rewrite !walk_app. simpl. rewrite <- IH.
  assert (HK : Forall (fun s => meaningful s = true) (walk true [] l))
    by (apply walk_meaningful; constructor).
  destruct (walk true [] l) as [|top rest] eqn:ER.
  - (* nothing kept so far *)
    destruct (meaningful x) eqn:Em.
    + destruct (String.eqb_spec x "..") as [->|Hx]; [reflexivity|].
      now rewrite (step_push true [] Em Hx).
    + now rewrite !(step_skip _ _ _ Em).
  - inversion HK as [|? ? Htop Hrest]; subst.
    destruct (meaningful x) eqn:Em.
    + destruct (String.eqb_spec x "..") as [->|Hx].
      * rewrite (step_dotdot true (top :: rest)).
        destruct (String.eqb_spec top "..") as [->|Ht].
        -- change (rev (".." :: ".." :: rest))
             with (rev (".." :: rest) ++ [".."])%list.
           now rewrite walk_app.
        -- simpl rev. rewrite walk_app. simpl.
           rewrite (step_push false _ Htop Ht), step_dotdot.
           apply String.eqb_neq in Ht. now rewrite Ht.
      * rewrite (step_push true _ Em Hx).
        change (rev (x :: top :: rest)) with (rev (top :: rest) ++ [x])%list.
        now rewrite walk_app.
    + now rewrite !(step_skip _ _ _ Em).
Qed.

Lemma walk_walk_absolute l :
  walk false [] (rev (walk false [] l)) = walk false [] l.
Proof.
  assert (HD : Forall (fun s => s <> "..") (walk false [] l))
    by (apply walk_no_dotdot; constructor).
  assert (HM : Forall (fun s => meaningful s = true) (walk false [] l))
    by (apply walk_meaningful; constructor).
  rewrite walk_plain by (apply Forall_rev, HD).
  rewrite List.app_nil_r.
  assert (E : filter meaningful (rev (walk false [] l)) = rev (walk false [] l)).
  { apply Forall_rev in HM. induction HM as [|y r Hy _ IH]; simpl; [reflexivity|].
    now rewrite Hy, IH. }
  rewrite E. apply rev_involutive.
Qed.

(** A path without [".."] in it has no [".."] piece. *)
Lemma segments_no_dotdot p :
  includes p ".." = false -> Forall (fun s => s <> "..") (segments p).
Proof.
  intros H. apply Forall_forall. intros x Hx ->.
  unfold segments in Hx. apply filter_In in Hx. destruct Hx as [Hx _].
  apply split_includes in Hx. congruence.
Qed.

Lemma sapp_cancel_empty (x y : string) : x ++ y = x -> y = "".
Proof. induction x as [|c x IH]; simpl; [auto|]. intros E. apply IH. congruence. Qed.

(** The resolved form of a path joined to the sandbox directory, when
    the path has no [".."]: the resolved sandbox directory followed by
    the path's own pieces. *)
Section Sandbox.
Variables (cwd dir p : string).
Hypothesis (Hcwd : isAbsolute cwd = true).
Hypothesis (Hdir : dir <> "").
Hypothesis (Hp : includes p ".." = false).

Local Abbreviation root_stack := (Path.root_stack cwd dir).

Lemma resolve_root : resolve cwd dir = "/" ++ Str.join "/" (rev root_stack).
Proof. apply resolve_eq; assumption. Qed.

Lemma resolve_joined :
  resolve cwd (join dir (normalize p)) =
  "/" ++ Str.join "/" (rev root_stack ++ segments p)%list.
Proof.
  pose proof (segments_no_dotdot p Hp) as Hnd.
  pose proof (normalize_not_empty p) as Hn.
  assert (Enp : segments (normalize p) = segments p).
  { rewrite segments_normalize, walk_plain, List.app_nil_r, rev_involutive
      by exact Hnd.
    apply kept_filter, segments_kept. }
  rewrite resolve_eq by (auto using join_not_empty).
  unfold base_segments. rewrite isAbsolute_join by assumption.
  rewrite segments_join2 by assumption. rewrite Enp.
  f_equal. f_equal.
  rewrite (walk_app (negb (isAbsolute dir)) [] (segments dir) (segments p)).
  rewrite (walk_plain _ _ Hnd), (kept_filter (segments_kept p)).
  rewrite rev_app_distr, rev_involutive.
  rewrite List.app_assoc, (walk_app false [] _ (segments p)).
  rewrite (walk_plain _ _ Hnd), (kept_filter (segments_kept p)).
  rewrite rev_app_distr, rev_involutive. f_equal. f_equal.
  unfold Path.root_stack, base_segments. rewrite !walk_app.
  destruct (isAbsolute dir); simpl negb.
  - simpl. apply walk_walk_absolute.
  - apply walk_walk_relative.
Qed.

(** The executors' check [fullPath.startsWith(resolve(SANDBOX_DIR))]
    holds. *)
Lemma joined_startsWith_root :
  startsWith (resolve cwd (join dir (normalize p))) (resolve cwd dir) = true.
Proof.
  unfold startsWith. rewrite resolve_joined, resolve_root.
  destruct (rev root_stack) as [|r rs] eqn:Er.
  - simpl. destruct (Str.join "/" (segments p)); simpl;
      destruct (ascii_dec "/" "/"); congruence.
  - destruct (segments p) as [|s ss] eqn:Es.
    + rewrite List.app_nil_r. apply prefix_refl.
    + rewrite join_app by discriminate.
      change ("/" ++ ?x ++ ?y) with (("/" ++ x) ++ y).
      apply prefix_app.
Qed.

(** The resolved path is the sandbox directory or lies below it. *)
Lemma joined_below_or_equal :
  below_or_equal (resolve cwd dir) (resolve cwd (join dir (normalize p))) = true.
Proof.
  unfold below_or_equal, below. rewrite resolve_joined, resolve_root.
  destruct (segments p) as [|s ss] eqn:Es.
  - rewrite List.app_nil_r, String.eqb_refl. reflexivity.
  - assert (Hs : Str.join "/" (s :: ss) <> "").
    { intros E. pose proof (segments_kept p) as HK. rewrite Es in HK.
      apply join_empty in E; [discriminate|exact HK]. }
    apply orb_true_iff. right.
    destruct (rev root_stack) as [|r rs] eqn:Er.
    + simpl app. change ("/" ++ Str.join "/" []) with "/". simpl String.eqb.
      change ("/" ++ ?x) with (String "/" x).
      apply andb_true_iff. split.
      * simpl. destruct (ascii_dec "/" "/"); [|congruence].
        apply prefix_nil.
      * apply negb_true_iff, String.eqb_neq. exact Hs.
    + assert (Hr : Str.join "/" (r :: rs) <> "").
      { intros E.
        assert (HK : Forall kept (rev root_stack)).
        { apply Forall_rev. unfold Path.root_stack.
          apply walk_kept; [constructor|].
          apply Forall_app. unfold base_segments.
          split; [destruct (isAbsolute dir); [constructor|]|];
            apply kept_free, segments_kept. }
        rewrite Er in HK. apply join_empty in E; [discriminate|exact HK]. }
      assert (Hne : ("/" ++ Str.join "/" (r :: rs) =? "/")%string = false).
      { apply String.eqb_neq. intros E. apply Hr.
        change "/" with ("/" ++ "") in E at 2. simpl in E.
        injection E as E. exact E. }
      rewrite Hne. rewrite join_app by discriminate.
      replace ("/" ++ Str.join "/" (r :: rs) ++ "/" ++ Str.join "/" (s :: ss))
        with ((("/" ++ Str.join "/" (r :: rs)) ++ "/") ++ Str.join "/" (s :: ss))
        by (now rewrite !sapp_assoc).
      apply andb_true_iff. split; [apply prefix_app|].
      apply negb_true_iff, String.eqb_neq. intros E.
      apply sapp_cancel_empty in E. contradiction.
Qed.
End Sandbox.

End PathFacts.

(* ----------------------------------------------------------------- *)
(** ** The registry *)

Module ToolsFacts.
Import Js.

(** The three registrations succeed, in order. *)
Lemma toolRegistry_eq :
  Tools.toolRegistry =
  [("system-info", Sample.systemInfo); ("file-read", Sample.fileRead);
   ("file-write", Sample.fileWrite)].
Proof. reflexivity. Qed.

Lemma registrations_returned :
  Tools.registrations = Returned Tools.toolRegistry.
Proof. reflexivity. Qed.

(** A second registration under a name that is taken throws. *)
Lemma register_twice (T U : Type) (d : Mcp.ToolDefinition T)
  (e : Mcp.ToolExecutor T U) (tools : Tools.ToolRegistry) :
  Tools.has (Mcp.name d) tools = true ->
  Tools.register d e tools =
  Threw (ErrorObject ("Tool already registered: " ++ Mcp.name d)).
Proof. unfold Tools.register. intros ->. reflexivity. Qed.

Lemma get_cons (name k : string) (t : Mcp.RegisteredTool)
  (rest : Tools.ToolRegistry) :
  Tools.get name ((k, t) :: rest) =
  if (k =? name)%string then Some t else Tools.get name rest.
Proof. reflexivity. Qed.

(** The tools the server's registry resolves. *)
Lemma get_toolRegistry (name : string) (tool : Mcp.RegisteredTool) :
  Tools.get name Tools.toolRegistry = Some tool ->
  (name = "system-info" /\ tool = Sample.systemInfo)
  \/ (name = "file-read" /\ tool = Sample.fileRead)
  \/ (name = "file-write" /\ tool = Sample.fileWrite).
Proof.
  rewrite toolRegistry_eq, !get_cons.
  destruct (String.eqb_spec "system-info" name) as [<-|_].
  { intros H. inversion H. auto. }
  destruct (String.eqb_spec "file-read" name) as [<-|_].
  { intros H. inversion H. auto. }
  destruct (String.eqb_spec "file-write" name) as [<-|_].
  { intros H. inversion H. auto 6. }
  discriminate.
Qed.

End ToolsFacts.

(* ----------------------------------------------------------------- *)
(** ** The [/mcp/call] handler *)

Module ServerFacts.
Import Js Server.

(** The handler, case by case. *)
Section Cases.
Variables (registry : Tools.ToolRegistry) (host : Mcp.Host)
  (readings : Readings) (sink0 : AuditLogger.Sink) (request : Request).

Local Abbreviation o := (call registry host readings sink0 request).

Lemma call_invalid_request errors :
  Mcp.ToolCallRequestSchema (body request) = Zod.ZodError errors ->
  o = {| status := 400; reply := InvalidRequest errors;
         sink := sink0; fsEvents := []; context := None |}.
Proof. unfold call. intros ->. reflexivity. Qed.

Variable parsed : Mcp.ToolCallRequest.
Hypothesis Hparsed : Mcp.ToolCallRequestSchema (body request) = Zod.Ok parsed.

Lemma call_not_found :
  Tools.get (Mcp.req_tool parsed) registry = None ->
  o = {| status := 404;
         reply := ToolNotFound ("Tool not found: " ++ Mcp.req_tool parsed);
         sink := sink0; fsEvents := []; context := None |}.
Proof. unfold call. rewrite Hparsed. intros ->. reflexivity. Qed.

Variable tool : Mcp.RegisteredTool.
Hypothesis Htool : Tools.get (Mcp.req_tool parsed) registry = Some tool.

Lemma call_invalid_inputs errors :
  Mcp.inputSchema (Mcp.definition tool) (Mcp.req_inputs parsed)
  = Zod.ZodError errors ->
  o = {| status := 400;
         reply := InvalidToolInputs (Mcp.req_tool parsed) errors;
         sink := sink0; fsEvents := []; context := None |}.
Proof. unfold call. rewrite Hparsed, Htool. intros ->. reflexivity. Qed.

Lemma call_context :
  context o = None \/ context o = Some (built_context readings request tool).
Proof.
  unfold call. rewrite Hparsed, Htool.
  destruct (Mcp.inputSchema _ _) as [v|errors]; [|auto].
  destruct (Mcp.executor tool v _ host) as [[result|err] events]; auto.
Qed.

Lemma call_context_valid v :
  Mcp.inputSchema (Mcp.definition tool) (Mcp.req_inputs parsed) = Zod.Ok v ->
  context o = Some (built_context readings request tool).
Proof.
  unfold call. rewrite Hparsed, Htool. intros ->.
  destruct (Mcp.executor tool v _ host) as [[result|err] events]; auto.
Qed.

Lemma call_reply_dryRun r :
  reply o = CallResponse r ->
  Mcp.resp_dryRun r = Mcp.dryRun (built_context readings request tool).
Proof.
  unfold call. rewrite Hparsed, Htool.
  destruct (Mcp.inputSchema _ _) as [v|errors]; [|discriminate].
  destruct (Mcp.executor tool v _ host) as [[result|err] events];
    simpl; intros [= <-]; reflexivity.
Qed.

(** Once the inputs are valid, whatever the executor does -- return a
    success, return a failure, or throw -- exactly one entry is logged,
    and it agrees with the response. *)
Lemma call_valid_is_audited v :
  Mcp.inputSchema (Mcp.definition tool) (Mcp.req_inputs parsed) = Zod.Ok v ->
  exists entry r,
    sink o = (sink0 ++ [entry])%list
    /\ reply o = CallResponse r
    /\ Mcp.log_toolName entry = Mcp.resp_tool r
    /\ Mcp.log_dryRun entry = Mcp.resp_dryRun r
    /\ Mcp.log_result entry
       = (if Mcp.resp_success r then Mcp.audit_success else Mcp.audit_error)
    /\ Mcp.log_error entry = Mcp.resp_error r.
Proof.
  unfold call. rewrite Hparsed, Htool. intros ->.
  destruct (Mcp.executor tool v _ host) as [[result|err] events];
    eexists; eexists; simpl; repeat split; reflexivity.
Qed.
End Cases.

Lemma safety_eqb_dangerous (s : Mcp.ToolSafety) :
  Mcp.ToolSafety_eqb s Mcp.dangerous = true <-> s = Mcp.dangerous.
Proof. destruct s; simpl; split; congruence. Qed.

(** C1.  For a request that names a registered tool, the execution
    context the gateway builds has [dryRun = true] exactly when the
    definition found in the registry is classified [dangerous].  A
    context is built as soon as the inputs pass the tool's schema; the
    reply carries the same flag; and any other request for the same tool
    -- whatever its inputs, intent, request id, host or time -- gets the
    same flag. *)
Theorem dryRun_is_the_registry_classification
  (registry : Tools.ToolRegistry) (host : Mcp.Host) (readings : Readings)
  (sink0 : AuditLogger.Sink) (request : Request)
  (parsed : Mcp.ToolCallRequest) (tool : Mcp.RegisteredTool) :
  Mcp.ToolCallRequestSchema (body request) = Zod.Ok parsed ->
  Tools.get (Mcp.req_tool parsed) registry = Some tool ->
  let o := call registry host readings sink0 request in
  (forall v,
      Mcp.inputSchema (Mcp.definition tool) (Mcp.req_inputs parsed) = Zod.Ok v ->
      exists ctx, context o = Some ctx)
  /\ (forall ctx,
         context o = Some ctx ->
         (Mcp.dryRun ctx = true <->
          Mcp.safety (Mcp.definition tool) = Mcp.dangerous))
  /\ (forall ctx r,
         context o = Some ctx -> reply o = CallResponse r ->
         Mcp.resp_dryRun r = Mcp.dryRun ctx)
  /\ (forall host' readings' sink' request' parsed' ctx ctx',
         Mcp.ToolCallRequestSchema (body request') = Zod.Ok parsed' ->
         Mcp.req_tool parsed' = Mcp.req_tool parsed ->
         context o = Some ctx ->
         context (call registry host' readings' sink' request') = Some ctx' ->
         Mcp.dryRun ctx' = Mcp.dryRun ctx).
Proof.
  intros Hp Ht o. split; [|split; [|split]].
  - intros v Hv. eexists. eapply call_context_valid; eassumption.
  - intros ctx Hc.
    destruct (call_context registry host readings sink0 request Hp Ht)
      as [E|E]; fold o in E; rewrite E in Hc; [discriminate|].
    injection Hc as <-. apply safety_eqb_dangerous.
  - intros ctx r Hc Hr.
    destruct (call_context registry host readings sink0 request Hp Ht)
      as [E|E]; fold o in E; rewrite E in Hc; [discriminate|].
    injection Hc as <-.
    eapply call_reply_dryRun; eassumption.
  - intros host' readings' sink' request' parsed' ctx ctx' Hp' Hn Hc Hc'.
    destruct (call_context registry host readings sink0 request Hp Ht)
      as [E|E]; fold o in E; rewrite E in Hc; [discriminate|].
    rewrite <- Hn in Ht.
    destruct (call_context registry host' readings' sink' request' Hp' Ht)
      as [E'|E']; rewrite E' in Hc'; [discriminate|].
    injection Hc as <-. injection Hc' as <-. reflexivity.
Qed.

Lemma dryRun_is_the_registry_classification_witness :
  exists ctx,
    context (call Tools.toolRegistry Sample.host Sample.readings []
               (Sample.request "file-write" Sample.write_hello)) = Some ctx
    /\ Mcp.dryRun ctx = true.
Proof.
  destruct (@dryRun_is_the_registry_classification
              Tools.toolRegistry Sample.host Sample.readings []
              (Sample.request "file-write" Sample.write_hello)
              (Sample.parsed "file-write" Sample.write_hello)
              Sample.fileWrite eq_refl eq_refl)
    as (H1 & H2 & _).
  destruct (H1 _ eq_refl) as [ctx Hc].
  exists ctx. split; [exact Hc|]. apply (H2 ctx Hc). reflexivity.
Defined.

(** C3.  A request that names a registered tool but fails the tool's
    input schema is answered with status 400 and leaves the audit sink
    as it was: the handler returns before an audit entry exists.  Here
    for [file-read] asked to read ["../etc/passwd"], on any host, at any
    time, and with any sink. *)
Theorem invalid_inputs_leave_no_audit_entry
  (host : Mcp.Host) (readings : Readings) (sink0 : AuditLogger.Sink) :
  let o :=
    call Tools.toolRegistry host readings sink0
      (Sample.request "file-read" Sample.read_passwd) in
  Tools.get "file-read" Tools.toolRegistry = Some Sample.fileRead
  /\ status o = 400
  /\ reply o =
     InvalidToolInputs "file-read"
       [{| Zod.path := ["path"]; Zod.message := "Path traversal not allowed" |}]
  /\ sink o = sink0
  /\ context o = None.
Proof. repeat split. Qed.

(** Two attempts that leave no audit entry and are not lookups of an
    unknown tool: a body without a tool name (no lookup takes place),
    and a request for [file-read] with a path the schema refuses (the
    lookup succeeds). *)
Lemma unaudited_without_unresolved_lookup :
  let o1 :=
    call Tools.toolRegistry Sample.host Sample.readings []
      {| id := "req-1"; body := JObj [] |} in
  let o2 :=
    call Tools.toolRegistry Sample.host Sample.readings []
      (Sample.request "file-read" Sample.read_passwd) in
  (Mcp.ToolCallRequestSchema (JObj []) = Zod.ZodError [Zod.required "tool"]
   /\ status o1 = 400 /\ sink o1 = [])
  /\ (Tools.has "file-read" Tools.toolRegistry = true
      /\ status o2 = 400 /\ sink o2 = []).
Proof. repeat split. Qed.

(** C10.  A request whose tool name the registry does not resolve is
    answered with status 404 and an error that names the tool; nothing
    is appended to the audit sink, no executor runs and no context is
    built. *)
Theorem unknown_tool_is_not_found
  (registry : Tools.ToolRegistry) (host : Mcp.Host) (readings : Readings)
  (sink0 : AuditLogger.Sink) (request : Request)
  (parsed : Mcp.ToolCallRequest) :
  Mcp.ToolCallRequestSchema (body request) = Zod.Ok parsed ->
  Tools.get (Mcp.req_tool parsed) registry = None ->
  let o := call registry host readings sink0 request in
  status o = 404
  /\ reply o = ToolNotFound ("Tool not found: " ++ Mcp.req_tool parsed)
  /\ sink o = sink0
  /\ fsEvents o = []
  /\ context o = None.
Proof.
  intros Hp Hg o. unfold o.
  rewrite (call_not_found registry host readings sink0 request Hp Hg).
  repeat split.
Qed.

Lemma unknown_tool_is_not_found_witness :
  let o :=
    call Tools.toolRegistry Sample.host Sample.readings []
      (Sample.request "file-delete" []) in
  status o = 404
  /\ reply o = ToolNotFound "Tool not found: file-delete"
  /\ sink o = []
  /\ fsEvents o = []
  /\ context o = None.
Proof.
  apply (@unknown_tool_is_not_found Tools.toolRegistry Sample.host
           Sample.readings [] (Sample.request "file-delete" [])
           (Sample.parsed "file-delete" [])); reflexivity.
Defined.

End ServerFacts.

(* ----------------------------------------------------------------- *)
(** ** The tools: schemas and executors *)

Module ToolFacts.
Import Js Notions.

Lemma or_else_not_empty (a : option string) (b : string) :
  b <> "" -> or_else a b <> "".
Proof.
  intros Hb. unfold or_else. destruct a as [s|]; [|exact Hb].
  destruct (String.eqb_spec s ""); assumption.
Qed.

Lemma string_field_ok key checks v p :
  Zod.string_field key checks v = (Some p, []) ->
  v = Some (JStr p) /\ checks p = [].
Proof.
  unfold Zod.string_field. destruct v as [[]|]; try discriminate.
  intros [= -> H]. split; [reflexivity|].
  destruct (checks p); [reflexivity|discriminate].
Qed.

Lemma refine_ok check msg s : Zod.refine check msg s = [] -> check s = true.
Proof. unfold Zod.refine. destruct (check s); [reflexivity|discriminate]. Qed.

(** The two [path] fields carry the same checks. *)
Lemma path_checks_same p : FileWrite.path_checks p = FileRead.path_checks p.
Proof. reflexivity. Qed.

Lemma path_checks_ok p :
  FileRead.path_checks p = [] -> Str.includes p ".." = false.
Proof.
  unfold FileRead.path_checks. intros H. apply app_eq_nil in H.
  destruct H as [_ H]. apply refine_ok in H.
  now apply negb_true_iff in H.
Qed.

Lemma path_checks_traversal p :
  Str.includes p ".." = true ->
  In "Path traversal not allowed" (FileRead.path_checks p).
Proof.
  intros H. unfold FileRead.path_checks, Zod.refine. rewrite H. simpl.
  apply in_or_app. right. left. reflexivity.
Qed.

Lemma path_field_traversal checks fields p :
  (forall q, Str.includes q ".." = true ->
             In "Path traversal not allowed" (checks q)) ->
  lookup "path" fields = Some (JStr p) ->
  Str.includes p ".." = true ->
  exists v, Zod.string_field "path" checks (lookup "path" fields)
            = (v, snd (Zod.string_field "path" checks (lookup "path" fields)))
            /\ In traversal (snd (Zod.string_field "path" checks (lookup "path" fields))).
Proof.
  intros Hc -> Hp. simpl. eexists. split; [reflexivity|].
  apply (in_map (fun m => {| Zod.path := ["path"]; Zod.message := m |})
           _ _ (Hc p Hp)).
Qed.

(** What [file-read]'s schema lets through. *)
Lemma fileRead_schema_ok v input :
  FileRead.fileReadInputSchema v = Zod.Ok input ->
  Str.includes (FileRead.path input) ".." = false.
Proof.
  unfold FileRead.fileReadInputSchema. destruct v; try discriminate.
  destruct (Zod.string_field "path" _ _) as [[p|] [|i1 e1]] eqn:E1;
    destruct (Zod.int_field "maxBytes" _ _ _ _) as [[m|] [|i2 e2]];
    destruct (Zod.enum_field "encoding" _ _ _) as [[e|] [|i3 e3]];
    try discriminate.
  intros [= <-]. simpl. apply string_field_ok in E1.
  apply path_checks_ok, E1.
Qed.

Lemma fileRead_schema_traversal fields p :
  lookup "path" fields = Some (JStr p) ->
  Str.includes p ".." = true ->
  exists errors,
    FileRead.fileReadInputSchema (JObj fields) = Zod.ZodError errors
    /\ In traversal errors.
Proof.
  intros Hl Hp. unfold FileRead.fileReadInputSchema.
  destruct (path_field_traversal FileRead.path_checks fields
              path_checks_traversal Hl Hp) as (v & E & Hin).
  rewrite E. destruct (snd _) as [|i1 e1] eqn:E1; [destruct Hin|].
  destruct (Zod.int_field "maxBytes" _ _ _ _) as [m e2];
    destruct (Zod.enum_field "encoding" _ _ _) as [e e3].
  exists ((i1 :: e1) ++ e2 ++ e3)%list. split.
  - destruct v, m as [m|], e2, e as [e|], e3; reflexivity.
  - apply in_or_app. left. exact Hin.
Qed.

(** What [file-write]'s schema lets through. *)
Lemma fileWrite_schema_ok v input :
  FileWrite.fileWriteInputSchema v = Zod.Ok input ->
  Str.includes (FileWrite.path input) ".." = false.
Proof.
  unfold FileWrite.fileWriteInputSchema. destruct v; try discriminate.
  destruct (Zod.string_field "path" _ _) as [[p|] [|i1 e1]] eqn:E1;
    destruct (Zod.string_field "content" _ _) as [[c|] [|i2 e2]];
    destruct (Zod.enum_field "mode" _ _ _) as [[m|] [|i3 e3]];
    destruct (Zod.boolean_field "createDirs" _ _) as [[d|] [|i4 e4]];
    try discriminate.
  intros [= <-]. simpl. apply string_field_ok in E1.
  apply path_checks_ok, E1.
Qed.

Lemma fileWrite_schema_traversal fields p :
  lookup "path" fields = Some (JStr p) ->
  Str.includes p ".." = true ->
  exists errors,
    FileWrite.fileWriteInputSchema (JObj fields) = Zod.ZodError errors
    /\ In traversal errors.
Proof.
  intros Hl Hp. unfold FileWrite.fileWriteInputSchema.
  destruct (path_field_traversal FileWrite.path_checks fields
              path_checks_traversal Hl Hp) as (v & E & Hin).
  rewrite E. destruct (snd _) as [|i1 e1] eqn:E1; [destruct Hin|].
  destruct (Zod.string_field "content" _ _) as [c e2];
    destruct (Zod.enum_field "mode" _ _ _) as [m e3];
    destruct (Zod.boolean_field "createDirs" _ _) as [d e4].
  exists ((i1 :: e1) ++ e2 ++ e3 ++ e4)%list. split.
  - destruct v, c as [c|], e2, m as [m|], e3, d as [d|], e4; reflexivity.
  - apply in_or_app. left. exact Hin.
Qed.

(** ** [file-write] *)

Lemma fileWrite_sandbox_not_empty host : FileWrite.SANDBOX_DIR host <> "".
Proof. apply or_else_not_empty. discriminate. Qed.

Lemma fileRead_sandbox_not_empty host : FileRead.SANDBOX_DIR host <> "".
Proof. apply or_else_not_empty. discriminate. Qed.

(** The executor performs no file system operation, whatever it is given. *)
Lemma fileWrite_touches_nothing input ctx host :
  snd (FileWrite.fileWriteExecutor input ctx host) = [].
Proof.
  unfold FileWrite.fileWriteExecutor.
  destruct (negb _); [reflexivity|]. destruct (Mcp.dryRun ctx); reflexivity.
Qed.

(** Outside dry-run mode the executor refuses. *)
Lemma fileWrite_refuses input ctx host :
  Mcp.dryRun ctx = false ->
  exists r,
    FileWrite.fileWriteExecutor input ctx host = (Returned r, [])
    /\ Mcp.success r = false
    /\ Mcp.data r = None
    /\ is_some (Mcp.error r) = true.
Proof.
  intros Hd. unfold FileWrite.fileWriteExecutor. rewrite Hd.
  destruct (negb _); eexists; repeat split.
Qed.

(** In dry-run mode, on a path without [".."], the executor simulates. *)
Lemma fileWrite_simulates input ctx host :
  Path.isAbsolute (Mcp.cwd host) = true ->
  Str.includes (FileWrite.path input) ".." = false ->
  Mcp.dryRun ctx = true ->
  exists r action,
    FileWrite.fileWriteExecutor input ctx host = (Returned r, [])
    /\ Mcp.success r = true
    /\ Mcp.simulatedAction r = Some action
    /\ truthy (Some action) = true.
Proof.
  intros Hc Hp Hd. unfold FileWrite.fileWriteExecutor.
  rewrite (@PathFacts.joined_startsWith_root (Mcp.cwd host) _ _ Hc
             (fileWrite_sandbox_not_empty host) Hp), Hd.
  simpl negb. cbv iota. eexists. eexists. repeat split.
Qed.

(** [file-write] is the registry's only dangerous tool. *)
Lemma dangerous_is_fileWrite name tool :
  Tools.get name Tools.toolRegistry = Some tool ->
  Mcp.safety (Mcp.definition tool) = Mcp.dangerous ->
  name = "file-write" /\ tool = Sample.fileWrite.
Proof.
  intros Hg Hs. apply ToolsFacts.get_toolRegistry in Hg.
  destruct Hg as [[-> ->]|[[-> ->]|[-> ->]]]; try discriminate Hs. auto.
Qed.

(** C2.  Invoking the registered dangerous tool, [file-write], with any
    inputs performs no file system operation.  Inputs the schema refuses
    are answered without running the executor; on all others the
    executor runs with [dryRun = true] and the reply is a success that
    carries a [simulatedAction].  Called with [dryRun = false], the
    executor returns a failure with an error message, and it performs no
    file system operation on any input in any context. *)
Theorem file_write_never_writes
  (host : Mcp.Host) (readings : Server.Readings) (sink0 : AuditLogger.Sink)
  (request : Server.Request) (parsed : Mcp.ToolCallRequest)
  (tool : Mcp.RegisteredTool) :
  Path.isAbsolute (Mcp.cwd host) = true ->
  Mcp.ToolCallRequestSchema (Server.body request) = Zod.Ok parsed ->
  Tools.get (Mcp.req_tool parsed) Tools.toolRegistry = Some tool ->
  Mcp.safety (Mcp.definition tool) = Mcp.dangerous ->
  let o := Server.call Tools.toolRegistry host readings sink0 request in
  tool = Sample.fileWrite
  /\ Server.fsEvents o = []
  /\ match FileWrite.fileWriteInputSchema (Mcp.req_inputs parsed) with
     | Zod.ZodError errors =>
         Server.reply o = Server.InvalidToolInputs (Mcp.req_tool parsed) errors
         /\ Server.context o = None
     | Zod.Ok _ =>
         exists ctx r action,
           Server.context o = Some ctx
           /\ Mcp.dryRun ctx = true
           /\ Server.reply o = Server.CallResponse r
           /\ Mcp.resp_success r = true
           /\ Mcp.resp_dryRun r = true
           /\ Mcp.resp_simulatedAction r = Some action
           /\ action <> ""
     end
  /\ (forall input ctx host',
         Mcp.dryRun ctx = false ->
         exists r,
           FileWrite.fileWriteExecutor input ctx host' = (Returned r, [])
           /\ Mcp.success r = false
           /\ Mcp.data r = None
           /\ is_some (Mcp.error r) = true)
  /\ (forall input ctx host',
         snd (FileWrite.fileWriteExecutor input ctx host') = []).
Proof.
  intros Hc Hp Hg Hs o.
  destruct (dangerous_is_fileWrite _ Hg Hs) as [Hn ->].
  split; [reflexivity|].
  assert (Ho : (Server.fsEvents o = []) /\
    match FileWrite.fileWriteInputSchema (Mcp.req_inputs parsed) with
    | Zod.ZodError errors =>
        Server.reply o = Server.InvalidToolInputs (Mcp.req_tool parsed) errors
        /\ Server.context o = None
    | Zod.Ok _ =>
        exists ctx r action,
          Server.context o = Some ctx
          /\ Mcp.dryRun ctx = true
          /\ Server.reply o = Server.CallResponse r
          /\ Mcp.resp_success r = true
          /\ Mcp.resp_dryRun r = true
          /\ Mcp.resp_simulatedAction r = Some action
          /\ action <> ""
    end).
  { unfold o, Server.call. rewrite Hp, Hg.
    change (Mcp.inputSchema (Mcp.definition Sample.fileWrite))
      with FileWrite.fileWriteInputSchema.
    destruct (FileWrite.fileWriteInputSchema (Mcp.req_inputs parsed))
      as [input|errors] eqn:Ev; [|repeat split].
    change (Mcp.executor Sample.fileWrite) with FileWrite.fileWriteExecutor.
    change (Mcp.ToolSafety_eqb (Mcp.safety (Mcp.definition Sample.fileWrite))
              Mcp.dangerous) with true.
    match goal with
    | |- context [FileWrite.fileWriteExecutor input ?c host] =>
        destruct (@fileWrite_simulates input c host Hc
                    (fileWrite_schema_ok _ Ev) eq_refl)
          as (r & action & -> & Hr & Ha & Ht)
    end.
    simpl. split; [reflexivity|].
    eexists. eexists. exists action. rewrite Hr, Ha, Ht.
    repeat split. intros ->. discriminate Ht. }
  destruct Ho as [Ho1 Ho2].
  split; [exact Ho1|]. split; [exact Ho2|].
  split; [apply fileWrite_refuses|apply fileWrite_touches_nothing].
Qed.

Lemma file_write_never_writes_witness :
  let o :=
    Server.call Tools.toolRegistry Sample.host Sample.readings []
      (Sample.request "file-write" Sample.write_hello) in
  Server.fsEvents o = []
  /\ exists r,
       Server.reply o = Server.CallResponse r
       /\ Mcp.resp_success r = true
       /\ Mcp.resp_dryRun r = true
       /\ is_some (Mcp.resp_simulatedAction r) = true.
Proof.
  destruct (@file_write_never_writes Sample.host Sample.readings []
              (Sample.request "file-write" Sample.write_hello)
              (Sample.parsed "file-write" Sample.write_hello)
              Sample.fileWrite eq_refl eq_refl eq_refl eq_refl)
    as (_ & H1 & H2 & _).
  split; [exact H1|].
  destruct H2 as (ctx & r & action & _ & _ & Hr & Hs & Hd & Ha & _).
  exists r. rewrite Ha. repeat split; assumption.
Defined.

(** ** [file-read] and the sandbox *)

(** The executor on a path its own check lets through: the file is read. *)
Lemma fileRead_checked input ctx host :
  Str.startsWith
    (Path.resolve (Mcp.cwd host)
       (Path.join (FileRead.SANDBOX_DIR host) (Path.normalize (FileRead.path input))))
    (Path.resolve (Mcp.cwd host) (FileRead.SANDBOX_DIR host)) = true ->
  snd (FileRead.fileReadExecutor input ctx host) =
  [Mcp.FsRead
     (Path.resolve (Mcp.cwd host)
        (Path.join (FileRead.SANDBOX_DIR host) (Path.normalize (FileRead.path input))))].
Proof.
  intros H. unfold FileRead.fileReadExecutor. rewrite H. simpl negb. cbv iota.
  destruct (Mcp.readFile host _) as [buffer|err]; [|reflexivity].
  destruct (_ >? _); reflexivity.
Qed.

(** The executors' own check: a resolved path that does not start with
    the resolved sandbox directory is refused before anything is read. *)
Lemma fileRead_escape input ctx host :
  Str.startsWith
    (Path.resolve (Mcp.cwd host)
       (Path.join (FileRead.SANDBOX_DIR host) (Path.normalize (FileRead.path input))))
    (Path.resolve (Mcp.cwd host) (FileRead.SANDBOX_DIR host)) = false ->
  FileRead.fileReadExecutor input ctx host =
  (Returned (FileRead.failure _ "Path escapes sandbox directory"), []).
Proof. intros H. unfold FileRead.fileReadExecutor. now rewrite H. Qed.

Lemma fileWrite_escape input ctx host :
  Str.startsWith
    (Path.resolve (Mcp.cwd host)
       (Path.join (FileWrite.SANDBOX_DIR host) (Path.normalize (FileWrite.path input))))
    (Path.resolve (Mcp.cwd host) (FileWrite.SANDBOX_DIR host)) = false ->
  FileWrite.fileWriteExecutor input ctx host =
  (Returned
     {| Mcp.success := false; Mcp.data := None;
        Mcp.error := Some "Path escapes sandbox directory";
        Mcp.simulatedAction := None |}, []).
Proof. intros H. unfold FileWrite.fileWriteExecutor. now rewrite H. Qed.

(** A path that resolves outside the sandbox directory contains [".."]. *)
Lemma outside_has_dotdot host p :
  Path.isAbsolute (Mcp.cwd host) = true ->
  Path.below_or_equal (sandbox_root host) (resolved host p) = false ->
  Str.includes p ".." = true.
Proof.
  intros Hc Ho. destruct (Str.includes p "..") eqn:E; [reflexivity|].
  unfold sandbox_root, resolved in Ho.
  rewrite (@PathFacts.joined_below_or_equal (Mcp.cwd host) _ _ Hc
             (fileRead_sandbox_not_empty host) E) in Ho.
  discriminate.
Qed.

(** An absolute-looking path is joined under the sandbox directory. *)
Lemma absolute_looking_path_stays_inside :
  resolved Sample.host "/etc/passwd" = "/tmp/mcp-sandbox/etc/passwd"
  /\ Path.below (sandbox_root Sample.host) (resolved Sample.host "/etc/passwd")
     = true.
Proof. split; reflexivity. Qed.

(** The gateway asked to read the sandbox directory itself (["."]): the
    path does not resolve below the directory, yet the schema and the
    executor's check let it through, [readFile] is called on the
    directory, and the failure reported is the one of [readFile]. *)
Lemma sandbox_root_is_read :
  let o :=
    Server.call Tools.toolRegistry Sample.host Sample.readings []
      (Sample.request "file-read" Sample.read_root) in
  resolved Sample.host "." = "/tmp/mcp-sandbox"
  /\ sandbox_root Sample.host = "/tmp/mcp-sandbox"
  /\ Path.below (sandbox_root Sample.host) (resolved Sample.host ".") = false
  /\ Server.fsEvents o = [Mcp.FsRead "/tmp/mcp-sandbox"]
  /\ Server.status o = 422
  /\ exists r,
       Server.reply o = Server.CallResponse r
       /\ Mcp.resp_error r
          = Some "Failed to read file: EISDIR: illegal operation on a directory, read".
Proof. repeat split. eexists. split; reflexivity. Qed.

(** C4.  A caller-supplied path given to [file-read] or [file-write]
    through the gateway that resolves neither to the sandbox directory
    nor below it is refused by the tool's input schema (such a path
    contains [".."]): the reply is the 400 [Invalid tool inputs] with the
    issue [Path traversal not allowed], no executor runs and the file
    system is not touched.  The executors themselves refuse, before any
    file system operation, every path whose resolved form does not start
    with the resolved sandbox directory. *)
Theorem escaping_path_is_refused
  (host : Mcp.Host) (readings : Server.Readings) (sink0 : AuditLogger.Sink)
  (request : Server.Request) (parsed : Mcp.ToolCallRequest)
  (fields : list (string * value)) (p : string) :
  Path.isAbsolute (Mcp.cwd host) = true ->
  Mcp.ToolCallRequestSchema (Server.body request) = Zod.Ok parsed ->
  Mcp.req_tool parsed = "file-read" \/ Mcp.req_tool parsed = "file-write" ->
  Mcp.req_inputs parsed = JObj fields ->
  lookup "path" fields = Some (JStr p) ->
  Path.below_or_equal (sandbox_root host) (resolved host p) = false ->
  let o := Server.call Tools.toolRegistry host readings sink0 request in
  (Server.status o = 400
   /\ (exists errors,
          Server.reply o = Server.InvalidToolInputs (Mcp.req_tool parsed) errors
          /\ In traversal errors)
   /\ Server.fsEvents o = []
   /\ Server.context o = None)
  /\ (forall input ctx,
         Str.startsWith (resolved host (FileRead.path input)) (sandbox_root host)
         = false ->
         FileRead.fileReadExecutor input ctx host =
         (Returned (FileRead.failure _ "Path escapes sandbox directory"), []))
  /\ (forall input ctx,
         Str.startsWith (resolved host (FileWrite.path input)) (sandbox_root host)
         = false ->
         FileWrite.fileWriteExecutor input ctx host =
         (Returned (FileRead.failure _ "Path escapes sandbox directory"), [])).
Proof.
  intros Hc Hp Ht Hi Hl Ho o.
  pose proof (outside_has_dotdot host p Hc Ho) as Hd.
  split; [|split; intros input ctx H;
           [apply fileRead_escape|apply fileWrite_escape]; exact H].
  destruct Ht as [Ht|Ht].
  - destruct (fileRead_schema_traversal fields Hl Hd) as (errors & He & Hin).
    assert (Hg : Tools.get (Mcp.req_tool parsed) Tools.toolRegistry
                 = Some Sample.fileRead) by (rewrite Ht; reflexivity).
    unfold o.
    rewrite (@ServerFacts.call_invalid_inputs Tools.toolRegistry host readings
               sink0 request parsed Hp Sample.fileRead Hg errors)
      by (rewrite Hi; exact He).
    simpl. repeat split. exists errors. split; [reflexivity|exact Hin].
  - destruct (fileWrite_schema_traversal fields Hl Hd) as (errors & He & Hin).
    assert (Hg : Tools.get (Mcp.req_tool parsed) Tools.toolRegistry
                 = Some Sample.fileWrite) by (rewrite Ht; reflexivity).
    unfold o.
    rewrite (@ServerFacts.call_invalid_inputs Tools.toolRegistry host readings
               sink0 request parsed Hp Sample.fileWrite Hg errors)
      by (rewrite Hi; exact He).
    simpl. repeat split. exists errors. split; [reflexivity|exact Hin].
Qed.

Lemma escaping_path_is_refused_witness :
  let o :=
    Server.call Tools.toolRegistry Sample.host Sample.readings []
      (Sample.request "file-read" Sample.read_passwd) in
  resolved Sample.host "../etc/passwd" = "/tmp/etc/passwd"
  /\ Server.status o = 400
  /\ Server.fsEvents o = []
  /\ Server.context o = None
  /\ FileRead.fileReadExecutor Sample.passwd Sample.wet Sample.host =
     (Returned (FileRead.failure _ "Path escapes sandbox directory"), []).
Proof.
  destruct (@escaping_path_is_refused Sample.host Sample.readings []
              (Sample.request "file-read" Sample.read_passwd)
              (Sample.parsed "file-read" Sample.read_passwd)
              Sample.read_passwd "../etc/passwd"
              eq_refl eq_refl (or_introl eq_refl) eq_refl eq_refl eq_refl)
    as ((H1 & _ & H3 & H4) & H5 & _).
  split; [reflexivity|]. split; [exact H1|]. split; [exact H3|].
  split; [exact H4|]. apply H5. reflexivity.
Defined.

(** The check compares strings: handed a path into a sibling directory
    whose name starts like the sandbox directory's, the executor reads
    it.  (Through the gateway the schema refuses such a path first.) *)
Lemma sibling_directory_passes_the_check :
  snd (FileRead.fileReadExecutor
         {| FileRead.path := "../mcp-sandbox-2/secret";
            FileRead.maxBytes := 10000;
            FileRead.encoding := FileRead.utf8 |}
         Sample.wet Sample.host)
  = [Mcp.FsRead "/tmp/mcp-sandbox-2/secret"].
Proof. reflexivity. Qed.

(** ** The shape of execution results *)

Lemma systemInfo_result input ctx host :
  exists r events,
    SystemInfo.systemInfoExecutor input ctx host = (Returned r, events)
    /\ well_shaped r.
Proof. eexists. eexists. split; [reflexivity|split; reflexivity]. Qed.

Lemma fileRead_result input ctx host :
  exists r events,
    FileRead.fileReadExecutor input ctx host = (Returned r, events)
    /\ well_shaped r.
Proof.
  unfold FileRead.fileReadExecutor. destruct (negb _).
  { eexists. eexists. split; [reflexivity|split; reflexivity]. }
  destruct (Mcp.readFile host _) as [buffer|err].
  - destruct (_ >? _); eexists; eexists;
      (split; [reflexivity|split; reflexivity]).
  - eexists. eexists. split; [reflexivity|split; reflexivity].
Qed.

Lemma fileWrite_result input ctx host :
  exists r events,
    FileWrite.fileWriteExecutor input ctx host = (Returned r, events)
    /\ well_shaped r.
Proof.
  unfold FileWrite.fileWriteExecutor. destruct (negb _).
  { eexists. eexists. split; [reflexivity|split; reflexivity]. }
  destruct (Mcp.dryRun ctx); eexists; eexists;
    (split; [reflexivity|split; reflexivity]).
Qed.

(** A dry run of [file-write] is a pure simulation, and its result
    carries a data payload all the same. *)
Lemma simulation_carries_data :
  exists r,
    FileWrite.fileWriteExecutor Sample.hello Sample.dry Sample.host
    = (Returned r, [])
    /\ Mcp.success r = true
    /\ Mcp.simulatedAction r
       = Some "Would overwrite 5 bytes to /tmp/mcp-sandbox/hello.txt"
    /\ Mcp.data r
       = Some {| FileWrite.out_path := "hello.txt";
                 FileWrite.out_bytesWritten := 5;
                 FileWrite.out_mode := FileWrite.overwrite |}.
Proof. eexists. repeat split. Qed.

(** C5.  Every executor of the registry returns a result, on every
    input, in every context and on every host; in that result the data
    payload is present exactly when the execution succeeded (a simulated
    [file-write] included), and the error message is present exactly
    when it did not. *)
Theorem result_shape
  (name : string) (tool : Mcp.RegisteredTool)
  (input : Mcp.TInput tool) (ctx : Mcp.ExecutionContext) (host : Mcp.Host) :
  Tools.get name Tools.toolRegistry = Some tool ->
  exists r events,
    Mcp.executor tool input ctx host = (Returned r, events)
    /\ (is_some (Mcp.data r) = true <-> Mcp.success r = true)
    /\ (is_some (Mcp.error r) = true <-> Mcp.success r = false).
Proof.
  intros Hg. apply ToolsFacts.get_toolRegistry in Hg.
  assert (H : exists r events,
             Mcp.executor tool input ctx host = (Returned r, events)
             /\ well_shaped r).
  { destruct Hg as [[_ ->]|[[_ ->]|[_ ->]]];
      [apply systemInfo_result|apply fileRead_result|apply fileWrite_result]. }
  destruct H as (r & events & E & Hd & He).
  exists r, events. split; [exact E|]. rewrite Hd, He.
  destruct (Mcp.success r); simpl; split; split; congruence.
Qed.

Lemma result_shape_witness :
  exists r events,
    FileWrite.fileWriteExecutor Sample.hello Sample.dry Sample.host
    = (Returned r, events)
    /\ (is_some (Mcp.data r) = true <-> Mcp.success r = true)
    /\ (is_some (Mcp.error r) = true <-> Mcp.success r = false).
Proof.
  exact (@result_shape "file-write" Sample.fileWrite Sample.hello Sample.dry
           Sample.host eq_refl).
Defined.

End ToolFacts.

(* ----------------------------------------------------------------- *)
(** ** Permission-constrained agents *)

Module BaseFacts.
Import Js Outside Client Base.

Lemma canUseTool_In agent toolName :
  canUseTool agent toolName = true <-> In toolName (allowedTools agent).
Proof.
  unfold canUseTool. rewrite existsb_exists. split.
  - intros (t & Hin & E). apply String.eqb_eq in E. now subst.
  - intros Hin. exists toolName. split; [exact Hin|apply String.eqb_refl].
Qed.

(** A wrapper posts one request, for the tool it was made for. *)
Lemma wrapper_posts w client toolName agentName inputs st res st' :
  func (createMCPToolWrapper w client toolName agentName) inputs st = (res, st') ->
  exists request,
    Outside.tool request = toolName
    /\ posted st' = (posted st ++ [request])%list
    /\ runs st' = runs st.
Proof.
  intros H.
  exists {| Outside.tool := toolName;
            Outside.inputs := inputs;
            Outside.intent :=
              Some ("Agent " ++ quote ++ agentName ++ quote ++ " calling "
                    ++ toolName) |}.
  split; [reflexivity|].
  unfold createMCPToolWrapper, func, bind, callTool in H.
  match type of H with
  | context [post_call w st ?r] => destruct (post_call w st r) as [response|e]
  end.
  - destruct (negb (success response)); injection H as _ <-;
      split; reflexivity.
  - injection H as _ <-. split; reflexivity.
Qed.

Lemma toolsByName_In tools name t : toolsByName tools name = Some t -> In t tools.
Proof.
  unfold toolsByName. intros H. apply find_some in H. destruct H as [H _].
  now apply in_rev in H.
Qed.

(** One call posts at most one request, for a tool of the list. *)
Lemma act_posts w client allowed agentName call st o st' :
  act w (createMCPToolWrappers w client allowed agentName) call st = (o, st') ->
  exists new,
    posted st' = (posted st ++ new)%list
    /\ Forall (fun r => In (Outside.tool r) allowed) new
    /\ runs st' = runs st.
Proof.
  unfold act.
  destruct (toolsByName _ _) as [t|] eqn:Ef.
  - apply toolsByName_In in Ef. unfold createMCPToolWrappers in Ef.
    apply in_map_iff in Ef. destruct Ef as (toolName & <- & Hallowed).
    destruct (schema _ _) as [parsed|].
    + destruct (func _ parsed st) as [[observation|e] st1] eqn:Ew;
        apply wrapper_posts in Ew;
        destruct Ew as (request & Hname & Hposted & Hruns);
        intros [= <- <-]; exists [request];
        (split; [exact Hposted|]); (split; [|exact Hruns]);
        (constructor; [now rewrite Hname|constructor]).
    + intros [= <- <-]. exists []. rewrite List.app_nil_r. auto.
  - intros [= <- <-]. exists []. rewrite List.app_nil_r. auto.
Qed.

Lemma act_all_posts w client allowed agentName calls : forall st os st',
  act_all w (createMCPToolWrappers w client allowed agentName) calls st = (os, st') ->
  exists new,
    posted st' = (posted st ++ new)%list
    /\ Forall (fun r => In (Outside.tool r) allowed) new
    /\ runs st' = runs st.
Proof.
  induction calls as [|call calls IH]; intros st os st'; cbn [act_all].
  - intros [= <- <-]. exists []. rewrite List.app_nil_r. auto.
  - destruct (act _ _ call st) as [o st1] eqn:Ea.
    destruct (act_all _ _ calls st1) as [os' st2] eqn:Er.
    intros [= <- <-]. apply act_posts in Ea. apply IH in Er.
    destruct Ea as (new1 & Hp1 & Hall1 & Hr1).
    destruct Er as (new2 & Hp2 & Hall2 & Hr2).
    exists (new1 ++ new2)%list. rewrite Hp2, Hp1, Hr2, Hr1, List.app_assoc.
    split; [reflexivity|]. split; [now apply Forall_app|reflexivity].
Qed.

(** The agent loop over the wrappers made for [allowed] posts requests
    for tools in [allowed] only, however the model answers. *)
Lemma iterate_posts w client allowed agentName prompt input fuel :
  forall observations st res st',
    iterate w (createMCPToolWrappers w client allowed agentName)
      prompt input fuel observations st = (res, st') ->
    exists new,
      posted st' = (posted st ++ new)%list
      /\ Forall (fun r => In (Outside.tool r) allowed) new
      /\ runs st' = runs st.
Proof.
  induction fuel as [|fuel IH]; intros observations st res st' H.
  - injection H as _ <-. exists []. rewrite List.app_nil_r. auto.
  - simpl in H. unfold bind, ask_model in H.
    destruct (model w st prompt input observations) as [out|calls|e].
    + injection H as _ <-. exists []. simpl. rewrite List.app_nil_r. auto.
    + destruct (act_all _ _ calls _) as [os st1] eqn:Ea.
      apply act_all_posts in Ea. destruct Ea as (new1 & Hp1 & Hall1 & Hr1).
      simpl in Hp1, Hr1.
      destruct (settle os) as [new|e].
      * apply IH in H. destruct H as (new2 & Hp2 & Hall2 & Hr2).
        exists (new1 ++ new2)%list. rewrite Hp2, Hp1, Hr2, Hr1, List.app_assoc.
        split; [reflexivity|]. split; [now apply Forall_app|reflexivity].
      * injection H as _ <-. exists new1. auto.
    + injection H as _ <-. exists []. simpl. rewrite List.app_nil_r. auto.
Qed.

(** What [create] returns. *)
Lemma create_returned w config st agent st1 :
  create w config st = (Returned agent, st1) ->
  st1 = st
  /\ name agent = cfg_name config
  /\ allowedTools agent = cfg_allowedTools config
  /\ tools (executor agent)
     = createMCPToolWrappers w (cfg_mcpClient config) (cfg_allowedTools config)
         (cfg_name config)
  /\ systemPrompt (executor agent) = cfg_systemPrompt config.
Proof.
  unfold create. destruct (construct w st); [discriminate|].
  intros [= <- <-]. repeat split.
Qed.

(** No allow-list check stands before the gateway, and nothing is
    thrown for a tool outside the list.  The inspector agent may not use
    [file-write]: when the model asks it for [file_write], the run goes
    on and returns normally, since the agent holds no tool of that name.
    A wrapper made for [file-write] under the inspector's name posts the
    call all the same. *)
Lemma wrapper_forwards_without_check :
  exists agent,
    create Sample.world Sample.inspector initial = (Returned agent, initial)
    /\ canUseTool agent "file-write" = false
    /\ model Sample.world initial (cfg_systemPrompt Sample.inspector)
         "check memory" []
       = UseTool "file_write" (JObj Sample.write_hello)
    /\ fst (run Sample.world agent "check memory" initial)
       = Returned {| output := "done"; toolCalls := [] |}
    /\ exists out st,
         func (createMCPToolWrapper Sample.world (mcpClient agent) "file-write"
                 (name agent))
           (JObj Sample.write_hello) initial
         = (Returned out, st)
         /\ map Outside.tool (posted st) = ["file-write"].
Proof.
  eexists. split; [reflexivity|]. split; [reflexivity|].
  split; [reflexivity|]. split; [vm_compute; reflexivity|].
  eexists. eexists. split; [vm_compute; reflexivity|reflexivity].
Qed.

(** C6.  [canUseTool] is membership in the allow-list the agent was
    created with.  The agent's tools are the wrappers made for the names
    of that list, one each, and every request a run of the agent posts
    to the gateway is for a tool of the list, whatever the model asks
    for; a tool name outside the list has no wrapper and is answered
    locally with an observation. *)
Theorem agent_reaches_only_allowed_tools
  (w : World) (config : AgentConfig) (st st1 st2 : State)
  (agent : ConstrainedAgent) (input : string)
  (res : completion AgentRunResult) :
  create w config st = (Returned agent, st1) ->
  run w agent input st1 = (res, st2) ->
  (forall toolName,
      canUseTool agent toolName = true <-> In toolName (cfg_allowedTools config))
  /\ map tool_name (tools (executor agent))
     = map (Str.replace_char "-" "_") (cfg_allowedTools config)
  /\ exists new,
       posted st2 = (posted st1 ++ new)%list
       /\ Forall (fun r => canUseTool agent (Outside.tool r) = true) new.
Proof.
  intros Hc Hr. apply create_returned in Hc.
  destruct Hc as (-> & Hn & Ha & Ht & Hs).
  split; [|split].
  - intros toolName. rewrite canUseTool_In, Ha. reflexivity.
  - rewrite Ht. unfold createMCPToolWrappers. rewrite map_map. reflexivity.
  - unfold run, invoke in Hr. rewrite Ht in Hr.
    destruct (iterate _ _ _ _ _ _ st) as [[out|e] st'] eqn:Ei;
      apply iterate_posts in Ei; destruct Ei as (new & Hp & Hall & _);
      injection Hr as _ <-; simpl; exists new;
      (split; [exact Hp|]);
      (eapply Forall_impl; [|exact Hall]); intros r Hin;
      apply canUseTool_In; now rewrite Ha.
Qed.

Lemma agent_reaches_only_allowed_tools_witness :
  exists agent res st2,
    create Sample.world Sample.inspector initial = (Returned agent, initial)
    /\ run Sample.world agent "check memory" initial = (res, st2)
    /\ map Outside.tool (posted st2) = ["system-info"]
    /\ exists new,
         posted st2 = (posted initial ++ new)%list
         /\ Forall (fun r => canUseTool agent (Outside.tool r) = true) new.
Proof.
  eexists. eexists. eexists.
  split; [reflexivity|]. split; [reflexivity|]. split; [reflexivity|].
  exact (proj2 (proj2
           (@agent_reaches_only_allowed_tools Sample.world Sample.inspector
              initial initial _ _ "check memory" _ eq_refl eq_refl))).
Defined.

End BaseFacts.

(* ----------------------------------------------------------------- *)
(** ** The task router *)

Module OrchestratorFacts.
Import Js Outside Client Base Agents Orchestrator History Notions.

(** *** Classification *)

Lemma classifyTask_eq task :
  classifyTask task =
  match test systemKeywords (toLowerCase task),
        test fileKeywords (toLowerCase task),
        test changeKeywords (toLowerCase task) with
  | true, false, false => system_diagnostic
  | false, true, false => file_analysis
  | false, false, true => change_proposal
  | false, false, false => system_diagnostic
  | _, _, _ => composite
  end.
Proof.
  unfold classifyTask.
  destruct (test systemKeywords _), (test fileKeywords _),
    (test changeKeywords _); reflexivity.
Qed.

(** *** The keyword tests *)

Lemma isWordChar_spec c : Orchestrator.isWordChar c = true <-> word_character c.
Proof.
  unfold Orchestrator.isWordChar, word_character. cbv zeta.
  rewrite !orb_true_iff, !andb_true_iff, !Nat.leb_le, Nat.eqb_eq. tauto.
Qed.

Lemma isWord_false o : isWord o = false <-> no_word_character o.
Proof.
  destruct o as [c|]; simpl; [|tauto].
  rewrite <- isWordChar_spec. destruct (Orchestrator.isWordChar c); split;
    congruence.
Qed.

Lemma strip_prefix_sound pre : forall s rest,
  Str.strip_prefix pre s = Some rest -> s = pre ++ rest.
Proof.
  induction pre as [|a pre IH]; intros s rest; simpl.
  - now intros [= ->].
  - destruct s as [|b s]; [discriminate|].
    destruct (Ascii.eqb_spec a b) as [->|_]; [|discriminate].
    intros H. now rewrite (IH _ _ H).
Qed.

Lemma strip_prefix_complete pre rest :
  Str.strip_prefix pre (pre ++ rest) = Some rest.
Proof.
  induction pre as [|a pre IH]; simpl; [now destruct rest|].
  now rewrite Ascii.eqb_refl.
Qed.

Lemma last_cons c p :
  Str.last (String c p)
  = match Str.last p with Some x => Some x | None => Some c end.
Proof.
  destruct p as [|d p]; [reflexivity|].
  change (Str.last (String c (String d p))) with (Str.last (String d p)).
  assert (H : forall q e, exists x, Str.last (String e q) = Some x).
  { induction q as [|f q IH]; intros e; [now exists e|].
    destruct (IH f) as [x Hx]. exists x. exact Hx. }
  destruct (H p d) as [x ->]. reflexivity.
Qed.

(** A word that begins and ends with a word character is found at the
    front of [s] exactly when [s] starts with it and no word character
    stands on either side. *)
Lemma word_here_spec before s k :
  isWord (Str.head k) = true ->
  isWord (Str.last k) = true ->
  word_here before s k = true
  <-> exists post,
        s = k ++ post
        /\ no_word_character before
        /\ no_word_character (Str.head post).
Proof.
  intros Hh Hl. unfold word_here, boundary.
  assert (Hk : forall post, Str.head (k ++ post) = Str.head k)
    by (intros post; destruct k; [discriminate Hh|reflexivity]).
  destruct (Str.last k) as [c|] eqn:El; [|discriminate Hl].
  split.
  - destruct (Str.strip_prefix k s) as [rest|] eqn:Es; [|discriminate].
    apply strip_prefix_sound in Es. subst s. rewrite Hk, Hh, Hl.
    rewrite andb_true_iff. intros [H1 H2]. exists rest.
    split; [reflexivity|]. rewrite <- !isWord_false.
    destruct (isWord before), (isWord (Str.head rest)); auto; discriminate.
  - intros (post & -> & Hb & Hp). rewrite strip_prefix_complete, Hk, Hh, Hl.
    apply isWord_false in Hb, Hp. now rewrite Hb, Hp.
Qed.

(** The search finds a word exactly where it stands as a whole word;
    [before] is the character before the text searched. *)
Lemma search_spec words s :
  Forall (fun k => isWord (Str.head k) = true /\ isWord (Str.last k) = true)
    words ->
  forall before,
    search words before s = true
    <-> exists k pre post,
          In k words
          /\ s = pre ++ k ++ post
          /\ no_word_character
               (match Str.last pre with Some x => Some x | None => before end)
          /\ no_word_character (Str.head post).
Proof.
  intros Hw. rewrite Forall_forall in Hw.
  assert (Hhere : forall before t,
             existsb (word_here before t) words = true
             <-> exists k post,
                   In k words /\ t = k ++ post
                   /\ no_word_character before
                   /\ no_word_character (Str.head post)).
  { intros before t. rewrite existsb_exists. split.
    - intros (k & Hin & H). destruct (Hw k Hin) as [Hh Hl].
      apply (@word_here_spec before t k Hh Hl) in H. destruct H as (post & H).
      exists k, post. tauto.
    - intros (k & post & Hin & H). exists k. split; [exact Hin|].
      destruct (Hw k Hin) as [Hh Hl]. apply (@word_here_spec before t k Hh Hl).
      exists post. exact H. }
  induction s as [|c s IH]; intros before; cbn [search];
    rewrite orb_true_iff, Hhere.
  - split.
    + intros [(k & post & Hin & E & Hb & Hp)|H]; [|discriminate H].
      exists k, "", post. auto.
    + intros (k & pre & post & Hin & E & Hb & Hp). left.
      destruct pre; [|discriminate E]. exists k, post. auto.
  - rewrite IH. split.
    + intros [(k & post & Hin & E & Hb & Hp)|(k & pre & post & Hin & E & Hb & Hp)].
      * exists k, "", post. auto.
      * exists k, (String c pre), post. split; [exact Hin|].
        split; [simpl; now rewrite E|]. rewrite last_cons.
        split; [|exact Hp]. now destruct (Str.last pre).
    + intros (k & pre & post & Hin & E & Hb & Hp).
      destruct pre as [|d pre].
      * left. exists k, post. auto.
      * right. simpl in E. injection E as <- E. exists k, pre, post.
        split; [exact Hin|]. split; [exact E|]. rewrite last_cons in Hb.
        split; [|exact Hp]. now destruct (Str.last pre).
Qed.

Lemma test_spec words s :
  Forall (fun k => isWord (Str.head k) = true /\ isWord (Str.last k) = true)
    words ->
  test words s = true <-> present words s.
Proof.
  intros Hw. unfold test. rewrite (@search_spec words s Hw None).
  unfold present, whole_word.
  split.
  - intros (k & pre & post & Hin & E & Hb & Hp). exists k. split; [exact Hin|].
    exists pre, post. split; [exact E|]. split; [|exact Hp].
    now destruct (Str.last pre).
  - intros (k & Hin & pre & post & E & Hb & Hp). exists k, pre, post.
    split; [exact Hin|]. split; [exact E|]. split; [|exact Hp].
    now destruct (Str.last pre).
Qed.

(** *** Lowercasing *)

Lemma lower_spec c : lowercase_of c (Str.lower c).
Proof.
  unfold lowercase_of, Str.lower. cbv zeta.
  destruct ((65 <=? nat_of_ascii c) && (nat_of_ascii c <=? 90))%nat eqn:E.
  - apply andb_true_iff in E. destruct E as [E1 E2].
    apply Nat.leb_le in E1, E2. split; [|lia]. intros _.
    apply nat_ascii_embedding. lia.
  - split; [|reflexivity]. intros [H1 H2].
    apply Nat.leb_le in H1, H2. rewrite H1, H2 in E. discriminate E.
Qed.

(** On ASCII text, lowercasing works character by character. *)
Lemma toLowerCase_ascii s :
  Str.ascii_only s = true ->
  list_ascii_of_string (toLowerCase s) = map Str.lower (list_ascii_of_string s).
Proof.
  unfold toLowerCase, Str.ascii_only.
  induction s as [|c s IH]; [reflexivity|].
  cbn [list_ascii_of_string forallb map]. rewrite andb_true_iff.
  intros [Hc Hs]. apply Nat.ltb_lt in Hc.
  assert (E : Str.toLowerCase (String c s)
              = String (Str.lower c) (Str.toLowerCase s)).
  { cbn [Str.toLowerCase].
    assert (E1 : (nat_of_ascii c =? 196)%nat = false) by (apply Nat.eqb_neq; lia).
    assert (E2 : (nat_of_ascii c =? 226)%nat = false) by (apply Nat.eqb_neq; lia).
    rewrite E1, E2. cbn [andb]. destruct s as [|c2 [|c3 s]]; reflexivity. }
  rewrite E. cbn [list_ascii_of_string]. now rewrite IH.
Qed.

(** An ASCII prefix is lowercased on its own. *)
Lemma toLowerCase_app pre rest :
  Str.ascii_only pre = true ->
  toLowerCase (pre ++ rest) = toLowerCase pre ++ toLowerCase rest.
Proof.
  unfold toLowerCase, Str.ascii_only.
  induction pre as [|c pre IH]; [reflexivity|].
  cbn [list_ascii_of_string forallb]. rewrite andb_true_iff.
  intros [Hc Hs]. apply Nat.ltb_lt in Hc.
  assert (E : forall t, Str.toLowerCase (String c t)
                        = String (Str.lower c) (Str.toLowerCase t)).
  { intros t. cbn [Str.toLowerCase].
    assert (E1 : (nat_of_ascii c =? 196)%nat = false) by (apply Nat.eqb_neq; lia).
    assert (E2 : (nat_of_ascii c =? 226)%nat = false) by (apply Nat.eqb_neq; lia).
    rewrite E1, E2. cbn [andb]. destruct t as [|c2 [|c3 t]]; reflexivity. }
  change (String c pre ++ rest) with (String c (pre ++ rest)).
  rewrite !E, IH by exact Hs. reflexivity.
Qed.

(** C7.  The classification is a function of the lowercased task text.
    It returns one of the four labels.  A category is present when one
    of its keywords occurs in the lowercased text as a whole word, with
    no letter, digit or underscore directly before or after it; the
    three keyword tests decide exactly that.  The label is [composite]
    exactly when more than one category is present; it is the label of
    the present category when exactly one is; and it is the
    system-diagnostic label when none is.  Being a function, it gives
    the same label whenever it is applied to the same string, and also
    to strings with the same lowercased text.  Lowercasing moves the
    letters A to Z of an ASCII text to a to z and keeps its other
    characters; the Kelvin sign is lowercased to the letter [k], and
    the dotted capital I to [i] with a combining dot, so that either of
    them can join or split a word of the lowercased text. *)
Theorem classification_rule (task : string) :
  let text := toLowerCase task in
  let hasSystem := test systemKeywords text in
  let hasFile := test fileKeywords text in
  let hasChange := test changeKeywords text in
  let system :=
    present ["system"; "memory"; "cpu"; "platform"; "uptime"; "health"] text in
  let file := present ["file"; "read"; "analyze"; "content"] text in
  let change :=
    present ["write"; "create"; "propose"; "change"; "modify"; "update"] text in
  In (classifyTask task)
    [system_diagnostic; file_analysis; change_proposal; composite]
  /\ (classifyTask task = composite
      <-> (1 < count_true [hasSystem; hasFile; hasChange])%nat)
  /\ classifyTask task =
     match hasSystem, hasFile, hasChange with
     | true, false, false => system_diagnostic
     | false, true, false => file_analysis
     | false, false, true => change_proposal
     | false, false, false => system_diagnostic
     | _, _, _ => composite
     end
  /\ (forall task',
         toLowerCase task' = toLowerCase task ->
         classifyTask task' = classifyTask task)
  /\ (hasSystem = true <-> system)
  /\ (hasFile = true <-> file)
  /\ (hasChange = true <-> change)
  /\ (classifyTask task = composite
      <-> (system /\ file) \/ (system /\ change) \/ (file /\ change))
  /\ (classifyTask task = file_analysis <-> file /\ ~ system /\ ~ change)
  /\ (classifyTask task = change_proposal <-> change /\ ~ system /\ ~ file)
  /\ (classifyTask task = system_diagnostic <-> ~ file /\ ~ change)
  /\ (Str.ascii_only task = true ->
      Forall2 lowercase_of (list_ascii_of_string task) (list_ascii_of_string text))
  /\ (forall pre post,
         Str.ascii_only pre = true ->
         Str.ascii_only post = true ->
         toLowerCase (pre ++ Str.kelvin ++ post)
         = toLowerCase pre ++ "k" ++ toLowerCase post)
  /\ (forall pre post,
         Str.ascii_only pre = true ->
         Str.ascii_only post = true ->
         toLowerCase (pre ++ Str.dotted_I ++ post)
         = toLowerCase pre ++ "i" ++ Str.dot_above ++ toLowerCase post).
Proof.
  intros text hasSystem hasFile hasChange system file change.
  assert (Hs : hasSystem = true <-> system)
    by (apply test_spec; repeat constructor).
  assert (Hf : hasFile = true <-> file)
    by (apply test_spec; repeat constructor).
  assert (Hc : hasChange = true <-> change)
    by (apply test_spec; repeat constructor).
  assert (Hrule : classifyTask task =
                  match hasSystem, hasFile, hasChange with
                  | true, false, false => system_diagnostic
                  | false, true, false => file_analysis
                  | false, false, true => change_proposal
                  | false, false, false => system_diagnostic
                  | _, _, _ => composite
                  end) by apply classifyTask_eq.
  split; [destruct (classifyTask task); simpl; auto|].
  split.
  { rewrite Hrule. destruct hasSystem, hasFile, hasChange;
      cbv [count_true filter List.length];
      split; intros H; try discriminate H; try reflexivity; lia. }
  split; [exact Hrule|].
  split; [intros task' E; unfold classifyTask; now rewrite E|].
  split; [exact Hs|]. split; [exact Hf|]. split; [exact Hc|].
  assert (Ps : if hasSystem then system else ~ system).
  { destruct hasSystem; [now apply Hs|]. intros H. apply Hs in H. discriminate H. }
  assert (Pf : if hasFile then file else ~ file).
  { destruct hasFile; [now apply Hf|]. intros H. apply Hf in H. discriminate H. }
  assert (Pc : if hasChange then change else ~ change).
  { destruct hasChange; [now apply Hc|]. intros H. apply Hc in H. discriminate H. }
  rewrite Hrule. clear Hs Hf Hc Hrule.
  split; [|split; [|split; [|split]]].
  1-4: destruct hasSystem, hasFile, hasChange; split; intros H;
    try discriminate H; try reflexivity; tauto.
  split; [|split].
  - intros Ha. unfold text. rewrite (toLowerCase_ascii task Ha).
    induction (list_ascii_of_string task) as [|c l IH]; simpl; constructor;
      [apply lower_spec|exact IH].
  - intros pre post Ha _. rewrite (toLowerCase_app pre _ Ha). reflexivity.
  - intros pre post Ha _. rewrite (toLowerCase_app pre _ Ha). reflexivity.
Qed.

(** A task shouted in capitals is classified by its lowercased text,
    in which [file] and [read] stand as whole words; [filesystem]
    holds no keyword as a whole word; and a keyword followed by the
    Kelvin sign is followed by the letter [k] once lowercased, and so
    is no whole word. *)
Lemma classification_rule_witness :
  toLowerCase "READ THE FILE" = "read the file"
  /\ classifyTask "READ THE FILE" = file_analysis
  /\ present ["file"; "read"; "analyze"; "content"] "read the file"
  /\ ~ present ["write"; "create"; "propose"; "change"; "modify"; "update"]
         "read the file"
  /\ classifyTask "What is the filesystem layout?" = system_diagnostic
  /\ ~ present ["file"; "read"; "analyze"; "content"]
         "what is the filesystem layout?"
  /\ toLowerCase ("read" ++ Str.kelvin) = "readk"
  /\ classifyTask ("read" ++ Str.kelvin) = system_diagnostic.
Proof.
  pose proof (classification_rule "READ THE FILE") as H1.
  pose proof (classification_rule "What is the filesystem layout?") as H2.
  pose proof (classification_rule ("read" ++ Str.kelvin)) as H3.
  cbv zeta in H1, H2, H3.
  destruct H1 as (_ & _ & _ & _ & _ & _ & _ & _ & Hfile & _).
  destruct H2 as (_ & _ & _ & _ & _ & _ & _ & _ & _ & _ & Hdefault & _).
  destruct H3 as (_ & _ & _ & _ & _ & _ & _ & _ & _ & _ & _ & _ & Hk & _).
  split; [reflexivity|]. split; [reflexivity|].
  destruct (proj1 Hfile eq_refl) as (Hf & _ & Hc).
  split; [exact Hf|]. split; [exact Hc|]. split; [reflexivity|].
  split; [exact (proj1 (proj1 Hdefault eq_refl))|].
  split; [exact (Hk "read" "" eq_refl eq_refl)|reflexivity].
Defined.

(** The tasks of the demonstration, and the composite of the
    specification's scenario. *)
Lemma classifyTask_examples :
  classifyTask "Check the system memory usage and platform information."
  = system_diagnostic
  /\ classifyTask "Read and analyze the contents of config.json file."
     = file_analysis
  /\ classifyTask "Propose an update." = change_proposal
  /\ classifyTask "check memory and propose writing hello.txt" = composite
  /\ classifyTask "What is the filesystem layout?" = system_diagnostic.
Proof. repeat split. Qed.

(** *** One agent step *)

Section Steps.
Variable w : World.
Variable mcpClient : MCPClient.

Lemma runSystemDiagnostic_eq task :
  runSystemDiagnostic w mcpClient task
= agent_step w (inspector mcpClient) "SystemInspector" task.
Proof. reflexivity. Qed.

Lemma runFileAnalysis_eq task :
  runFileAnalysis w mcpClient task
= agent_step w (analyst mcpClient) "FileAnalyst" task.
Proof. reflexivity. Qed.

Lemma runChangeProposal_eq task :
  runChangeProposal w mcpClient task
= agent_step w (proposer mcpClient) "ChangeProposer" task.
Proof. reflexivity. Qed.

(** What a step enters in the history of runs: the run of its agent on
    its task when the agent could be created, nothing otherwise. *)
Lemma agent_step_runs config label task st res st' :
  agent_step w config label task st = (res, st') ->
  match res with
  | Returned r =>
      agentName r = label
      /\ runs st' =
         (runs st ++ [{| run_agent := cfg_name config; run_input := task;
                         run_end := Returned (agent_output r) |}])%list
  | Threw e =>
      runs st' = runs st
      \/ runs st' =
         (runs st ++ [{| run_agent := cfg_name config; run_input := task;
                         run_end := Threw e |}])%list
  end.
Proof.
  unfold agent_step, bind, Date_now, create.
  set (st1 := {| posted := posted st; runs := runs st;
                 modelQueries := modelQueries st;
                 clockReadings := S (clockReadings st) |}).
  destruct (construct w st1) as [e|].
  { intros [= <- <-]. left. reflexivity. }
  unfold Base.run, invoke, bind, record_run, ret, throw. cbn [executor tools
    systemPrompt maxIterations name].
  destruct (iterate _ _ _ _ _ _ st1) as [[out|e] st2] eqn:Ei;
    apply BaseFacts.iterate_posts in Ei; destruct Ei as (_ & _ & _ & Hr);
    intros [= <- <-]; cbn [runs agentName agent_output output]; rewrite Hr.
  - split; reflexivity.
  - right. reflexivity.
Qed.
End Steps.

(** *** The history of a composite run *)

Lemma fed_nil : fed [].
Proof. intros i j ri rj out _ H. destruct i; discriminate H. Qed.

Lemma fed_snoc new r :
  fed new ->
  Forall (fun r' => forall out, run_end r' = Returned out ->
                                Str.occurs_in out (run_input r)) new ->
  fed (new ++ [r]).
Proof.
  intros Hf Hall i j ri rj out Hij Hi Hj Hout.
  assert (Hjlen : (j < List.length (new ++ [r]))%nat)
    by (apply nth_error_Some; congruence).
  rewrite length_app in Hjlen. simpl in Hjlen.
  rewrite nth_error_app1 in Hi by lia.
  destruct (Nat.eq_dec j (List.length new)) as [->|Hne].
  - rewrite nth_error_app2, Nat.sub_diag in Hj by lia.
    injection Hj as <-. apply nth_error_In in Hi.
    rewrite Forall_forall in Hall. exact (Hall ri Hi out Hout).
  - rewrite nth_error_app1 in Hj by lia. exact (Hf i j ri rj out Hij Hi Hj Hout).
Qed.

(** *** The composite workflow, stage by stage *)

Section Workflow.
Variable w : World.
Variable mcpClient : MCPClient.

Lemma runCompositeWorkflow_stages input st :
  runCompositeWorkflow w mcpClient input st =
  bind (stage w (test systemKeywords (toLowerCase (task input)))
          (inspector mcpClient) "SystemInspector" "System Info: " (task input)
          ([], match context input with Some c => c | None => "" end))
    (fun acc1 =>
  bind (stage w (test fileKeywords (toLowerCase (task input)))
          (analyst mcpClient) "FileAnalyst" "File Analysis: " (task input) acc1)
    (fun acc2 =>
  bind (stage w (test changeKeywords (toLowerCase (task input)))
          (proposer mcpClient) "ChangeProposer" "" (task input) acc2)
    (fun acc3 => ret (fst acc3)))) st.
Proof.
  unfold runCompositeWorkflow, stage.
  change (runSystemDiagnostic w mcpClient)
    with (agent_step w (inspector mcpClient) "SystemInspector").
  change (runFileAnalysis w mcpClient)
    with (agent_step w (analyst mcpClient) "FileAnalyst").
  change (runChangeProposal w mcpClient)
    with (agent_step w (proposer mcpClient) "ChangeProposer").
  destruct (test systemKeywords _), (test fileKeywords _),
    (test changeKeywords _); unfold bind, ret; cbn [fst snd];
    repeat match goal with
      | |- context [agent_step ?a ?b ?c ?d ?s] =>
          destruct (agent_step a b c d s) as [[?r|?e] ?st]; cbn [fst snd]
      end; reflexivity.
Qed.

Lemma progress_returned base done st acc new :
  progress base done st acc new -> Forall returned new.
Proof.
  intros (_ & _ & _ & _ & H). eapply Forall_impl; [|exact H].
  intros r (out & E & _). exists out. exact E.
Qed.

Lemma progress_feeds base done st acc new task r :
  progress base done st acc new ->
  run_input r = with_context task (snd acc) ->
  fed (new ++ [r]).
Proof.
  intros (_ & _ & _ & Hf & Ho) Hi. apply fed_snoc; [exact Hf|].
  eapply Forall_impl; [|exact Ho]. intros r' (out & E & Hocc) out' E'.
  rewrite E in E'. injection E' as <-. rewrite Hi. unfold with_context.
  repeat first [exact Hocc | apply StrFacts.occurs_in_cons
               | apply StrFacts.occurs_in_app_r].
Qed.

(** A block either moves the run forward or halts it. *)
Lemma stage_spec flag config label heading task base done st acc new res st' :
  cfg_name config = label ->
  progress base done st acc new ->
  stage w flag config label heading task acc st = (res, st') ->
  match res with
  | Returned acc' =>
      exists new',
        progress base (done ++ if flag then [label] else []) st' acc' new'
  | Threw e =>
      flag = true
      /\ exists new',
           runs st' = (base ++ new')%list
           /\ fed new'
           /\ (new' = new
               \/ exists r, new' = (new ++ [r])%list
                            /\ run_agent r = label /\ run_end r = Threw e)
  end.
Proof.
  intros Hl Hp. unfold stage. destruct flag.
  - unfold bind.
    destruct (agent_step w config label _ st) as [[r|e] st1] eqn:Es;
      apply agent_step_runs in Es; intros [= <- <-].
    + destruct Es as [Hn Hr]. rewrite Hl in Hr.
      pose proof Hp as (Hruns & Hd & Ha & Hf & Ho).
      eexists. split; [|split; [|split; [|split]]].
      * rewrite Hr, Hruns, <- List.app_assoc. reflexivity.
      * rewrite map_app, Hd. reflexivity.
      * cbn [fst]. rewrite map_app, Ha. simpl. now rewrite Hn.
      * eapply progress_feeds; [exact Hp|reflexivity].
      * cbn [snd]. apply Forall_app. split.
        -- eapply Forall_impl; [|exact Ho]. intros r' (out & E & Hocc).
           exists out. split; [exact E|]. apply StrFacts.occurs_in_app_l, Hocc.
        -- constructor; [|constructor]. eexists. split; [reflexivity|].
           repeat first [apply StrFacts.occurs_in_refl
                        | apply StrFacts.occurs_in_cons
                        | apply StrFacts.occurs_in_app_r].
    + split; [reflexivity|]. destruct Es as [Hr|Hr].
      * exists new. destruct Hp as (Hruns & _ & _ & Hf & _).
        split; [now rewrite Hr|]. split; [exact Hf|]. left. reflexivity.
      * eexists. split; [|split].
        -- destruct Hp as (Hruns & _). rewrite Hr, Hruns, <- List.app_assoc.
           reflexivity.
        -- eapply progress_feeds; [exact Hp|reflexivity].
        -- right. eexists. split; [reflexivity|]. split; [exact Hl|reflexivity].
  - intros [= <- <-]. exists new. rewrite List.app_nil_r. exact Hp.
Qed.
End Workflow.

Section Composite.
Variable w : World.
Variable mcpClient : MCPClient.

Lemma workflow_spec input st res st' :
  runCompositeWorkflow w mcpClient input st = (res, st') ->
  exists new,
    runs st' = (runs st ++ new)%list /\ workflow_outcome input res new.
Proof.
  rewrite runCompositeWorkflow_stages. unfold bind, workflow_outcome, plan.
  set (sys := test systemKeywords (toLowerCase (task input))).
  set (file := test fileKeywords (toLowerCase (task input))).
  set (chg := test changeKeywords (toLowerCase (task input))).
  set (ctx0 := match context input with Some c => c | None => "" end).
  assert (P0 : progress (runs st) [] st ([], ctx0) []).
  { repeat split; [now rewrite List.app_nil_r|apply fed_nil|constructor]. }
  destruct (stage w sys _ _ _ _ _ st) as [[acc1|e] st1] eqn:E1;
    eapply stage_spec in E1; try exact P0; try reflexivity.
  2:{ intros [= <- <-]. destruct E1 as (-> & new' & Hr & Hf & Hn).
      exists new'. split; [exact Hr|]. split; [exact Hf|].
      exists [], "SystemInspector". eexists. split; [reflexivity|].
      split; [constructor|exact Hn]. }
  destruct E1 as (new1 & P1).
  destruct (stage w file _ _ _ _ _ st1) as [[acc2|e] st2] eqn:E2;
    eapply stage_spec in E2; try exact P1; try reflexivity.
  2:{ intros [= <- <-]. destruct E2 as (-> & new' & Hr & Hf & Hn).
      exists new'. split; [exact Hr|]. split; [exact Hf|].
      exists new1, "FileAnalyst". eexists.
      pose proof (progress_returned P1) as Hret.
      destruct P1 as (_ & Hd & _). rewrite Hd.
      split; [reflexivity|]. split; [exact Hret|exact Hn]. }
  destruct E2 as (new2 & P2).
  destruct (stage w chg _ _ _ _ _ st2) as [[acc3|e] st3] eqn:E3;
    eapply stage_spec in E3; try exact P2; try reflexivity.
  2:{ intros [= <- <-]. destruct E3 as (-> & new' & Hr & Hf & Hn).
      exists new'. split; [exact Hr|]. split; [exact Hf|].
      exists new2, "ChangeProposer", [].
      pose proof (progress_returned P2) as Hret.
      destruct P2 as (_ & Hd & _). rewrite Hd, <- List.app_assoc.
      split; [reflexivity|]. split; [exact Hret|exact Hn]. }
  destruct E3 as (new3 & P3).
  intros [= <- <-]. exists new3.
  pose proof (progress_returned P3) as Hret.
  destruct P3 as (Hr & Hd & Ha & Hf & _).
  rewrite <- List.app_assoc in Hd, Ha.
  split; [exact Hr|]. split; [exact Hf|]. split; [exact Hd|].
  split; [exact Ha|exact Hret].
Qed.
End Composite.

(** *** Composite runs *)

Lemma run_composite w mcpClient input st :
  health w (snd (Date_now w st)) = true ->
  match taskType input with
  | Some t => t
  | None => classifyTask (task input)
  end = composite ->
  run w mcpClient input st =
  match runCompositeWorkflow w mcpClient input (snd (Date_now w st)) with
  | (Returned results, st2) =>
      (Returned
         {| success := true;
            result_taskType := composite;
            agentResults := results;
            finalOutput := synthesizeOutput composite results;
            totalDurationMs := now w st2 - now w st;
            error := None |},
       snd (Date_now w st2))
  | (Threw e, st2) =>
      (Returned
         {| success := false;
            result_taskType :=
              match taskType input with
              | Some t => t
              | None => system_diagnostic
              end;
            agentResults := [];
            finalOutput := "";
            totalDurationMs := now w st2 - now w st;
            error := Some (message_of e) |},
       snd (Date_now w st2))
  end.
Proof.
  intros Hh Ht. unfold run, bind, try_catch, healthCheck.
  cbn [Date_now fst snd] in *. rewrite Hh, Ht. cbn [negb].
  destruct (runCompositeWorkflow w mcpClient input _) as [[results|e] st2];
    reflexivity.
Qed.

(** C8.  A task whose lowercased text passes all three keyword tests is
    classified [composite], and a composite workflow on it runs the
    agents in the order SystemInspector, FileAnalyst, ChangeProposer:
    the runs it adds to the history are made by a prefix of that list,
    the whole list when the workflow returns, and then the results come
    in the same order.  The output text of every completed run occurs
    verbatim in the input of every later run. *)
Theorem composite_order_and_context
  (w : World) (mcpClient : MCPClient) (input : OrchestratorInput)
  (st st' : State) (res : completion (list AgentExecutionResult)) :
  test systemKeywords (toLowerCase (task input)) = true ->
  test fileKeywords (toLowerCase (task input)) = true ->
  test changeKeywords (toLowerCase (task input)) = true ->
  runCompositeWorkflow w mcpClient input st = (res, st') ->
  classifyTask (task input) = composite
  /\ exists new,
       runs st' = (runs st ++ new)%list
       /\ (exists rest,
              (map run_agent new ++ rest)%list
              = ["SystemInspector"; "FileAnalyst"; "ChangeProposer"])
       /\ fed new
       /\ (forall results,
              res = Returned results ->
              map run_agent new
              = ["SystemInspector"; "FileAnalyst"; "ChangeProposer"]
              /\ map agentName results
                 = ["SystemInspector"; "FileAnalyst"; "ChangeProposer"]).
Proof.
  intros Hs Hf Hc Hrun. split.
  - rewrite classifyTask_eq, Hs, Hf. reflexivity.
  - destruct (workflow_spec _ _ _ _ Hrun) as (new & Hr & Hfed & Hout).
    assert (Hplan : plan input
                    = ["SystemInspector"; "FileAnalyst"; "ChangeProposer"])
      by (unfold plan; rewrite Hs, Hf, Hc; reflexivity).
    rewrite Hplan in Hout.
    exists new. split; [exact Hr|]. split; [|split; [exact Hfed|]].
    + destruct res as [results|e].
      * exists []. rewrite List.app_nil_r. apply Hout.
      * destruct Hout as (done & label & rest & Hp & _ & [->|(r & -> & Hl & _)]).
        -- exists (label :: rest). now rewrite Hp.
        -- exists rest. rewrite map_app, <- List.app_assoc. simpl.
           rewrite Hl. now rewrite Hp.
    + intros results ->. destruct Hout as (H1 & H2 & _). split; assumption.
Qed.

Lemma composite_order_and_context_witness :
  let finished :=
    runCompositeWorkflow Sample.world Sample.client Sample.everything initial in
  map run_agent (runs (snd finished))
  = ["SystemInspector"; "FileAnalyst"; "ChangeProposer"]
  /\ fed (runs (snd finished)).
Proof.
  intros finished.
  destruct (@composite_order_and_context Sample.world Sample.client
              Sample.everything initial (snd finished) (fst finished)
              eq_refl eq_refl eq_refl (surjective_pairing finished))
    as (_ & new & Hr & _ & Hfed & Hres).
  assert (E : exists results, fst finished = Returned results)
    by (eexists; vm_compute; reflexivity).
  destruct E as [results E].
  simpl app in Hr. rewrite Hr.
  split; [exact (proj1 (Hres results E))|exact Hfed].
Defined.

(** C9.  When a step of a composite run throws -- the workflow throws
    exactly then, it catches nothing -- [Orchestrator.run] returns a
    result with [success = false], the message of what was thrown as
    [error], an empty [finalOutput] and no agent results at all, also
    not those of the steps that had completed.  No agent is run and no
    request is posted after the failure: the history holds the completed
    runs of the first planned agents, then at most the run that threw. *)
Theorem composite_failure_aborts
  (w : World) (mcpClient : MCPClient) (input : OrchestratorInput)
  (st st2 : State) (e : thrown) :
  health w (snd (Date_now w st)) = true ->
  match taskType input with
  | Some t => t
  | None => classifyTask (task input)
  end = composite ->
  runCompositeWorkflow w mcpClient input (snd (Date_now w st)) = (Threw e, st2) ->
  exists result st3,
    run w mcpClient input st = (Returned result, st3)
    /\ success result = false
    /\ error result = Some (message_of e)
    /\ agentResults result = []
    /\ finalOutput result = ""
    /\ runs st3 = runs st2
    /\ posted st3 = posted st2
    /\ exists done label rest,
         plan input = (map run_agent done ++ label :: rest)%list
         /\ Forall returned done
         /\ (runs st2 = (runs st ++ done)%list
             \/ exists r,
                  runs st2 = (runs st ++ done ++ [r])%list
                  /\ run_agent r = label /\ run_end r = Threw e).
Proof.
  intros Hh Ht Hw. rewrite (run_composite w mcpClient input st Hh Ht), Hw.
  eexists. eexists. split; [reflexivity|]. repeat (split; [reflexivity|]).
  destruct (workflow_spec _ _ _ _ Hw) as (new & Hr & _ & Hout).
  destruct Hout as (done & label & rest & Hp & Hret & Hn).
  exists done, label, rest. split; [exact Hp|]. split; [exact Hret|].
  cbn [Date_now snd runs] in Hr.
  destruct Hn as [->|(r & -> & Hl & He)]; [left; exact Hr|right].
  exists r. split; [exact Hr|]. split; assumption.
Qed.

Lemma composite_failure_aborts_witness :
  exists result st3,
    run Sample.failing_world Sample.client Sample.everything initial
    = (Returned result, st3)
    /\ success result = false
    /\ error result = Some "429 rate limit exceeded"
    /\ agentResults result = []
    /\ map run_agent (runs st3)
       = ["SystemInspector"; "FileAnalyst"; "ChangeProposer"].
Proof.
  pose (halted :=
          runCompositeWorkflow Sample.failing_world Sample.client
            Sample.everything (snd (Date_now Sample.failing_world initial))).
  assert (E : halted
              = (Threw (ErrorObject "429 rate limit exceeded"), snd halted))
    by (vm_compute; reflexivity).
  destruct (@composite_failure_aborts Sample.failing_world Sample.client
              Sample.everything initial (snd halted)
              (ErrorObject "429 rate limit exceeded") eq_refl eq_refl E)
    as (result & st3 & Hrun & Hs & He & Ha & _ & Hr & _).
  exists result, st3. split; [exact Hrun|]. split; [exact Hs|].
  split; [exact He|]. split; [exact Ha|]. rewrite Hr.
  vm_compute. reflexivity.
Defined.

End OrchestratorFacts.

(* ----------------------------------------------------------------- *)
(** ** The registry: registration and lookup *)

Module RegistryFacts.
Import Js Coverage.

Lemma get_app name (a b : Tools.ToolRegistry) :
  Tools.get name (a ++ b)%list =
  match Tools.get name a with
  | Some t => Some t
  | None => Tools.get name b
  end.
Proof.
  induction a as [|[k t] a IH]; simpl; [reflexivity|].
  destruct (k =? name)%string; [reflexivity|exact IH].
Qed.

Lemma has_keys name (tools : Tools.ToolRegistry) :
  Tools.has name tools = true <-> In name (keys tools).
Proof.
  unfold Tools.has, keys. induction tools as [|[k t] tools IH]; simpl.
  - split; [discriminate|intros []].
  - destruct (String.eqb_spec k name) as [->|Hne].
    + split; auto.
    + rewrite IH. split; [auto|]. intros [E|H]; [contradiction|exact H].
Qed.

Lemma register_cases (T U : Type) (d : Mcp.ToolDefinition T)
  (e : Mcp.ToolExecutor T U) (tools : Tools.ToolRegistry) :
  (Tools.has (Mcp.name d) tools = true
   /\ Tools.register d e tools
      = Threw (ErrorObject ("Tool already registered: " ++ Mcp.name d)))
  \/ (Tools.has (Mcp.name d) tools = false
      /\ Tools.register d e tools
         = Returned
             (tools ++ [(Mcp.name d,
                         {| Mcp.definition := d; Mcp.executor := e |})])%list).
Proof.
  unfold Tools.register. destruct (Tools.has _ _); [left|right]; split; reflexivity.
Qed.

(** A registered tool is found under its name, and registering it leaves
    every other lookup as it was. *)
Theorem register_then_get (T U : Type) (d : Mcp.ToolDefinition T)
  (e : Mcp.ToolExecutor T U) (tools tools' : Tools.ToolRegistry) :
  Tools.register d e tools = Returned tools' ->
  Tools.get (Mcp.name d) tools'
  = Some {| Mcp.definition := d; Mcp.executor := e |}
  /\ Tools.has (Mcp.name d) tools = false
  /\ Tools.has (Mcp.name d) tools' = true
  /\ (forall n, n <> Mcp.name d -> Tools.get n tools' = Tools.get n tools)
  /\ (forall n tool, Tools.get n tools = Some tool ->
                     Tools.get n tools' = Some tool).
Proof.
  intros H. destruct (register_cases d e tools) as [[_ E]|[Hh E]];
    rewrite E in H; [discriminate|]. injection H as <-.
  assert (Hg : Tools.get (Mcp.name d) tools = None).
  { unfold Tools.has in Hh. destruct (Tools.get _ tools); [discriminate|reflexivity]. }
  assert (Hnew : Tools.get (Mcp.name d)
                   (tools ++ [(Mcp.name d,
                               {| Mcp.definition := d; Mcp.executor := e |})])%list
                 = Some {| Mcp.definition := d; Mcp.executor := e |}).
  { rewrite get_app, Hg. simpl. now rewrite String.eqb_refl. }
  split; [exact Hnew|]. split; [exact Hh|].
  split; [unfold Tools.has; now rewrite Hnew|]. split.
  - intros n Hn. rewrite get_app. destruct (Tools.get n tools); [reflexivity|].
    simpl. destruct (String.eqb_spec (Mcp.name d) n); [congruence|reflexivity].
  - intros n tool Hn. rewrite get_app, Hn. reflexivity.
Qed.

Lemma register_then_get_witness :
  Tools.get "file-read"
    [("system-info", Sample.systemInfo); ("file-read", Sample.fileRead)]
  = Some Sample.fileRead
  /\ Tools.get "system-info"
       [("system-info", Sample.systemInfo); ("file-read", Sample.fileRead)]
     = Some Sample.systemInfo.
Proof.
  destruct (@register_then_get _ _ FileRead.fileReadDefinition
              FileRead.fileReadExecutor [("system-info", Sample.systemInfo)]
              [("system-info", Sample.systemInfo); ("file-read", Sample.fileRead)]
              eq_refl) as (H1 & _ & _ & _ & H5).
  split; [exact H1|]. apply H5. reflexivity.
Defined.

(** Registration keeps the names of a registry distinct: it throws when
    the name is taken, and otherwise adds the name at the end. *)
Theorem register_keeps_names_distinct (T U : Type) (d : Mcp.ToolDefinition T)
  (e : Mcp.ToolExecutor T U) (tools : Tools.ToolRegistry) :
  NoDup (keys tools) ->
  keyed_by_name tools ->
  match Tools.register d e tools with
  | Returned tools' =>
      ~ In (Mcp.name d) (keys tools)
      /\ keys tools' = (keys tools ++ [Mcp.name d])%list
      /\ NoDup (keys tools')
      /\ keyed_by_name tools'
  | Threw err =>
      In (Mcp.name d) (keys tools)
      /\ err = ErrorObject ("Tool already registered: " ++ Mcp.name d)
  end.
Proof.
  intros Hnd Hk. destruct (register_cases d e tools) as [[Hh E]|[Hh E]]; rewrite E.
  - split; [now apply has_keys|reflexivity].
  - assert (Hnot : ~ In (Mcp.name d) (keys tools)).
    { intros Hin. apply has_keys in Hin. congruence. }
    split; [exact Hnot|]. unfold keys in *. rewrite map_app. simpl.
    split; [reflexivity|]. split.
    + apply NoDup_app; [exact Hnd|repeat constructor; intros []|].
      intros x Hx [<-|[]]. contradiction.
    + apply Forall_app. split; [exact Hk|]. repeat constructor.
Qed.

Lemma register_keeps_names_distinct_witness :
  keys Tools.toolRegistry = ["system-info"; "file-read"; "file-write"]
  /\ NoDup (keys Tools.toolRegistry)
  /\ Tools.register FileRead.fileReadDefinition FileRead.fileReadExecutor
       Tools.toolRegistry
     = Threw (ErrorObject "Tool already registered: file-read").
Proof.
  assert (Hnd : NoDup (keys [("system-info", Sample.systemInfo);
                             ("file-read", Sample.fileRead)])).
  { repeat constructor; simpl; intuition discriminate. }
  assert (Hk : keyed_by_name [("system-info", Sample.systemInfo);
                              ("file-read", Sample.fileRead)])
    by (repeat constructor).
  pose proof (@register_keeps_names_distinct _ _ FileWrite.fileWriteDefinition
                FileWrite.fileWriteExecutor _ Hnd Hk) as H.
  cbv beta iota delta [Tools.register Tools.has] in H. simpl Tools.get in H.
  cbv iota in H. destruct H as (_ & Hkeys & Hnd' & Hk').
  split; [reflexivity|]. split; [exact Hnd'|].
  pose proof (@register_keeps_names_distinct _ _ FileRead.fileReadDefinition
                FileRead.fileReadExecutor Tools.toolRegistry Hnd' Hk') as H2.
  destruct (Tools.register FileRead.fileReadDefinition FileRead.fileReadExecutor
              Tools.toolRegistry) as [r|err] eqn:E; [discriminate E|].
  destruct H2 as [_ ->]. reflexivity.
Defined.

(** [listDefinitions] lists the registry's tools in registration order,
    and a name is listed exactly when [has] finds it. *)
Theorem listed_iff_registered (tools : Tools.ToolRegistry) :
  keyed_by_name tools ->
  List.length (Tools.listDefinitions tools) = List.length tools
  /\ listed_names tools = keys tools
  /\ (forall n, Tools.has n tools = true <-> In n (listed_names tools)).
Proof.
  intros Hk.
  assert (E : listed_names tools = keys tools).
  { unfold listed_names, Tools.listDefinitions, keys. rewrite map_map.
    apply map_ext_in. intros kt Hin. simpl.
    unfold keyed_by_name in Hk. rewrite Forall_forall in Hk.
    symmetry. exact (Hk kt Hin). }
  split; [apply length_map|]. split; [exact E|].
  intros n. rewrite E. apply has_keys.
Qed.

Lemma listed_iff_registered_witness :
  listed_names Tools.toolRegistry = ["system-info"; "file-read"; "file-write"]
  /\ (Tools.has "file-write" Tools.toolRegistry = true
      <-> In "file-write" (listed_names Tools.toolRegistry)).
Proof.
  assert (Hk : keyed_by_name Tools.toolRegistry) by (repeat constructor).
  destruct (listed_iff_registered Hk) as (_ & H2 & H3).
  split; [exact H2|apply H3].
Defined.

End RegistryFacts.

(* ----------------------------------------------------------------- *)
(** ** The gateway: auditing, status codes, tracing *)

Module GatewayFacts.
Import Js Server Notions Coverage.

(** Once a request names a registered tool and its inputs pass the
    tool's schema, the handler appends exactly one audit entry, whatever
    the executor does, and the entry agrees with the reply on the tool,
    the dry-run flag, the outcome and the error message. *)
Theorem valid_call_is_audited_once
  (registry : Tools.ToolRegistry) (host : Mcp.Host) (readings : Readings)
  (sink0 : AuditLogger.Sink) (request : Request)
  (parsed : Mcp.ToolCallRequest) (tool : Mcp.RegisteredTool)
  (v : Mcp.TInput tool) :
  Mcp.ToolCallRequestSchema (body request) = Zod.Ok parsed ->
  Tools.get (Mcp.req_tool parsed) registry = Some tool ->
  Mcp.inputSchema (Mcp.definition tool) (Mcp.req_inputs parsed) = Zod.Ok v ->
  let o := call registry host readings sink0 request in
  exists entry r,
    sink o = (sink0 ++ [entry])%list
    /\ reply o = CallResponse r
    /\ Mcp.resp_tool r = Mcp.req_tool parsed
    /\ Mcp.log_toolName entry = Mcp.resp_tool r
    /\ Mcp.log_dryRun entry = Mcp.resp_dryRun r
    /\ Mcp.log_result entry
       = (if Mcp.resp_success r then Mcp.audit_success else Mcp.audit_error)
    /\ Mcp.log_error entry = Mcp.resp_error r.
Proof.
  intros Hp Ht Hv o. unfold o, call. rewrite Hp, Ht, Hv.
  destruct (Mcp.executor tool v _ host) as [[result|err] events];
    eexists; eexists; simpl; repeat split; reflexivity.
Qed.

Lemma valid_call_is_audited_once_witness :
  let o :=
    call Tools.toolRegistry Sample.host Sample.readings []
      (Sample.request "file-read" Sample.read_root) in
  exists entry r,
    sink o = [entry]
    /\ reply o = CallResponse r
    /\ Mcp.resp_success r = false
    /\ Mcp.log_result entry = Mcp.audit_error
    /\ Mcp.log_error entry = Mcp.resp_error r.
Proof.
  destruct (@valid_call_is_audited_once Tools.toolRegistry Sample.host
              Sample.readings [] (Sample.request "file-read" Sample.read_root)
              (Sample.parsed "file-read" Sample.read_root) Sample.fileRead
              {| FileRead.path := "."; FileRead.maxBytes := 10000;
                 FileRead.encoding := FileRead.utf8 |}
              eq_refl eq_refl eq_refl)
    as (entry & r & Hs & Hr & _ & _ & _ & Hres & Herr).
  exists entry, r. split; [exact Hs|]. split; [exact Hr|].
  assert (E : Mcp.resp_success r = false).
  { assert (H : reply (call Tools.toolRegistry Sample.host Sample.readings []
                         (Sample.request "file-read" Sample.read_root))
                = CallResponse r) by exact Hr.
    vm_compute in H. injection H as <-. reflexivity. }
  split; [exact E|]. rewrite E in Hres. split; [exact Hres|exact Herr].
Defined.

(** The audit sink only grows, by at most one entry per request, and it
    grows exactly when the handler got as far as building an execution
    context (that is, when an executor was invoked). *)
Theorem sink_is_append_only
  (registry : Tools.ToolRegistry) (host : Mcp.Host) (readings : Readings)
  (sink0 : AuditLogger.Sink) (request : Request) :
  let o := call registry host readings sink0 request in
  exists new,
    sink o = (sink0 ++ new)%list
    /\ (List.length new <= 1)%nat
    /\ (new = [] <-> context o = None)
    /\ (new = [] -> fsEvents o = []).
Proof.
  intros o. unfold o, call.
  destruct (Mcp.ToolCallRequestSchema (body request)) as [parsed|errors];
    [|exists []; simpl; rewrite List.app_nil_r; repeat split; auto].
  destruct (Tools.get _ registry) as [tool|];
    [|exists []; simpl; rewrite List.app_nil_r; repeat split; auto].
  destruct (Mcp.inputSchema _ _) as [v|errors];
    [|exists []; simpl; rewrite List.app_nil_r; repeat split; auto].
  destruct (Mcp.executor tool v _ host) as [[result|err] events];
    eexists; simpl; (split; [reflexivity|]); (split; [simpl; lia|]);
    split; try (split; discriminate); discriminate.
Qed.

(** The five shapes an outcome can have. *)
Lemma call_shape
  (registry : Tools.ToolRegistry) (host : Mcp.Host) (readings : Readings)
  (sink0 : AuditLogger.Sink) (request : Request) :
  let o := call registry host readings sink0 request in
  (exists d, reply o = InvalidRequest d /\ status o = 400)
  \/ (exists e, reply o = ToolNotFound e /\ status o = 404)
  \/ (exists t d, reply o = InvalidToolInputs t d /\ status o = 400)
  \/ (exists r, reply o = CallResponse r /\ Mcp.resp_success r = true
                /\ status o = 200)
  \/ (exists r, reply o = CallResponse r /\ Mcp.resp_success r = false
                /\ (status o = 422 \/ status o = 500)).
Proof.
  intros o. unfold o, call.
  destruct (Mcp.ToolCallRequestSchema (body request)) as [parsed|errors];
    [|left; eexists; split; reflexivity].
  destruct (Tools.get _ registry) as [tool|];
    [|right; left; eexists; split; reflexivity].
  destruct (Mcp.inputSchema _ _) as [v|errors];
    [|right; right; left; eexists; eexists; split; reflexivity].
  do 3 right.
  destruct (Mcp.executor tool v _ host) as [[result|err] events]; simpl.
  - destruct (Mcp.success result) eqn:Es; [left|right]; eexists;
      (split; [reflexivity|]); simpl; auto.
  - right. eexists. split; [reflexivity|]. simpl. auto.
Qed.

Ltac outcome :=
  repeat match goal with
    | |- _ /\ _ => split
    | |- _ <-> _ => split
    | |- _ -> _ => intro
    | H : _ \/ _ |- _ => destruct H
    | H : exists _, _ |- _ => destruct H
    | H : _ /\ _ |- _ => destruct H
    | H : CallResponse _ = CallResponse _ |- _ => injection H as H; subst
    | H : _ = _ |- _ => discriminate H
    end;
  simpl; auto 7; try congruence;
  try (eexists; split; [reflexivity|eassumption]);
  try (eexists; reflexivity);
  try (left; eexists; reflexivity);
  try (right; eexists; eexists; reflexivity).

(** The status code tells the outcome: 200 exactly for a successful
    tool call, 404 exactly for an unknown tool, 400 exactly for a request
    or inputs refused by a schema, 422 and 500 exactly for a failed
    call. *)
Theorem status_tells_the_outcome
  (registry : Tools.ToolRegistry) (host : Mcp.Host) (readings : Readings)
  (sink0 : AuditLogger.Sink) (request : Request) :
  let o := call registry host readings sink0 request in
  In (status o) [200; 400; 404; 422; 500]
  /\ (status o = 200
      <-> exists r, reply o = CallResponse r /\ Mcp.resp_success r = true)
  /\ (status o = 404 <-> exists e, reply o = ToolNotFound e)
  /\ (status o = 400
      <-> (exists d, reply o = InvalidRequest d)
          \/ (exists t d, reply o = InvalidToolInputs t d))
  /\ (status o = 422 \/ status o = 500
      <-> exists r, reply o = CallResponse r /\ Mcp.resp_success r = false).
Proof.
  intros o.
  destruct (call_shape registry host readings sink0 request)
    as [(d & Hr & Hs)|[(e & Hr & Hs)|[(t & d & Hr & Hs)
       |[(r & Hr & Hok & Hs)|(r & Hr & Hok & [Hs|Hs])]]]];
    fold o in Hr, Hs; rewrite Hr, Hs; clear Hr Hs; outcome.
Qed.

(** An executor that throws does not take the handler down: the reply
    is a failure with status 500 that carries the message of what was
    thrown (['Unknown error'] for a value that is no [Error]), the audit
    entry records the same error, and the dry-run flag is still the
    registry's. *)
Theorem executor_throw_is_contained
  (registry : Tools.ToolRegistry) (host : Mcp.Host) (readings : Readings)
  (sink0 : AuditLogger.Sink) (request : Request)
  (parsed : Mcp.ToolCallRequest) (tool : Mcp.RegisteredTool)
  (v : Mcp.TInput tool) (err : thrown) (events : list Mcp.FsEvent) :
  Mcp.ToolCallRequestSchema (body request) = Zod.Ok parsed ->
  Tools.get (Mcp.req_tool parsed) registry = Some tool ->
  Mcp.inputSchema (Mcp.definition tool) (Mcp.req_inputs parsed) = Zod.Ok v ->
  Mcp.executor tool v (built_context readings request tool) host
  = (Threw err, events) ->
  let o := call registry host readings sink0 request in
  status o = 500
  /\ (exists r,
         reply o = CallResponse r
         /\ Mcp.resp_success r = false
         /\ Mcp.resp_error r = Some (message_of err)
         /\ Mcp.resp_result r = None
         /\ Mcp.resp_simulatedAction r = None
         /\ Mcp.resp_dryRun r
            = Mcp.ToolSafety_eqb (Mcp.safety (Mcp.definition tool)) Mcp.dangerous)
  /\ (exists entry,
         sink o = (sink0 ++ [entry])%list
         /\ Mcp.log_result entry = Mcp.audit_error
         /\ Mcp.log_error entry = Some (message_of err))
  /\ fsEvents o = events.
Proof.
  intros Hp Ht Hv He o. unfold o, call. rewrite Hp, Ht, Hv.
  unfold built_context in He. rewrite He. simpl.
  split; [reflexivity|]. split; [eexists; repeat split|].
  split; [eexists; repeat split|reflexivity].
Qed.

Lemma executor_throw_is_contained_witness :
  let o :=
    call flaky_registry Sample.host Sample.readings []
      (Sample.request "flaky" []) in
  status o = 500
  /\ exists r entry,
       reply o = CallResponse r
       /\ Mcp.resp_error r = Some "boom"
       /\ Mcp.resp_dryRun r = true
       /\ sink o = [entry]
       /\ Mcp.log_error entry = Some "boom".
Proof.
  destruct (@executor_throw_is_contained flaky_registry Sample.host
              Sample.readings [] (Sample.request "flaky" [])
              (Sample.parsed "flaky" []) flaky (JObj [])
              (ErrorObject "boom") [] eq_refl eq_refl eq_refl eq_refl)
    as (H1 & (r & Hr & _ & He & _ & _ & Hd) & (entry & Hs & _ & Hl) & _).
  split; [exact H1|]. exists r, entry.
  split; [exact Hr|]. split; [exact He|]. split; [exact Hd|].
  split; [exact Hs|exact Hl].
Defined.

(** The reply, the execution context and the audit entry of a call carry
    the same request id: the request's own id, or a fresh UUID when it
    has none.  The reply carries the time stamp of the context.  The
    audit entry does not: its time stamp is a reading of its own, taken
    when the entry is created.  The entry records the caller's intent,
    or the definition's when the caller gave none (or an empty one), the
    validated inputs, and the time between the first and the last
    reading of the clock. *)
Theorem call_is_traceable
  (registry : Tools.ToolRegistry) (host : Mcp.Host) (readings : Readings)
  (sink0 : AuditLogger.Sink) (request : Request)
  (parsed : Mcp.ToolCallRequest) (tool : Mcp.RegisteredTool)
  (v : Mcp.TInput tool) :
  Mcp.ToolCallRequestSchema (body request) = Zod.Ok parsed ->
  Tools.get (Mcp.req_tool parsed) registry = Some tool ->
  Mcp.inputSchema (Mcp.definition tool) (Mcp.req_inputs parsed) = Zod.Ok v ->
  let o := call registry host readings sink0 request in
  exists entry r ctx,
    sink o = (sink0 ++ [entry])%list
    /\ reply o = CallResponse r
    /\ context o = Some ctx
    /\ Mcp.requestId ctx
       = (if (id request =? "")%string then randomUUID readings else id request)
    /\ Mcp.resp_requestId r = Mcp.requestId ctx
    /\ Mcp.log_requestId entry = Mcp.requestId ctx
    /\ Mcp.timestamp ctx = contextTime readings
    /\ Mcp.resp_timestamp r = Mcp.timestamp ctx
    /\ Mcp.log_timestamp entry = auditTime readings
    /\ Mcp.log_durationMs entry = endTime readings - startTime readings
    /\ Mcp.log_inputs entry = as_unknown v
    /\ Mcp.log_intent entry
       = match Mcp.req_intent parsed with
         | Some i =>
             if (i =? "")%string then Mcp.intent (Mcp.definition tool) else i
         | None => Mcp.intent (Mcp.definition tool)
         end.
Proof.
  intros Hp Ht Hv o. unfold o, call. rewrite Hp, Ht, Hv.
  destruct (Mcp.executor tool v _ host) as [[result|err] events];
    eexists; eexists; eexists; simpl; repeat split; reflexivity.
Qed.

Lemma call_is_traceable_witness :
  let o :=
    call Tools.toolRegistry Sample.host Sample.readings []
      (Sample.request "file-write" Sample.write_hello) in
  exists entry r,
    sink o = [entry]
    /\ reply o = CallResponse r
    /\ Mcp.resp_requestId r = "req-1"
    /\ Mcp.log_requestId entry = "req-1"
    /\ Mcp.resp_timestamp r = 11
    /\ Mcp.log_timestamp entry = 12
    /\ Mcp.log_durationMs entry = 5
    /\ Mcp.log_intent entry = Mcp.intent FileWrite.fileWriteDefinition.
Proof.
  destruct (@call_is_traceable Tools.toolRegistry Sample.host
              Sample.readings [] (Sample.request "file-write" Sample.write_hello)
              (Sample.parsed "file-write" Sample.write_hello) Sample.fileWrite
              Sample.hello eq_refl eq_refl eq_refl)
    as (entry & r & ctx & Hs & Hr & _ & Hc & Hrid & Hlid & Hct & Hrt & Hlt
        & Hd & _ & Hi).
  exists entry, r. split; [exact Hs|]. split; [exact Hr|].
  split; [now rewrite Hrid, Hc|]. split; [now rewrite Hlid, Hc|].
  split; [now rewrite Hrt, Hct|]. split; [exact Hlt|].
  split; [exact Hd|exact Hi].
Defined.

(** What the request schema accepts: an object whose [tool] is a string,
    whose [inputs], if present, is an object (absent, it defaults to the
    empty object), and whose [intent], if present, is a string.  Other
    keys are ignored. *)
Theorem request_schema_accepts (b : value) (parsed : Mcp.ToolCallRequest) :
  Mcp.ToolCallRequestSchema b = Zod.Ok parsed
  <-> exists fields,
        b = JObj fields
        /\ lookup "tool" fields = Some (JStr (Mcp.req_tool parsed))
        /\ match lookup "inputs" fields with
           | None => Mcp.req_inputs parsed = JObj []
           | Some (JObj o) => Mcp.req_inputs parsed = JObj o
           | Some _ => False
           end
        /\ match lookup "intent" fields with
           | None => Mcp.req_intent parsed = None
           | Some (JStr s) => Mcp.req_intent parsed = Some s
           | Some _ => False
           end.
Proof.
  unfold Mcp.ToolCallRequestSchema. split.
  - destruct b as [| | | | |fields]; try discriminate.
    intros H. exists fields. split; [reflexivity|].
    unfold Zod.string_field in H.
    destruct (lookup "tool" fields) as [[| | |t| |]|];
      destruct (lookup "inputs" fields) as [[| | | | |o]|];
      destruct (lookup "intent" fields) as [[| | |given| |]|];
      simpl in H; try discriminate H; injection H as <-; repeat split.
  - intros (fields & -> & Ht & Hi & Hn). rewrite Ht. simpl.
    destruct parsed as [t i n]. simpl in *.
    destruct (lookup "inputs" fields) as [[| | | | |o]|]; try contradiction;
      destruct (lookup "intent" fields) as [[| | |given| |]|]; try contradiction;
      subst; reflexivity.
Qed.

End GatewayFacts.

(* ----------------------------------------------------------------- *)
(** ** The tools: what the schemas let through, what the executors do *)

Module ExecutorFacts.
Import Js Notions Coverage.

Lemma integer_value (q : Q) :
  Zod.is_integer q = true -> (q == inject_Z (Qnum (Qred q)))%Q.
Proof.
  unfold Zod.is_integer. intros H. apply Pos.eqb_eq in H.
  rewrite <- (Qred_correct q) at 1.
  destruct (Qred q) as [n d]. simpl in *. subst. reflexivity.
Qed.

(** A number field that passes its checks holds an integer within the
    bounds; an absent one holds the default. *)
Lemma int_field_ok key lo hi default v m :
  Zod.int_field key lo hi default v = (Some m, []) ->
  (v = None /\ m = default)
  \/ (exists q, v = Some (JNum q) /\ (q == inject_Z m)%Q /\ lo <= m <= hi).
Proof.
  unfold Zod.int_field. destruct v as [[| |q| | |]|]; try discriminate.
  - intros [= <- H]. right. exists q. split; [reflexivity|].
    destruct (Zod.is_integer q) eqn:Ei; [|discriminate H].
    destruct (Qle_bool (inject_Z lo) q) eqn:El; [|discriminate H].
    destruct (Qle_bool q (inject_Z hi)) eqn:Eh; [|discriminate H].
    pose proof (integer_value q Ei) as Eq. split; [exact Eq|].
    apply Qle_bool_iff in El, Eh. rewrite Eq in El, Eh.
    rewrite <- !Zle_Qle in *. lia.
  - intros [= <-]. left. split; reflexivity.
Qed.

Lemma enum_field_default (A : Type) key options (default a : A) :
  Zod.enum_field key options default None = (Some a, []) -> a = default.
Proof. intros [= <-]. reflexivity. Qed.

Lemma min_ok n msg p : Zod.min n msg p = [] -> n <= Z.of_nat (Str.length16 p).
Proof.
  unfold Zod.min. destruct (Z.ltb_spec (Z.of_nat (Str.length16 p)) n);
    [discriminate|auto].
Qed.

Lemma max_ok n msg p : Zod.max n msg p = [] -> Z.of_nat (Str.length16 p) <= n.
Proof.
  unfold Zod.max. destruct (Z.ltb_spec n (Z.of_nat (Str.length16 p)));
    [discriminate|auto].
Qed.

(** A character takes at most three bytes for each of its code units. *)
Lemma sequenced_bound s : forall pending,
  Str.sequenced pending s = true ->
  (String.length s <= 3 * Str.length16 s + pending)%nat.
Proof.
  induction s as [|c s IH]; intros pending H.
  - simpl. lia.
  - cbn [Str.sequenced] in H. cbn [String.length Str.length16].
    unfold Str.units. destruct pending as [|pending].
    + destruct (nat_of_ascii c <? 128)%nat; [apply IH in H; lia|].
      destruct (nat_of_ascii c <? 192)%nat; [discriminate|].
      destruct (nat_of_ascii c <? 224)%nat eqn:E2.
      { assert (E : (nat_of_ascii c <? 240)%nat = true)
          by (apply Nat.ltb_lt; apply Nat.ltb_lt in E2; lia).
        rewrite E. apply IH in H. lia. }
      destruct (nat_of_ascii c <? 240)%nat; [apply IH in H; lia|].
      destruct (nat_of_ascii c <? 248)%nat; [apply IH in H; lia|discriminate].
    + destruct ((128 <=? nat_of_ascii c) && (nat_of_ascii c <? 192))%nat eqn:E;
        [|discriminate].
      apply andb_true_iff in E. destruct E as [E1 E2].
      apply Nat.leb_le in E1. rewrite E2.
      destruct (nat_of_ascii c <? 128)%nat eqn:E3;
        [apply Nat.ltb_lt in E3; lia|].
      apply IH in H. lia.
Qed.

Lemma path_checks_not_empty p : FileRead.path_checks p = [] -> p <> "".
Proof.
  unfold FileRead.path_checks. intros H. apply app_eq_nil in H.
  destruct H as [H _]. apply min_ok in H. intros ->. simpl in H. lia.
Qed.

(** ** [file-read] *)

(** Inputs that pass [file-read]'s schema: the path is a non-empty
    string without [".."], [maxBytes] is an integer between 1 and
    1000000 (10000 when absent), and the encoding is [utf-8] when
    absent. *)
Theorem fileRead_schema_bounds (raw : value) (input : FileRead.FileReadInput) :
  FileRead.fileReadInputSchema raw = Zod.Ok input ->
  exists fields,
    raw = JObj fields
    /\ lookup "path" fields = Some (JStr (FileRead.path input))
    /\ FileRead.path input <> ""
    /\ Str.includes (FileRead.path input) ".." = false
    /\ 1 <= FileRead.maxBytes input <= 1000000
    /\ (lookup "maxBytes" fields = None -> FileRead.maxBytes input = 10000)
    /\ (lookup "encoding" fields = None -> FileRead.encoding input = FileRead.utf8).
Proof.
  unfold FileRead.fileReadInputSchema. destruct raw as [| | | | |fields];
    try discriminate.
  destruct (Zod.string_field "path" _ _) as [[p|] [|i1 e1]] eqn:E1;
    destruct (Zod.int_field "maxBytes" _ _ _ _) as [[m|] [|i2 e2]] eqn:E2;
    destruct (Zod.enum_field "encoding" _ _ _) as [[e|] [|i3 e3]] eqn:E3;
    try discriminate.
  intros [= <-]. exists fields. simpl.
  apply ToolFacts.string_field_ok in E1. destruct E1 as [Hl Hc].
  apply int_field_ok in E2.
  split; [reflexivity|]. split; [exact Hl|].
  split; [now apply path_checks_not_empty|].
  split; [now apply ToolFacts.path_checks_ok|].
  split; [|split].
  - destruct E2 as [[_ ->]|(q & _ & _ & H)]; lia.
  - intros Hn. destruct E2 as [[_ ->]|(q & Hq & _)]; [reflexivity|congruence].
  - intros Hn. rewrite Hn in E3. now apply enum_field_default in E3.
Qed.

Lemma fileRead_schema_bounds_witness :
  FileRead.fileReadInputSchema (JObj [("path", JStr "config.json")])
  = Zod.Ok read_config
  /\ 1 <= FileRead.maxBytes read_config <= 1000000.
Proof.
  split; [reflexivity|].
  destruct (@fileRead_schema_bounds (JObj [("path", JStr "config.json")])
              read_config eq_refl) as (fields & _ & _ & _ & _ & H & _).
  exact H.
Defined.

(** [file-read] succeeds only when the file could be read and is no
    longer than [maxBytes] bytes; the result then reports the normalized
    path, the length in bytes, and as content what the bytes decode to:
    their base64 form when that was asked for, and otherwise the text
    that decoding them as UTF-8 gives.  A longer file is a failure
    without data: nothing of it is returned. *)
Theorem fileRead_respects_the_byte_budget
  (input : FileRead.FileReadInput) (ctx : Mcp.ExecutionContext)
  (host : Mcp.Host) (r : Mcp.ToolExecutionResult FileRead.FileReadOutput)
  (events : list Mcp.FsEvent) :
  FileRead.fileReadExecutor input ctx host = (Returned r, events) ->
  (Mcp.success r = true ->
   exists buffer,
     Mcp.readFile host (resolved host (FileRead.path input)) = Returned buffer
     /\ Z.of_nat (String.length buffer) <= FileRead.maxBytes input
     /\ Mcp.data r
        = Some {| FileRead.out_path := Path.normalize (FileRead.path input);
                  FileRead.out_content :=
                    match FileRead.encoding input with
                    | FileRead.base64 => Mcp.toBase64 host buffer
                    | FileRead.utf8 => Mcp.toUtf8 host buffer
                    end;
                  FileRead.out_size := Z.of_nat (String.length buffer);
                  FileRead.out_encoding := FileRead.encoding input |})
  /\ (forall buffer,
         Mcp.readFile host (resolved host (FileRead.path input)) = Returned buffer ->
         FileRead.maxBytes input < Z.of_nat (String.length buffer) ->
         Mcp.success r = false /\ Mcp.data r = None).
Proof.
  unfold FileRead.fileReadExecutor, resolved.
  destruct (negb _).
  { intros [= <- <-]. split; [discriminate|]. intros; split; reflexivity. }
  destruct (Mcp.readFile host _) as [buffer|err].
  - destruct (Z.gtb_spec (Z.of_nat (String.length buffer)) (FileRead.maxBytes input));
      intros [= <- <-]; simpl.
    + split; [discriminate|]. intros; split; reflexivity.
    + split.
      * intros _. exists buffer. repeat split. lia.
      * intros b [= <-] Hb. lia.
  - intros [= <- <-]. split; [discriminate|]. intros b Hb. discriminate Hb.
Qed.

Lemma fileRead_respects_the_byte_budget_witness :
  exists r,
    FileRead.fileReadExecutor read_config Sample.wet Sample.host
    = (Returned r, [Mcp.FsRead "/tmp/mcp-sandbox/config.json"])
    /\ Mcp.success r = true
    /\ exists buffer,
         Mcp.readFile Sample.host "/tmp/mcp-sandbox/config.json" = Returned buffer
         /\ Z.of_nat (String.length buffer) <= 10000.
Proof.
  eexists. split; [reflexivity|]. split; [reflexivity|].
  destruct (proj1 (@fileRead_respects_the_byte_budget read_config Sample.wet
                     Sample.host _ _ eq_refl) eq_refl)
    as (buffer & Hb & Hl & _).
  exists buffer. split; [exact Hb|exact Hl].
Defined.

(** Called with any input at all, [file-read] returns a result -- a
    failure of [readFile] is reported, not thrown -- and performs at most
    one file system operation: a read of a path that starts with the
    resolved sandbox directory. *)
Theorem fileRead_reads_one_checked_path
  (input : FileRead.FileReadInput) (ctx : Mcp.ExecutionContext) (host : Mcp.Host) :
  exists r events,
    FileRead.fileReadExecutor input ctx host = (Returned r, events)
    /\ (events = []
        \/ events = [Mcp.FsRead (resolved host (FileRead.path input))]
           /\ Str.startsWith (resolved host (FileRead.path input))
                (sandbox_root host) = true)
    /\ (forall err,
           events <> [] ->
           Mcp.readFile host (resolved host (FileRead.path input)) = Threw err ->
           Mcp.success r = false
           /\ Mcp.error r = Some ("Failed to read file: " ++ message_of err)).
Proof.
  unfold FileRead.fileReadExecutor, resolved, sandbox_root.
  destruct (Str.startsWith _ _) eqn:Es; simpl negb; cbv iota.
  2:{ eexists. eexists. split; [reflexivity|]. split; [left; reflexivity|].
      intros err H. contradiction. }
  destruct (Mcp.readFile host _) as [buffer|err].
  - destruct (_ >? _); eexists; eexists; (split; [reflexivity|]);
      (split; [right; split; reflexivity|]); intros err _ H; discriminate H.
  - eexists. eexists. split; [reflexivity|].
    split; [right; split; reflexivity|].
    intros err' _ [= <-]. split; reflexivity.
Qed.

(** Whatever is asked of the server's registry, the handler writes
    nothing and reads only inside the sandbox: every file system
    operation of a call is a read of a path that is the sandbox
    directory or lies below it. *)
Theorem gateway_stays_in_the_sandbox
  (host : Mcp.Host) (readings : Server.Readings) (sink0 : AuditLogger.Sink)
  (request : Server.Request) :
  Path.isAbsolute (Mcp.cwd host) = true ->
  Forall (fun ev => exists p,
              ev = Mcp.FsRead p
              /\ Path.below_or_equal (sandbox_root host) p = true)
    (Server.fsEvents (Server.call Tools.toolRegistry host readings sink0 request)).
Proof.
  intros Hc. unfold Server.call.
  destruct (Mcp.ToolCallRequestSchema _) as [parsed|errors]; [|constructor].
  destruct (Tools.get _ _) as [tool|] eqn:Hg; [|constructor].
  apply ToolsFacts.get_toolRegistry in Hg.
  destruct Hg as [[_ ->]|[[_ ->]|[_ ->]]].
  - destruct (Mcp.inputSchema _ _) as [v|errors]; [|constructor].
    simpl. constructor.
  - change (Mcp.inputSchema (Mcp.definition Sample.fileRead))
      with FileRead.fileReadInputSchema.
    destruct (FileRead.fileReadInputSchema _) as [v|errors] eqn:Ev; [|constructor].
    change (Mcp.executor Sample.fileRead) with FileRead.fileReadExecutor.
    apply ToolFacts.fileRead_schema_ok in Ev.
    match goal with
    | |- context [FileRead.fileReadExecutor v ?c host] =>
        pose proof (@ToolFacts.fileRead_checked v c host
                      (@PathFacts.joined_startsWith_root (Mcp.cwd host) _ _ Hc
                         (ToolFacts.fileRead_sandbox_not_empty host) Ev)) as He;
        destruct (FileRead.fileReadExecutor v c host) as [[r|e] events]
    end;
      simpl in He; simpl; rewrite He; (constructor; [|constructor]);
      eexists; (split; [reflexivity|]);
      exact (@PathFacts.joined_below_or_equal (Mcp.cwd host) _ _ Hc
               (ToolFacts.fileRead_sandbox_not_empty host) Ev).
  - change (Mcp.inputSchema (Mcp.definition Sample.fileWrite))
      with FileWrite.fileWriteInputSchema.
    destruct (FileWrite.fileWriteInputSchema _) as [v|errors]; [|constructor].
    change (Mcp.executor Sample.fileWrite) with FileWrite.fileWriteExecutor.
    match goal with
    | |- context [FileWrite.fileWriteExecutor v ?c host] =>
        pose proof (ToolFacts.fileWrite_touches_nothing v c host) as He;
        destruct (FileWrite.fileWriteExecutor v c host) as [[r|e] events]
    end; simpl in He; simpl; rewrite He; constructor.
Qed.

Lemma gateway_stays_in_the_sandbox_witness :
  Server.fsEvents
    (Server.call Tools.toolRegistry Sample.host Sample.readings []
       (Sample.request "file-read" [("path", JStr "/etc/passwd")]))
  = [Mcp.FsRead "/tmp/mcp-sandbox/etc/passwd"]
  /\ Forall (fun ev => exists p,
                 ev = Mcp.FsRead p
                 /\ Path.below_or_equal (sandbox_root Sample.host) p = true)
       (Server.fsEvents
          (Server.call Tools.toolRegistry Sample.host Sample.readings []
             (Sample.request "file-read" [("path", JStr "/etc/passwd")]))).
Proof.
  split; [reflexivity|].
  exact (@gateway_stays_in_the_sandbox Sample.host Sample.readings []
           (Sample.request "file-read" [("path", JStr "/etc/passwd")]) eq_refl).
Defined.

(** ** [file-write] *)

(** Inputs that pass [file-write]'s schema: the path is a non-empty
    string without [".."], the content has a [length] of at most 100000
    -- counted in UTF-16 code units, not in bytes --, the mode is
    [overwrite] and [createDirs] is [false] when absent. *)
Theorem fileWrite_schema_bounds (raw : value) (input : FileWrite.FileWriteInput) :
  FileWrite.fileWriteInputSchema raw = Zod.Ok input ->
  exists fields,
    raw = JObj fields
    /\ lookup "path" fields = Some (JStr (FileWrite.path input))
    /\ lookup "content" fields = Some (JStr (FileWrite.content input))
    /\ FileWrite.path input <> ""
    /\ Str.includes (FileWrite.path input) ".." = false
    /\ Z.of_nat (Str.length16 (FileWrite.content input)) <= 100000
    /\ (lookup "mode" fields = None -> FileWrite.mode input = FileWrite.overwrite)
    /\ (lookup "createDirs" fields = None -> FileWrite.createDirs input = false).
Proof.
  unfold FileWrite.fileWriteInputSchema. destruct raw as [| | | | |fields];
    try discriminate.
  destruct (Zod.string_field "path" _ _) as [[p|] [|i1 e1]] eqn:E1;
    destruct (Zod.string_field "content" _ _) as [[c|] [|i2 e2]] eqn:E2;
    destruct (Zod.enum_field "mode" _ _ _) as [[m|] [|i3 e3]] eqn:E3;
    destruct (Zod.boolean_field "createDirs" _ _) as [[d|] [|i4 e4]] eqn:E4;
    try discriminate.
  intros [= <-]. exists fields. simpl.
  apply ToolFacts.string_field_ok in E1. destruct E1 as [Hl Hc].
  apply ToolFacts.string_field_ok in E2. destruct E2 as [Hl2 Hc2].
  split; [reflexivity|]. split; [exact Hl|]. split; [exact Hl2|].
  split; [now apply path_checks_not_empty|].
  split; [now apply ToolFacts.path_checks_ok|].
  split; [exact (max_ok _ _ _ Hc2)|]. split.
  - intros Hn. rewrite Hn in E3. now apply enum_field_default in E3.
  - intros Hn. rewrite Hn in E4. now injection E4 as <-.
Qed.

Lemma fileWrite_schema_bounds_witness :
  FileWrite.fileWriteInputSchema (JObj write_euros) = Zod.Ok euros
  /\ Str.length16 (FileWrite.content euros) = 2%nat
  /\ String.length (FileWrite.content euros) = 6%nat
  /\ Z.of_nat (Str.length16 (FileWrite.content euros)) <= 100000
  /\ FileWrite.mode euros = FileWrite.overwrite
  /\ FileWrite.createDirs euros = false.
Proof.
  split; [reflexivity|]. split; [reflexivity|]. split; [reflexivity|].
  destruct (@fileWrite_schema_bounds (JObj write_euros) euros eq_refl)
    as (fields & Hf & _ & _ & _ & _ & Hb & Hm & Hd).
  injection Hf as <-. split; [exact Hb|]. split; [apply Hm|apply Hd]; reflexivity.
Defined.

Lemma fileWrite_content_bound v input :
  FileWrite.fileWriteInputSchema v = Zod.Ok input ->
  Z.of_nat (Str.length16 (FileWrite.content input)) <= 100000.
Proof.
  unfold FileWrite.fileWriteInputSchema. destruct v; try discriminate.
  destruct (Zod.string_field "path" _ _) as [[p|] [|i1 e1]];
    destruct (Zod.string_field "content" _ _) as [[c|] [|i2 e2]] eqn:E2;
    destruct (Zod.enum_field "mode" _ _ _) as [[m|] [|i3 e3]];
    destruct (Zod.boolean_field "createDirs" _ _) as [[d|] [|i4 e4]];
    try discriminate.
  intros [= <-]. simpl. apply ToolFacts.string_field_ok in E2.
  exact (max_ok _ _ _ (proj2 E2)).
Qed.

(** A simulated write is aimed inside the sandbox.  On inputs that
    passed the schema, with an absolute working directory and in
    dry-run mode, [file-write] succeeds without touching a file; the
    action it describes names the mode, the size of the content in
    bytes and a target that is the sandbox directory or lies below it.
    The size in bytes is not bounded by the schema's 100000, which
    limits the content's [length]: a well-formed content may take up to
    three bytes for each unit of its length. *)
Theorem fileWrite_simulation_targets_the_sandbox
  (raw : value) (input : FileWrite.FileWriteInput) (ctx : Mcp.ExecutionContext)
  (host : Mcp.Host) :
  Path.isAbsolute (Mcp.cwd host) = true ->
  FileWrite.fileWriteInputSchema raw = Zod.Ok input ->
  Mcp.dryRun ctx = true ->
  exists data target,
    FileWrite.fileWriteExecutor input ctx host
    = (Returned
         {| Mcp.success := true;
            Mcp.data := Some data;
            Mcp.error := None;
            Mcp.simulatedAction :=
              Some ("Would " ++ FileWrite.Mode_text (FileWrite.mode input) ++ " "
                    ++ Str.of_Z (FileWrite.out_bytesWritten data) ++ " bytes to "
                    ++ target
                    ++ (if FileWrite.createDirs input
                        then " (creating parent directories)" else "")) |},
       [])
    /\ Path.below_or_equal (sandbox_root host) target = true
    /\ FileWrite.out_path data = Path.normalize (FileWrite.path input)
    /\ FileWrite.out_mode data = FileWrite.mode input
    /\ FileWrite.out_bytesWritten data
       = Z.of_nat (String.length (FileWrite.content input))
    /\ Z.of_nat (Str.length16 (FileWrite.content input)) <= 100000
    /\ (Str.well_formed (FileWrite.content input) = true ->
        FileWrite.out_bytesWritten data <= 300000).
Proof.
  intros Hc Hs Hd.
  pose proof (fileWrite_content_bound _ Hs) as Hb.
  apply ToolFacts.fileWrite_schema_ok in Hs.
  unfold FileWrite.fileWriteExecutor.
  rewrite (@PathFacts.joined_startsWith_root (Mcp.cwd host) _ _ Hc
             (ToolFacts.fileWrite_sandbox_not_empty host) Hs), Hd.
  simpl negb. cbv iota.
  exists {| FileWrite.out_path := Path.normalize (FileWrite.path input);
            FileWrite.out_bytesWritten :=
              FileWrite.byteLength (FileWrite.content input);
            FileWrite.out_mode := FileWrite.mode input |},
    (Path.resolve (Mcp.cwd host)
       (Path.join (FileWrite.SANDBOX_DIR host)
          (Path.normalize (FileWrite.path input)))).
  split; [reflexivity|].
  split; [|split; [reflexivity|split; [reflexivity|split; [reflexivity|]]]].
  - exact (@PathFacts.joined_below_or_equal (Mcp.cwd host) _ _ Hc
             (ToolFacts.fileWrite_sandbox_not_empty host) Hs).
  - split; [exact Hb|]. intros Hw. apply sequenced_bound in Hw.
    cbn [FileWrite.out_bytesWritten]. unfold FileWrite.byteLength. lia.
Qed.

Lemma fileWrite_simulation_targets_the_sandbox_witness :
  exists data target,
    FileWrite.fileWriteExecutor euros Sample.dry Sample.host
    = (Returned
         {| Mcp.success := true;
            Mcp.data := Some data;
            Mcp.error := None;
            Mcp.simulatedAction :=
              Some ("Would overwrite "
                    ++ Str.of_Z (FileWrite.out_bytesWritten data) ++ " bytes to "
                    ++ target ++ "") |},
       [])
    /\ Path.below_or_equal (sandbox_root Sample.host) target = true
    /\ FileWrite.out_path data = "hello.txt"
    /\ FileWrite.out_mode data = FileWrite.overwrite
    /\ FileWrite.out_bytesWritten data = 6
    /\ Z.of_nat (Str.length16 (FileWrite.content euros)) <= 100000
    /\ (Str.well_formed (FileWrite.content euros) = true ->
        FileWrite.out_bytesWritten data <= 300000).
Proof.
  exact (@fileWrite_simulation_targets_the_sandbox (JObj write_euros)
           euros Sample.dry Sample.host eq_refl eq_refl eq_refl).
Defined.

(** ** [system-info] *)

Lemma Category_eqb_eq a b : Category_eqb a b = true <-> a = b.
Proof.
  destruct a, b; split; intros H; try reflexivity; try discriminate H;
    vm_compute in H; discriminate H.
Qed.

Ltac eval_eqb :=
  repeat match goal with
    | |- context [Category_eqb ?a ?b] =>
        let v := eval vm_compute in (Category_eqb a b) in
        change (Category_eqb a b) with v
    end.

Lemma requested_In c input :
  requested c input = true <-> In c (SystemInfo.include input).
Proof.
  unfold requested. rewrite existsb_exists. split.
  - intros (x & Hx & E). apply Category_eqb_eq in E. now subst.
  - intros H. exists c. split; [exact H|now apply Category_eqb_eq].
Qed.

(** The memory report of a host. *)
Lemma collected host l : forall acc,
  let data := fold_left (SystemInfo.add_category host) l acc in
  SystemInfo.out_platform data
  = (if existsb (Category_eqb SystemInfo.platform) l
     then Some (Mcp.os_platform host) else SystemInfo.out_platform acc)
  /\ SystemInfo.out_arch data
     = (if existsb (Category_eqb SystemInfo.platform) l
        then Some (Mcp.os_arch host) else SystemInfo.out_arch acc)
  /\ SystemInfo.out_memory data
     = (if existsb (Category_eqb SystemInfo.memory) l
        then Some {| SystemInfo.total := Mcp.os_totalmem host;
                     SystemInfo.free := Mcp.os_freemem host;
                     SystemInfo.used := Mcp.os_totalmem host - Mcp.os_freemem host;
                     SystemInfo.usedPercent :=
                       SystemInfo.percent
                         (Mcp.os_totalmem host - Mcp.os_freemem host)
                         (Mcp.os_totalmem host) |}
        else SystemInfo.out_memory acc)
  /\ SystemInfo.out_uptime data
     = (if existsb (Category_eqb SystemInfo.uptime) l
        then Some (Mcp.os_uptime host) else SystemInfo.out_uptime acc)
  /\ SystemInfo.out_nodeVersion data
     = (if existsb (Category_eqb SystemInfo.nodeVersion) l
        then Some (Mcp.process_version host) else SystemInfo.out_nodeVersion acc).
Proof.
  induction l as [|c l IH]; intros acc; [repeat split|].
  simpl fold_left. destruct (IH (SystemInfo.add_category host acc c))
    as (H1 & H2 & H3 & H4 & H5).
  cbv zeta. rewrite H1, H2, H3, H4, H5. cbn [existsb].
  destruct c; eval_eqb; cbn [orb SystemInfo.add_category SystemInfo.out_platform
    SystemInfo.out_arch SystemInfo.out_memory SystemInfo.out_uptime
    SystemInfo.out_nodeVersion];
    destruct (existsb (Category_eqb SystemInfo.platform) l),
      (existsb (Category_eqb SystemInfo.memory) l),
      (existsb (Category_eqb SystemInfo.uptime) l),
      (existsb (Category_eqb SystemInfo.nodeVersion) l);
    repeat split.
Qed.

(** [system-info] always succeeds, touches no file, and reports exactly
    the categories asked for, however often and in whatever order they
    are listed: [platform] gives the platform and the architecture, and
    each other category its own field. *)
Theorem systemInfo_reports_what_is_asked
  (input : SystemInfo.SystemInfoInput) (ctx : Mcp.ExecutionContext)
  (host : Mcp.Host) :
  exists data,
    SystemInfo.systemInfoExecutor input ctx host
    = (Returned {| Mcp.success := true; Mcp.data := Some data;
                   Mcp.error := None; Mcp.simulatedAction := None |}, [])
    /\ is_some (SystemInfo.out_platform data) = requested SystemInfo.platform input
    /\ is_some (SystemInfo.out_arch data) = requested SystemInfo.platform input
    /\ is_some (SystemInfo.out_memory data) = requested SystemInfo.memory input
    /\ is_some (SystemInfo.out_uptime data) = requested SystemInfo.uptime input
    /\ is_some (SystemInfo.out_nodeVersion data)
       = requested SystemInfo.nodeVersion input.
Proof.
  eexists. split; [reflexivity|].
  match goal with
  | |- context [fold_left _ _ ?acc] =>
      destruct (collected host (SystemInfo.include input) acc)
        as (H1 & H2 & H3 & H4 & H5)
  end.
  cbv zeta in *. rewrite H1, H2, H3, H4, H5. unfold requested.
  destruct (existsb (Category_eqb SystemInfo.platform) _),
    (existsb (Category_eqb SystemInfo.memory) _),
    (existsb (Category_eqb SystemInfo.uptime) _),
    (existsb (Category_eqb SystemInfo.nodeVersion) _); repeat split.
Qed.

(** The memory report: [used] is [total - free], so that the three
    figures add up; on a host whose free memory is between zero and the
    total, [total >= used >= 0]. *)
Theorem systemInfo_memory_adds_up
  (input : SystemInfo.SystemInfoInput) (ctx : Mcp.ExecutionContext)
  (host : Mcp.Host) (r : Mcp.ToolExecutionResult SystemInfo.SystemInfoOutput)
  (events : list Mcp.FsEvent) :
  In SystemInfo.memory (SystemInfo.include input) ->
  SystemInfo.systemInfoExecutor input ctx host = (Returned r, events) ->
  exists data m,
    Mcp.data r = Some data
    /\ SystemInfo.out_memory data = Some m
    /\ SystemInfo.total m = Mcp.os_totalmem host
    /\ SystemInfo.free m = Mcp.os_freemem host
    /\ SystemInfo.used m + SystemInfo.free m = SystemInfo.total m
    /\ (0 <= Mcp.os_freemem host <= Mcp.os_totalmem host ->
        0 <= SystemInfo.used m <= SystemInfo.total m).
Proof.
  intros Hin. apply requested_In in Hin. unfold requested in Hin.
  unfold SystemInfo.systemInfoExecutor. intros [= <- <-]. simpl.
  match goal with
  | |- context [fold_left _ _ ?acc] =>
      destruct (collected host (SystemInfo.include input) acc)
        as (_ & _ & H3 & _)
  end.
  cbv zeta in H3. rewrite Hin in H3.
  eexists. eexists. split; [reflexivity|]. split; [exact H3|]. simpl.
  repeat split; lia.
Qed.

Lemma systemInfo_memory_adds_up_witness :
  exists data m,
    fst (SystemInfo.systemInfoExecutor memory_only Sample.wet Sample.host)
    = Returned {| Mcp.success := true; Mcp.data := Some data;
                  Mcp.error := None; Mcp.simulatedAction := None |}
    /\ SystemInfo.out_memory data = Some m
    /\ 0 <= SystemInfo.used m <= SystemInfo.total m.
Proof.
  destruct (@systemInfo_memory_adds_up memory_only Sample.wet Sample.host _ _
              (or_introl eq_refl) eq_refl)
    as (data & m & Hd & Hm & _ & _ & _ & Hb).
  simpl in Hd. injection Hd as <-.
  eexists. exists m. split; [reflexivity|]. split; [exact Hm|].
  apply Hb. simpl. lia.
Defined.

Lemma parse_category_text v c :
  SystemInfo.parse_category v = Some c -> v = JStr (Category_text c).
Proof.
  destruct v as [| | |s| |]; try discriminate.
  unfold SystemInfo.parse_category, SystemInfo.categories. cbn [find fst].
  destruct (String.eqb_spec "platform" s) as [<-|_];
    [cbn [option_map snd]; intros [= <-]; reflexivity|].
  destruct (String.eqb_spec "memory" s) as [<-|_];
    [cbn [option_map snd]; intros [= <-]; reflexivity|].
  destruct (String.eqb_spec "uptime" s) as [<-|_];
    [cbn [option_map snd]; intros [= <-]; reflexivity|].
  destruct (String.eqb_spec "nodeVersion" s) as [<-|_];
    [cbn [option_map snd]; intros [= <-]; reflexivity|].
  discriminate.
Qed.

Lemma parse_categories_ok items : forall cs,
  SystemInfo.parse_categories items = Some cs
  <-> items = map (fun c => JStr (Category_text c)) cs.
Proof.
  induction items as [|v items IH]; intros cs; simpl.
  - split; [intros [= <-]; reflexivity|]. destruct cs; [reflexivity|discriminate].
  - split.
    + destruct (SystemInfo.parse_category v) as [c|] eqn:Ec; [|discriminate].
      destruct (SystemInfo.parse_categories items) as [cs'|] eqn:Ep;
        [|discriminate].
      intros [= <-]. simpl. f_equal; [|now apply IH].
      now apply parse_category_text.
    + destruct cs as [|c cs]; [discriminate|]. simpl. intros [= -> ->].
      assert (Ec : SystemInfo.parse_category (JStr (Category_text c)) = Some c)
        by (destruct c; reflexivity).
      rewrite Ec. rewrite (proj2 (IH cs) eq_refl). reflexivity.
Qed.

(** What [system-info]'s schema accepts: an object whose [include] is
    absent -- the categories then default to [platform] and
    [nodeVersion] -- or an array of the four category names; any other
    name in the array (such as ["cpus"]) is refused. *)
Theorem systemInfo_schema_accepts (fields : list (string * value))
  (input : SystemInfo.SystemInfoInput) :
  SystemInfo.systemInfoInputSchema (JObj fields) = Zod.Ok input
  <-> (lookup "include" fields = None
       /\ SystemInfo.include input = [SystemInfo.platform; SystemInfo.nodeVersion])
      \/ lookup "include" fields
         = Some (JArr (map (fun c => JStr (Category_text c))
                         (SystemInfo.include input))).
Proof.
  unfold SystemInfo.systemInfoInputSchema. destruct input as [cs]. simpl.
  destruct (lookup "include" fields) as [[| | | |items|]|].
  1-4,6: split; [discriminate|intros [[H _]|H]; discriminate H].
  - destruct (SystemInfo.parse_categories items) as [cs'|] eqn:Ep.
    + split.
      * intros [= ->]. right. apply parse_categories_ok in Ep. now rewrite Ep.
      * intros [[H _]|[= H]]; [discriminate H|].
        apply parse_categories_ok in H. rewrite Ep in H. now injection H as ->.
    + split; [discriminate|]. intros [[H _]|[= H]]; [discriminate H|].
      apply parse_categories_ok in H. congruence.
  - split.
    + intros [= <-]. left. split; reflexivity.
    + intros [[_ ->]|H]; [reflexivity|discriminate H].
Qed.

Lemma cpus_is_refused :
  SystemInfo.systemInfoInputSchema (JObj [("include", JArr [JStr "cpus"])])
  = Zod.ZodError
      [{| Zod.path := ["include"]; Zod.message := "Invalid enum value" |}].
Proof. reflexivity. Qed.

End ExecutorFacts.

(* ----------------------------------------------------------------- *)
(** ** The agent loop *)

Module AgentFacts.
Import Js Outside Client Base Coverage.

(** What one call of a wrapper does to the history, and how it ends. *)
Lemma wrapper_trace w client toolName agentName toolInput st res st' :
  func (createMCPToolWrapper w client toolName agentName) toolInput st = (res, st') ->
  posted st'
  = (posted st
     ++ [{| tool := toolName; inputs := toolInput;
            intent := Some (intent_of agentName toolName) |}])%list
  /\ runs st' = runs st
  /\ modelQueries st' = modelQueries st
  /\ clockReadings st' = clockReadings st
  /\ (forall e, res = Threw e -> exists s r, post_call w s r = Threw e).
Proof.
  unfold createMCPToolWrapper, func, bind, callTool, intent_of.
  match goal with
  | |- context [post_call w st ?r] =>
      destruct (post_call w st r) as [response|e] eqn:Ep
  end.
  - destruct (negb (success response)); intros [= <- <-];
      repeat (split; [reflexivity|]); intros e [=].
  - intros [= <- <-]. repeat (split; [reflexivity|]).
    intros e' [= <-]. eauto.
Qed.

(** One call of a step: what it posts, and why it can fail. *)
Lemma act_trace w client allowed agentName call st o st' :
  act w (createMCPToolWrappers w client allowed agentName) call st = (o, st') ->
  exists new,
    posted st' = (posted st ++ new)%list
    /\ Forall (sent_by agentName allowed) new
    /\ modelQueries st' = modelQueries st
    /\ clockReadings st' = clockReadings st
    /\ (forall e, o = Failed e ->
          exists s r e0, post_call w s r = Threw e0 /\ tool_error w e0 = Threw e).
Proof.
  unfold act.
  destruct (toolsByName _ _) as [t|] eqn:Ef.
  - apply BaseFacts.toolsByName_In in Ef. unfold createMCPToolWrappers in Ef.
    apply in_map_iff in Ef. destruct Ef as (toolName & <- & Hallowed).
    destruct (schema _ (snd call)) as [parsed|] eqn:Es.
    + change (toolSchemas toolName (snd call) = Some parsed) in Es.
      destruct (func _ parsed st) as [[text|e] st1] eqn:Ew;
        apply wrapper_trace in Ew; destruct Ew as (Hp & _ & Hq & Hc & He);
        [|destruct (tool_error w e) as [text|e'] eqn:Et];
        intros [= <- <-]; eexists [_]; (split; [exact Hp|]);
        (split; [constructor; [|constructor];
                 (split; [exact Hallowed|]); (split; [reflexivity|]);
                 exists (snd call); exact Es|]);
        (split; [exact Hq|]); (split; [exact Hc|]); intros e1 [=].
      subst e1. destruct (He e eq_refl) as (s0 & r0 & Hpost).
      exists s0, r0, e. auto.
    + intros [= <- <-]. exists []. rewrite List.app_nil_r.
      repeat (split; [auto|]). intros e [=].
  - intros [= <- <-]. exists []. rewrite List.app_nil_r.
    repeat (split; [auto|]). intros e [=].
Qed.

Lemma act_all_trace w client allowed agentName calls : forall st os st',
  act_all w (createMCPToolWrappers w client allowed agentName) calls st = (os, st') ->
  exists new,
    posted st' = (posted st ++ new)%list
    /\ Forall (sent_by agentName allowed) new
    /\ modelQueries st' = modelQueries st
    /\ clockReadings st' = clockReadings st
    /\ (forall e, In (Failed e) os ->
          exists s r e0, post_call w s r = Threw e0 /\ tool_error w e0 = Threw e).
Proof.
  induction calls as [|call calls IH]; intros st os st'; cbn [act_all].
  - intros [= <- <-]. exists []. rewrite List.app_nil_r.
    repeat (split; [auto|]). intros e [].
  - destruct (act _ _ call st) as [o st1] eqn:Ea.
    destruct (act_all _ _ calls st1) as [os' st2] eqn:Er.
    intros [= <- <-]. apply act_trace in Ea. apply IH in Er.
    destruct Ea as (new1 & Hp1 & Hall1 & Hq1 & Hc1 & Hf1).
    destruct Er as (new2 & Hp2 & Hall2 & Hq2 & Hc2 & Hf2).
    exists (new1 ++ new2)%list. rewrite Hp2, Hp1, List.app_assoc.
    split; [reflexivity|]. split; [now apply Forall_app|].
    split; [congruence|]. split; [congruence|].
    intros e [->|Hin]; [now apply Hf1|now apply Hf2].
Qed.

(** A step fails with the schema error or with what one of its calls
    failed with. *)
Lemma settle_threw os e :
  settle os = Threw e -> e = mismatch \/ In (Failed e) os.
Proof.
  unfold settle. destruct (existsb is_mismatch os); [intros [= <-]; now left|].
  destruct (flat_map _ os) as [|e0 rest] eqn:Ef; [discriminate|].
  intros [= <-]. right.
  assert (Hin : In e0 (flat_map (fun o => match is_failed o with
                                          | Some e => [e]
                                          | None => []
                                          end) os))
    by (rewrite Ef; now left).
  apply in_flat_map in Hin. destruct Hin as (o & Ho & Hin).
  destruct o as [text| |e1]; simpl in Hin; try contradiction.
  destruct Hin as [->|[]]. exact Ho.
Qed.

(** The agent loop, however the model answers: what it posts, how often
    it consults the model, and why it can fail. *)
Lemma iterate_trace w client allowed agentName prompt input fuel :
  forall observations st res st',
    iterate w (createMCPToolWrappers w client allowed agentName)
      prompt input fuel observations st = (res, st') ->
    exists new,
      posted st' = (posted st ++ new)%list
      /\ Forall (sent_by agentName allowed) new
      /\ (modelQueries st' <= modelQueries st + fuel)%nat
      /\ clockReadings st' = clockReadings st
      /\ (forall e, res = Threw e ->
            (exists s p i o, model w s p i o = ModelFailure e)
            \/ e = mismatch
            \/ (exists s r e0,
                   post_call w s r = Threw e0 /\ tool_error w e0 = Threw e)).
Proof.
  induction fuel as [|fuel IH]; intros observations st res st' H.
  - injection H as <- <-. exists []. rewrite List.app_nil_r.
    repeat split; auto; simpl; try lia. intros e [=].
  - simpl in H. unfold bind, ask_model in H.
    destruct (model w st prompt input observations) as [out|calls|e] eqn:Em.
    + injection H as <- <-. exists []. simpl. rewrite List.app_nil_r.
      repeat split; auto; try lia. intros e [=].
    + destruct (act_all _ _ calls _) as [os st1] eqn:Ea.
      apply act_all_trace in Ea.
      destruct Ea as (new1 & Hp1 & Hall1 & Hq1 & Hc1 & Hf1).
      simpl in Hp1, Hq1, Hc1.
      destruct (settle os) as [new|e] eqn:Es.
      * apply IH in H. destruct H as (new2 & Hp2 & Hall2 & Hq2 & Hc2 & Hf2).
        exists (new1 ++ new2)%list. rewrite Hp2, Hp1, List.app_assoc.
        split; [reflexivity|]. split; [now apply Forall_app|].
        split; [lia|]. split; [congruence|exact Hf2].
      * injection H as <- <-. exists new1. split; [exact Hp1|].
        split; [exact Hall1|]. split; [lia|]. split; [exact Hc1|].
        intros e' [= <-]. right.
        destruct (settle_threw _ Es) as [->|Hin]; [now left|right].
        now apply Hf1.
    + injection H as <- <-. exists []. simpl. rewrite List.app_nil_r.
      repeat split; auto; try lia. intros e' [= <-]. left. eauto.
Qed.

(** Every request a run of an agent posts carries the agent's intent
    line, [Agent "<name>" calling <tool>], with the name the agent was
    created with and the tool the request is for.  Its inputs are what
    the wrapper's schema for that tool made of the model's input: they
    hold the keys of that schema and no others. *)
Theorem requests_carry_the_agents_intent
  (w : World) (config : AgentConfig) (st st1 st2 : State)
  (agent : ConstrainedAgent) (input : string)
  (res : completion AgentRunResult) :
  create w config st = (Returned agent, st1) ->
  run w agent input st1 = (res, st2) ->
  exists new,
    posted st2 = (posted st1 ++ new)%list
    /\ Forall (fun r =>
                 intent r = Some (intent_of (cfg_name config) (tool r))
                 /\ exists raw, toolSchemas (tool r) raw = Some (inputs r)) new.
Proof.
  intros Hc Hr. apply BaseFacts.create_returned in Hc.
  destruct Hc as (-> & Hn & Ha & Ht & Hs).
  unfold run, invoke in Hr. rewrite Ht in Hr.
  destruct (iterate _ _ _ _ _ _ st) as [[out|e] st'] eqn:Ei;
    apply iterate_trace in Ei; destruct Ei as (new & Hp & Hall & _);
    injection Hr as _ <-; simpl; exists new;
    (split; [exact Hp|]);
    (eapply Forall_impl; [|exact Hall]); intros r (_ & Hi & Hraw); auto.
Qed.

Lemma requests_carry_the_agents_intent_witness :
  exists st2,
    snd (run eager (agent_of_config eager (History.analyst Sample.client))
           "read the config" initial) = st2
    /\ posted st2
       = [{| tool := "file-read";
             inputs := JObj [("path", JStr "config.json")];
             intent := Some (intent_of "FileAnalyst" "file-read") |};
          {| tool := "file-read";
             inputs := JObj [("path", JStr "notes.txt")];
             intent := Some (intent_of "FileAnalyst" "file-read") |}]
    /\ exists new,
         posted st2 = (posted initial ++ new)%list
         /\ Forall (fun r =>
                      intent r = Some (intent_of "FileAnalyst" (tool r))
                      /\ exists raw, toolSchemas (tool r) raw = Some (inputs r))
              new.
Proof.
  eexists. split; [reflexivity|]. split; [vm_compute; reflexivity|].
  exact (@requests_carry_the_agents_intent eager
           (History.analyst Sample.client)
           initial initial _ _ "read the config" _ eq_refl
           (surjective_pairing _)).
Defined.



End AgentFacts.

(* ----------------------------------------------------------------- *)
(** ** The orchestrator *)

Module RouterFacts.
Import Js Outside Client Base Agents Orchestrator History Coverage.

(** [Orchestrator.run], outcome by outcome. *)
Lemma run_eq w mcpClient input st :
  run w mcpClient input st =
  if health w (snd (Date_now w st)) then
    match dispatch w mcpClient input (snd (Date_now w st)) with
    | (Returned results, st2) =>
        (Returned
           {| success := true;
              result_taskType := routed input;
              agentResults := results;
              finalOutput := synthesizeOutput (routed input) results;
              totalDurationMs := now w st2 - now w st;
              error := None |},
         snd (Date_now w st2))
    | (Threw e, st2) =>
        (Returned
           {| success := false;
              result_taskType :=
                match taskType input with
                | Some t => t
                | None => system_diagnostic
                end;
              agentResults := [];
              finalOutput := "";
              totalDurationMs := now w st2 - now w st;
              error := Some (message_of e) |},
         snd (Date_now w st2))
    end
  else
    (Returned
       {| success := false;
          result_taskType := system_diagnostic;
          agentResults := [];
          finalOutput := "";
          totalDurationMs := now w (snd (Date_now w st)) - now w st;
          error :=
            Some "MCP server is not available. Please ensure it is running." |},
     snd (Date_now w (snd (Date_now w st)))).
Proof.
  unfold run, try_catch, healthCheck, dispatch, routed.
  unfold bind at 1 2. cbn [Date_now fst snd].
  destruct (health w _); cbn [negb]; [|reflexivity].
  destruct (taskType input) as [[]|]; [| | | |destruct (classifyTask (task input))];
    unfold bind, ret;
    repeat match goal with
      | |- context [runSystemDiagnostic ?a ?b ?c ?s] =>
          destruct (runSystemDiagnostic a b c s) as [[?r|?e] ?st]
      | |- context [runFileAnalysis ?a ?b ?c ?s] =>
          destruct (runFileAnalysis a b c s) as [[?r|?e] ?st]
      | |- context [runChangeProposal ?a ?b ?c ?s] =>
          destruct (runChangeProposal a b c s) as [[?r|?e] ?st]
      | |- context [runCompositeWorkflow ?a ?b ?c ?s] =>
          destruct (runCompositeWorkflow a b c s) as [[?r|?e] ?st]
      end; reflexivity.
Qed.

(** *** What the steps post *)

Lemma agent_step_trace w config label task st res st' :
  agent_step w config label task st = (res, st') ->
  exists new,
    posted st' = (posted st ++ new)%list
    /\ Forall (fun r => In (tool r) (cfg_allowedTools config)
                        /\ intent r = Some (intent_of (cfg_name config) (tool r)))
         new
    /\ (forall r, res = Returned r -> agent_toolCalls r = []).
Proof.
  unfold agent_step, bind, Date_now, create.
  set (st1 := {| posted := posted st; runs := runs st;
                 modelQueries := modelQueries st;
                 clockReadings := S (clockReadings st) |}).
  destruct (construct w st1) as [e|].
  { intros [= <- <-]. exists []. rewrite List.app_nil_r.
    split; [reflexivity|]. split; [constructor|]. intros r [=]. }
  unfold Base.run, invoke, bind, record_run, ret, throw. cbn [executor tools
    systemPrompt maxIterations name].
  destruct (iterate _ _ _ _ _ _ st1) as [[out|e] st2] eqn:Ei;
    apply AgentFacts.iterate_trace in Ei; destruct Ei as (new & Hp & Hall & _);
    change (posted st1) with (posted st) in Hp;
    intros [= <- <-]; exists new; cbn [posted];
    (split; [exact Hp|]);
    (split; [eapply Forall_impl; [|exact Hall]; intros r (H1 & H2 & _); auto|]).
  - intros r [= <-]. reflexivity.
  - intros r [=].
Qed.

Lemma step_by_agents w config label task st res st' labels :
  In (cfg_name config) labels ->
  cfg_allowedTools config = tools_of_agent (cfg_name config) ->
  agent_step w config label task st = (res, st') ->
  exists new,
    posted st' = (posted st ++ new)%list
    /\ Forall (by_agents labels) new
    /\ (forall r, res = Returned r -> agent_toolCalls r = []).
Proof.
  intros Hin Ht H. apply agent_step_trace in H.
  destruct H as (new & Hp & Hall & Hq). exists new.
  split; [exact Hp|]. split; [|exact Hq].
  eapply Forall_impl; [|exact Hall]. intros r [Hr Hi].
  exists (cfg_name config). rewrite <- Ht. auto.
Qed.

Lemma stage_trace w flag config label heading task acc st res st' labels :
  (flag = true -> In (cfg_name config) labels) ->
  cfg_allowedTools config = tools_of_agent (cfg_name config) ->
  Forall (fun r => agent_toolCalls r = []) (fst acc) ->
  stage w flag config label heading task acc st = (res, st') ->
  exists new,
    posted st' = (posted st ++ new)%list
    /\ Forall (by_agents labels) new
    /\ (forall acc', res = Returned acc' ->
          Forall (fun r => agent_toolCalls r = []) (fst acc')).
Proof.
  intros Hin Ht Hq. unfold stage. destruct flag.
  - unfold bind.
    destruct (agent_step w config label _ st) as [[r|e] st1] eqn:Es;
      eapply step_by_agents in Es; eauto;
      destruct Es as (new & Hp & Hall & Hr); intros [= <- <-];
      exists new; (split; [exact Hp|]); (split; [exact Hall|]).
    + intros acc' [= <-]. cbn [fst]. apply Forall_app. split; [exact Hq|].
      constructor; [|constructor]. now apply Hr.
    + intros acc' [=].
  - intros [= <- <-]. exists []. rewrite List.app_nil_r.
    split; [reflexivity|]. split; [constructor|]. now intros acc' [= <-].
Qed.

Lemma workflow_trace w mcpClient input st res st' :
  runCompositeWorkflow w mcpClient input st = (res, st') ->
  exists new,
    posted st' = (posted st ++ new)%list
    /\ Forall (by_agents (plan input)) new
    /\ (forall results, res = Returned results ->
          Forall (fun r => agent_toolCalls r = []) results).
Proof.
  rewrite OrchestratorFacts.runCompositeWorkflow_stages. unfold bind, plan.
  set (sys := test systemKeywords (toLowerCase (task input))).
  set (file := test fileKeywords (toLowerCase (task input))).
  set (chg := test changeKeywords (toLowerCase (task input))).
  set (labels := ((if sys then ["SystemInspector"] else [])
                  ++ (if file then ["FileAnalyst"] else [])
                  ++ (if chg then ["ChangeProposer"] else []))%list).
  assert (Hs : sys = true -> In "SystemInspector" labels)
    by (intros E; unfold labels; rewrite E; simpl; auto).
  assert (Hf : file = true -> In "FileAnalyst" labels)
    by (intros E; unfold labels; rewrite E; apply in_or_app; right;
        simpl; auto).
  assert (Hc : chg = true -> In "ChangeProposer" labels)
    by (intros E; unfold labels; rewrite E; apply in_or_app; right;
        apply in_or_app; right; simpl; auto).
  destruct (stage w sys _ _ _ _ _ st) as [[acc1|e] st1] eqn:E1;
    eapply (@stage_trace _ _ _ _ _ _ _ _ _ _ labels) in E1;
    try exact Hs; try reflexivity; try (cbn [fst]; constructor);
    destruct E1 as (new1 & Hp1 & Hall1 & Hq1).
  2:{ intros [= <- <-]. exists new1. split; [exact Hp1|].
      split; [exact Hall1|]. intros results [=]. }
  specialize (Hq1 acc1 eq_refl).
  destruct (stage w file _ _ _ _ _ st1) as [[acc2|e] st2] eqn:E2;
    eapply (@stage_trace _ _ _ _ _ _ _ _ _ _ labels) in E2;
    try exact Hf; try reflexivity; try exact Hq1;
    destruct E2 as (new2 & Hp2 & Hall2 & Hq2).
  2:{ intros [= <- <-]. exists (new1 ++ new2)%list.
      rewrite Hp2, Hp1, List.app_assoc. split; [reflexivity|].
      split; [now apply Forall_app|]. intros results [=]. }
  specialize (Hq2 acc2 eq_refl).
  destruct (stage w chg _ _ _ _ _ st2) as [[acc3|e] st3] eqn:E3;
    eapply (@stage_trace _ _ _ _ _ _ _ _ _ _ labels) in E3;
    try exact Hc; try reflexivity; try exact Hq2;
    destruct E3 as (new3 & Hp3 & Hall3 & Hq3);
    intros [= <- <-]; exists (new1 ++ new2 ++ new3)%list;
    rewrite Hp3, Hp2, Hp1, <- !List.app_assoc;
    (split; [reflexivity|]);
    (split; [apply Forall_app; split; [exact Hall1|now apply Forall_app]|]).
  - intros results [= <-]. now apply Hq3.
  - intros results [=].
Qed.

Lemma single_trace w config label task st res st' labels :
  In (cfg_name config) labels ->
  cfg_allowedTools config = tools_of_agent (cfg_name config) ->
  bind (agent_step w config label task) (fun r => ret [r]) st = (res, st') ->
  exists new,
    posted st' = (posted st ++ new)%list
    /\ Forall (by_agents labels) new
    /\ (forall results, res = Returned results ->
          Forall (fun r => agent_toolCalls r = []) results).
Proof.
  intros Hin Ht. unfold bind.
  destruct (agent_step w config label task st) as [[r|e] st1] eqn:Es;
    eapply step_by_agents in Es; eauto;
    destruct Es as (new & Hp & Hall & Hr); intros [= <- <-];
    exists new; (split; [exact Hp|]); (split; [exact Hall|]).
  - intros results [= <-]. constructor; [now apply Hr|constructor].
  - intros results [=].
Qed.

Lemma dispatch_trace w mcpClient input st res st' :
  dispatch w mcpClient input st = (res, st') ->
  exists new,
    posted st' = (posted st ++ new)%list
    /\ Forall (by_agents (agents_of input)) new
    /\ (forall results, res = Returned results ->
          Forall (fun r => agent_toolCalls r = []) results).
Proof.
  unfold dispatch, agents_of. destruct (routed input).
  - apply (@single_trace w (inspector mcpClient)); [left|]; reflexivity.
  - apply (@single_trace w (analyst mcpClient)); [left|]; reflexivity.
  - apply (@single_trace w (proposer mcpClient)); [left|]; reflexivity.
  - apply workflow_trace.
Qed.

(** *** What the steps run *)

Lemma dispatch_single w mcpClient input st res st' :
  routed input <> composite ->
  dispatch w mcpClient input st = (res, st') ->
  match res with
  | Returned results =>
      exists r,
        results = [r]
        /\ agentName r = agent_of (routed input)
        /\ runs st' =
           (runs st ++ [{| run_agent := agent_of (routed input);
                           run_input := task input;
                           run_end := Returned (agent_output r) |}])%list
  | Threw e =>
      runs st' = runs st
      \/ runs st' =
         (runs st ++ [{| run_agent := agent_of (routed input);
                         run_input := task input;
                         run_end := Threw e |}])%list
  end.
Proof.
  intros Hne. unfold dispatch. destruct (routed input); [| | |congruence];
    unfold bind;
    match goal with
    | |- context [?step w mcpClient (task input) st] =>
        destruct (step w mcpClient (task input) st) as [[r|e] st1] eqn:Es
    end;
    apply OrchestratorFacts.agent_step_runs in Es; intros [= <- <-];
    try exact Es; destruct Es as [Hn Hr]; exists r; auto.
Qed.


(** *** The run as a whole *)

(** [Orchestrator.run] never throws: it always returns a result.  A
    result is a success exactly when it carries no error; a failure
    carries no agent result and an empty output; a success carries the
    routed task type and the output synthesized from its agent
    results. *)
Theorem run_always_returns
  (w : World) (mcpClient : MCPClient) (input : OrchestratorInput) (st : State) :
  exists result st',
    run w mcpClient input st = (Returned result, st')
    /\ (success result = true <-> error result = None)
    /\ (success result = false
        -> agentResults result = [] /\ finalOutput result = "")
    /\ (success result = true
        -> result_taskType result = routed input
           /\ finalOutput result
              = synthesizeOutput (routed input) (agentResults result)).
Proof.
  rewrite run_eq. destruct (health w _);
    [destruct (dispatch w mcpClient input _) as [[results|e] st2]|];
    eexists; eexists; (split; [reflexivity|]);
    cbn [success error agentResults finalOutput result_taskType];
    (split; [split; intros H; (discriminate H || reflexivity)|]);
    split; intros H; try discriminate H; split; reflexivity.
Qed.

(** When the gateway does not answer the health probe, the run ends
    at once: the result is a failure with the "not available" message
    and the type [system-diagnostic], whatever type the caller asked
    for; no agent is run, the model is not consulted and nothing is
    posted. *)
Theorem unavailable_gateway_stops_the_run
  (w : World) (mcpClient : MCPClient) (input : OrchestratorInput) (st : State) :
  health w (snd (Date_now w st)) = false ->
  exists result st',
    run w mcpClient input st = (Returned result, st')
    /\ success result = false
    /\ error result
       = Some "MCP server is not available. Please ensure it is running."
    /\ result_taskType result = system_diagnostic
    /\ agentResults result = []
    /\ finalOutput result = ""
    /\ posted st' = posted st
    /\ runs st' = runs st
    /\ modelQueries st' = modelQueries st.
Proof.
  intros Hh. rewrite run_eq, Hh. eexists. eexists.
  repeat (split; [reflexivity|]). reflexivity.
Qed.

Lemma unavailable_gateway_stops_the_run_witness :
  exists result st',
    run down Sample.client vague initial = (Returned result, st')
    /\ taskType vague = Some composite
    /\ result_taskType result = system_diagnostic
    /\ success result = false
    /\ runs st' = []
    /\ posted st' = [].
Proof.
  destruct (@unavailable_gateway_stops_the_run down Sample.client vague initial
              eq_refl)
    as (result & st' & Hrun & Hs & _ & Ht & _ & _ & Hp & Hr & _).
  exists result, st'. split; [exact Hrun|]. split; [reflexivity|].
  split; [exact Ht|]. split; [exact Hs|]. split; [exact Hr|exact Hp].
Defined.

(** A task routed to a single agent -- by its explicit type, or else
    by classification -- runs that agent once, on the task text as
    given: the caller's [context] is not passed on.  On success the one
    agent result is that agent's, and the final output is its output,
    unchanged.  On failure the history holds at most the run that
    threw. *)
Theorem single_purpose_task_runs_one_agent
  (w : World) (mcpClient : MCPClient) (input : OrchestratorInput) (st : State) :
  health w (snd (Date_now w st)) = true ->
  routed input <> composite ->
  exists result st',
    run w mcpClient input st = (Returned result, st')
    /\ (success result = true ->
        exists r,
          agentResults result = [r]
          /\ agentName r = agent_of (routed input)
          /\ finalOutput result = agent_output r
          /\ runs st' =
             (runs st ++ [{| run_agent := agent_of (routed input);
                             run_input := task input;
                             run_end := Returned (agent_output r) |}])%list)
    /\ (success result = false ->
        runs st' = runs st
        \/ exists e,
             error result = Some (message_of e)
             /\ runs st' =
                (runs st ++ [{| run_agent := agent_of (routed input);
                                run_input := task input;
                                run_end := Threw e |}])%list).
Proof.
  intros Hh Hne. rewrite run_eq, Hh.
  destruct (dispatch w mcpClient input _) as [[results|e] st2] eqn:Ed;
    apply dispatch_single in Ed; try exact Hne;
    eexists; eexists; (split; [reflexivity|]);
    cbn [success error agentResults finalOutput]; cbn [Date_now snd runs] in *.
  - split; [|discriminate]. intros _.
    destruct Ed as (r & -> & Hn & Hr). exists r.
    split; [reflexivity|]. split; [exact Hn|]. split; [reflexivity|exact Hr].
  - split; [discriminate|]. intros _.
    destruct Ed as [Hr|Hr]; [left; exact Hr|right].
    exists e. split; [reflexivity|exact Hr].
Qed.

Lemma single_purpose_task_runs_one_agent_witness :
  exists result st',
    run Sample.world Sample.client diagnose initial = (Returned result, st')
    /\ map agentName (agentResults result) = ["SystemInspector"]
    /\ finalOutput result = "done"
    /\ map run_input (runs st') = ["Check the system memory usage"].
Proof.
  assert (Hne : routed diagnose <> composite) by (vm_compute; discriminate).
  destruct (@single_purpose_task_runs_one_agent Sample.world Sample.client
              diagnose initial eq_refl Hne)
    as (result & st' & Hrun & Hok & _).
  exists result, st'. split; [exact Hrun|].
  assert (Hs : success result = true).
  { assert (E : fst (run Sample.world Sample.client diagnose initial)
                = Returned result) by (rewrite Hrun; reflexivity).
    vm_compute in E. injection E as <-. reflexivity. }
  destruct (Hok Hs) as (r & Ha & Hn & Hf & Hr).
  rewrite Ha, Hf, Hr. cbn [map app runs initial run_input]. rewrite Hn.
  assert (E : fst (run Sample.world Sample.client diagnose initial)
              = Returned result) by (rewrite Hrun; reflexivity).
  vm_compute in E. injection E as <-. injection Ha as <-.
  repeat split.
Defined.


(** A successful composite run, whichever keywords the task has: the
    agent results are those of the planned agents, in the order of the
    plan, each agent ran once and completed, and each run's output
    occurs in the input of the later ones.  When the task has none of
    the keywords -- which an explicit [composite] type allows -- the
    run succeeds without running an agent or posting a request, and
    says so. *)
Theorem composite_runs_the_planned_agents
  (w : World) (mcpClient : MCPClient) (input : OrchestratorInput)
  (st st' : State) (result : OrchestratorResult) :
  routed input = composite ->
  run w mcpClient input st = (Returned result, st') ->
  success result = true ->
  map agentName (agentResults result) = plan input
  /\ (exists new,
         runs st' = (runs st ++ new)%list
         /\ map run_agent new = plan input
         /\ Forall returned new
         /\ fed new)
  /\ (plan input = [] ->
      finalOutput result = "No agents were invoked."
      /\ posted st' = posted st
      /\ runs st' = runs st).
Proof.
  intros Hc. rewrite run_eq. destruct (health w _); [|intros [= <- <-]; discriminate].
  destruct (dispatch w mcpClient input _) as [[results|e] st2] eqn:Ed;
    intros [= <- <-]; [intros _|discriminate].
  cbn [agentResults finalOutput Date_now snd runs posted].
  pose proof Ed as Et. apply dispatch_trace in Et.
  destruct Et as (posts & Hp & Hall & _).
  unfold dispatch, agents_of in *. rewrite Hc in *.
  apply OrchestratorFacts.workflow_spec in Ed.
  destruct Ed as (new & Hr & Hfed & Hrun & Hnames & Hret).
  cbn [Date_now snd runs posted] in *.
  split; [exact Hnames|]. split.
  - exists new. auto.
  - intros Hnil. rewrite Hnil in *.
    destruct results; [|discriminate Hnames].
    destruct new; [|discriminate Hrun].
    destruct posts as [|r posts].
    + rewrite Hp, Hr, !List.app_nil_r. auto.
    + inversion Hall as [|? ? (label & [] & _) _].
Qed.

Lemma composite_runs_the_planned_agents_witness :
  (exists result st',
      run Sample.world Sample.client Sample.everything initial
      = (Returned result, st')
      /\ success result = true
      /\ map agentName (agentResults result)
         = ["SystemInspector"; "FileAnalyst"; "ChangeProposer"]
      /\ map run_agent (runs st')
         = ["SystemInspector"; "FileAnalyst"; "ChangeProposer"]
      /\ Forall returned (runs st')
      /\ fed (runs st'))
  /\ (exists result st',
         run Sample.world Sample.client vague initial = (Returned result, st')
         /\ success result = true
         /\ agentResults result = []
         /\ finalOutput result = "No agents were invoked."
         /\ posted st' = []).
Proof.
  split.
  - pose (finished := run Sample.world Sample.client Sample.everything initial).
    assert (E : exists result, finished = (Returned result, snd finished)
                               /\ success result = true)
      by (eexists; split; vm_compute; reflexivity).
    destruct E as (result & E & Hs).
    assert (Hc : routed Sample.everything = composite)
      by (vm_compute; reflexivity).
    assert (Hplan : plan Sample.everything
                    = ["SystemInspector"; "FileAnalyst"; "ChangeProposer"])
      by (vm_compute; reflexivity).
    destruct (@composite_runs_the_planned_agents Sample.world Sample.client
                Sample.everything initial (snd finished) result Hc E Hs)
      as (Hn & (new & Hr & Hrun & Hret & Hfed) & _).
    exists result, (snd finished). split; [exact E|]. split; [exact Hs|].
    cbn [runs initial app] in Hr. rewrite Hr, <- Hplan.
    repeat split; assumption.
  - pose (finished := run Sample.world Sample.client vague initial).
    assert (E : exists result, finished = (Returned result, snd finished)
                               /\ success result = true)
      by (eexists; split; vm_compute; reflexivity).
    destruct E as (result & E & Hs).
    destruct (@composite_runs_the_planned_agents Sample.world Sample.client vague
                initial (snd finished) result eq_refl E Hs)
      as (Hn & _ & Hnil).
    destruct (Hnil eq_refl) as (Hf & Hp & _).
    exists result, (snd finished). split; [exact E|]. split; [exact Hs|].
    split; [|split; [exact Hf|exact Hp]].
    destruct (agentResults result); [reflexivity|discriminate Hn].
Defined.

(** Every request a run of the orchestrator posts comes from one of
    the agents the task is routed to: it is for a tool of that agent's
    allow-list and carries that agent's intent line.  So a task routed
    to the system inspector posts nothing but [system-info] requests,
    and a composite task whose text has no change keyword posts no
    [file-write] request, whatever the model asks for. *)
Theorem posts_come_from_the_routed_agents
  (w : World) (mcpClient : MCPClient) (input : OrchestratorInput) (st : State) :
  exists new,
    posted (snd (run w mcpClient input st)) = (posted st ++ new)%list
    /\ Forall (by_agents (agents_of input)) new.
Proof.
  rewrite run_eq. destruct (health w _).
  - destruct (dispatch w mcpClient input _) as [[results|e] st2] eqn:Ed;
      apply dispatch_trace in Ed; destruct Ed as (new & Hp & Hall & _);
      exists new; split; [exact Hp| exact Hall |exact Hp|exact Hall].
  - exists []. rewrite List.app_nil_r. split; [reflexivity|constructor].
Qed.

(** The agent results returned by the orchestrator never list a tool
    call: the log of an agent is cleared at the start of a run and
    nothing is ever entered in it, however many requests the agent
    posted. *)
Theorem results_list_no_tool_calls
  (w : World) (mcpClient : MCPClient) (input : OrchestratorInput)
  (st st' : State) (result : OrchestratorResult) :
  run w mcpClient input st = (Returned result, st') ->
  Forall (fun r => agent_toolCalls r = []) (agentResults result).
Proof.
  rewrite run_eq. destruct (health w _); [|intros [= <- <-]; constructor].
  destruct (dispatch w mcpClient input _) as [[results|e] st2] eqn:Ed;
    intros [= <- <-]; [|constructor].
  apply dispatch_trace in Ed. destruct Ed as (_ & _ & _ & Hq).
  now apply Hq.
Qed.

Lemma results_list_no_tool_calls_witness :
  exists result st',
    run Sample.world Sample.client diagnose initial = (Returned result, st')
    /\ map tool (posted st') = ["system-info"]
    /\ Forall (fun r => agent_toolCalls r = []) (agentResults result).
Proof.
  pose (finished := run Sample.world Sample.client diagnose initial).
  assert (E : exists result, finished = (Returned result, snd finished))
    by (eexists; vm_compute; reflexivity).
  destruct E as (result & E).
  exists result, (snd finished). split; [exact E|].
  split; [vm_compute; reflexivity|].
  exact (@results_list_no_tool_calls Sample.world Sample.client diagnose
           initial (snd finished) result E).
Defined.


(** *** The synthesized output *)

Lemma occurs_in_trans (x y z : string) :
  Str.occurs_in x y -> Str.occurs_in y z -> Str.occurs_in x z.
Proof.
  intros (p1 & q1 & ->) (p2 & q2 & ->). exists (p2 ++ p1), (q1 ++ q2).
  now rewrite !StrFacts.sapp_assoc.
Qed.

Lemma occurs_in_join (sep x : string) (l : list string) :
  In x l -> Str.occurs_in x (Str.join sep l).
Proof.
  induction l as [|y l IH]; [intros []|]. intros Hin.
  change (Str.join sep (y :: l))
    with (match l with [] => y | _ :: _ => y ++ sep ++ Str.join sep l end).
  destruct Hin as [->|Hin].
  - destruct l; [apply StrFacts.occurs_in_refl|].
    apply StrFacts.occurs_in_app_l, StrFacts.occurs_in_refl.
  - destruct l as [|z l]; [destruct Hin|].
    apply StrFacts.occurs_in_app_r, StrFacts.occurs_in_app_r, IH, Hin.
Qed.

Lemma sections_nth results : forall k i r,
  nth_error results i = Some r ->
  nth_error (sections k results) i
  = Some ("## " ++ Str.of_Z (k + Z.of_nat i + 1) ++ ". " ++ agentName r
          ++ newline ++ newline ++ agent_output r).
Proof.
  induction results as [|r0 results IH]; intros k i r H.
  - destruct i; discriminate H.
  - destruct i as [|i].
    + injection H as <-. simpl. now rewrite Z.add_0_r.
    + cbn [sections nth_error] in *. rewrite (IH _ _ _ H).
      replace (k + 1 + Z.of_nat i + 1) with (k + Z.of_nat (S i) + 1) by lia.
      reflexivity.
Qed.

(** The synthesized output loses no agent's answer: the output of
    every agent result occurs verbatim in it.  With two results or
    more it names the task type, and the answer of the [i]-th result
    comes under the heading [## i. <agent name>], counted from one. *)
Theorem synthesis_keeps_every_output
  (taskType : TaskType) (results : list AgentExecutionResult) :
  Forall (fun r => Str.occurs_in (agent_output r)
                     (synthesizeOutput taskType results)) results
  /\ ((2 <= List.length results)%nat ->
      Str.occurs_in (TaskType_text taskType) (synthesizeOutput taskType results)
      /\ forall i r,
           nth_error results i = Some r ->
           Str.occurs_in
             ("## " ++ Str.of_Z (Z.of_nat i + 1) ++ ". " ++ agentName r
              ++ newline ++ newline ++ agent_output r)
             (synthesizeOutput taskType results)).
Proof.
  assert (Hmany : (2 <= List.length results)%nat ->
                  synthesizeOutput taskType results
                  = "# Orchestration Results (" ++ TaskType_text taskType ++ ")"
                    ++ newline ++ newline
                    ++ Str.join (newline ++ newline ++ "---" ++ newline ++ newline)
                         (sections 0 results)).
  { destruct results as [|a [|b l]]; simpl List.length; intros H;
      [lia|lia|reflexivity]. }
  assert (Hsec : (2 <= List.length results)%nat ->
                 forall i r,
                   nth_error results i = Some r ->
                   Str.occurs_in
                     ("## " ++ Str.of_Z (Z.of_nat i + 1) ++ ". " ++ agentName r
                      ++ newline ++ newline ++ agent_output r)
                     (synthesizeOutput taskType results)).
  { intros H i r Hi. rewrite (Hmany H).
    apply (sections_nth _ 0) in Hi. apply nth_error_In in Hi.
    apply StrFacts.occurs_in_app_r, StrFacts.occurs_in_app_r,
      StrFacts.occurs_in_app_r, StrFacts.occurs_in_app_r,
      StrFacts.occurs_in_app_r.
    eapply occurs_in_join. exact Hi. }
  split.
  - destruct results as [|a [|b l]].
    + constructor.
    + constructor; [apply StrFacts.occurs_in_refl|constructor].
    + apply Forall_forall. intros r Hin. apply In_nth_error in Hin.
      destruct Hin as [i Hi].
      eapply occurs_in_trans; [|apply (Hsec ltac:(simpl; lia) i r Hi)].
      repeat first [apply StrFacts.occurs_in_refl
                   | apply StrFacts.occurs_in_cons
                   | apply StrFacts.occurs_in_app_r].
  - intros H. split; [|exact (Hsec H)]. rewrite (Hmany H).
    apply StrFacts.occurs_in_app_r, StrFacts.occurs_in_app_l,
      StrFacts.occurs_in_refl.
Qed.

(** *** Keywords *)

Lemma strip_prefix_app pre : forall s rest,
  Str.strip_prefix pre s = Some rest -> s = pre ++ rest.
Proof.
  induction pre as [|a pre IH]; intros s rest; simpl.
  - now intros [= ->].
  - destruct s as [|b s]; [discriminate|].
    destruct (Ascii.eqb_spec a b) as [->|_]; [|discriminate].
    intros H. now rewrite (IH _ _ H).
Qed.

Lemma search_occurs words s : forall before,
  search words before s = true ->
  exists k, In k words /\ Str.occurs_in k s.
Proof.
  induction s as [|c s IH]; intros before H;
    cbn [search] in H; apply orb_true_iff in H;
    destruct H as [H|H]; try discriminate H.
  1,2: apply existsb_exists in H; destruct H as (k & Hin & Hw);
    unfold word_here in Hw;
    destruct (Str.strip_prefix k _) as [rest|] eqn:Es; [|discriminate];
    apply strip_prefix_app in Es; exists k; split; [exact Hin|];
    exists "", rest; exact Es.
  destruct (IH _ H) as (k & Hin & Hocc). exists k. split; [exact Hin|].
  now apply StrFacts.occurs_in_cons.
Qed.

Lemma apart (l1 l2 : list string) :
  forallb (fun a => forallb (fun b => negb (a =? b)%string) l2) l1 = true ->
  forall a b, In a l1 -> In b l2 -> a <> b.
Proof.
  intros H a b Ha Hb ->. rewrite forallb_forall in H.
  specialize (H b Ha). rewrite forallb_forall in H. specialize (H b Hb).
  now rewrite String.eqb_refl in H.
Qed.

(** A label other than the default needs keywords in the text:
    [file-analysis] is given only to a task whose lowercased text
    contains a file keyword, [change-proposal] only with a change
    keyword, and [composite] only with two different keywords.  A task
    in whose lowercased text no keyword occurs is a system
    diagnostic. *)
Theorem label_needs_a_keyword (task : string) :
  let text := toLowerCase task in
  (classifyTask task = file_analysis ->
   exists k, In k fileKeywords /\ Str.occurs_in k text)
  /\ (classifyTask task = change_proposal ->
      exists k, In k changeKeywords /\ Str.occurs_in k text)
  /\ (classifyTask task = composite ->
      exists k1 k2,
        k1 <> k2 /\ In k1 keywords /\ In k2 keywords
        /\ Str.occurs_in k1 text /\ Str.occurs_in k2 text)
  /\ ((forall k, In k keywords -> ~ Str.occurs_in k text) ->
      classifyTask task = system_diagnostic).
Proof.
  intros text. rewrite OrchestratorFacts.classifyTask_eq. fold text.
  unfold test.
  destruct (search systemKeywords None text) eqn:Es;
    destruct (search fileKeywords None text) eqn:Ef;
    destruct (search changeKeywords None text) eqn:Ec;
    try (apply search_occurs in Es; destruct Es as (ks & Hks & Hos));
    try (apply search_occurs in Ef; destruct Ef as (kf & Hkf & Hof));
    try (apply search_occurs in Ec; destruct Ec as (kc & Hkc & Hoc));
    (split; [intros H; try discriminate H; eauto|]);
    (split; [intros H; try discriminate H; eauto|]);
    (split; [intros H; try discriminate H|]);
    try (intros Hnone; try reflexivity; exfalso).
  all: unfold keywords in *.
  all: try (exists ks, kf; split; [now apply (@apart systemKeywords fileKeywords)|];
            repeat split; auto using in_or_app).
  all: try (exists ks, kc; split; [now apply (@apart systemKeywords changeKeywords)|];
            repeat split; auto using in_or_app).
  all: try (exists kf, kc; split; [now apply (@apart fileKeywords changeKeywords)|];
            repeat split; auto using in_or_app).
  all: try (apply (Hnone ks); auto using in_or_app).
  all: try (apply (Hnone kf); auto using in_or_app).
  all: try (apply (Hnone kc); auto using in_or_app).
Qed.

End RouterFacts.
